(** * The streaming tool-call parser of agent-dio (NativeToolCallParser)

    A shallow embedding of [NativeToolCallParser] and of the tables it
    consults ([toolNames], [toolParamNames], [TOOL_ALIASES]), followed by
    the properties of the parser that its specification states.

    Modelling conventions.
    - A JavaScript string is a [string]: a sequence of code units, here
      of the 8-bit range.
    - A JavaScript value is a [value]; numbers are IEEE-754 doubles
      ([float]).  An object is the list of its own enumerable properties
      in enumeration order, with distinct keys.
    - The two static [Map]s of the class are the two fields of
      [ParserState].  [streamingToolCalls] is never iterated, so it is a
      [gmap]; [rawChunkTracker] is iterated in insertion order, so it is
      an association list.
    - What the ECMAScript runtime and the packages outside the repository
      provide ([JSON.parse], [JSON.stringify], [Number], [parseInt], the
      lenient decoder of the [partial-json] package, the custom-tool
      registry) is a [Host], a parameter of the whole parser.
    - [console.warn] and [console.error] calls are collected, in order,
      as a list of [console] entries. *)

From Stdlib Require Import Floats.PrimFloat Floats.FloatOps Floats.SpecFloat.
From Stdlib Require Import Strings.Ascii Uint63.
From stdpp Require Import base strings list gmap fin_maps pretty.

Set Warnings "-register-all".

(** ** JavaScript values *)

Inductive value :=
  | VUndefined
  | VNull
  | VBool (b : bool)
  | VNum (n : float)
  | VStr (s : string)
  | VArr (l : list value)
  | VObj (fs : list (string * value)).

(** Truthiness ([ToBoolean]): [undefined], [null], [false], [0], [NaN]
    and the empty string are falsy. *)
Definition truthy (v : value) : bool :=
  match v with
  | VUndefined | VNull => false
  | VBool b => b
  | VNum n => negb (PrimFloat.eqb n 0%float) && PrimFloat.eqb n n
  | VStr s => negb (String.eqb s "")
  | VArr _ | VObj _ => true
  end.

(** [v !== undefined] *)
Definition defined (v : value) : bool :=
  match v with VUndefined => false | _ => true end.

Definition isArray (v : value) : bool :=
  match v with VArr _ => true | _ => false end.

Fixpoint assoc (k : string) (fs : list (string * value)) : value :=
  match fs with
  | [] => VUndefined
  | (k', v) :: r => if String.eqb k k' then v else assoc k r
  end.

(** Property read [v.k] for the property names the parser uses.  None of
    them is a property of a primitive wrapper or of [Array.prototype],
    with one exception, [search] on a string, which the parser reads
    only behind a guard that a string never passes.  The parser never
    reads a property of [null] or [undefined] through [get]: [file.path]
    in [convertFileEntries] is modelled apart. *)
Definition get (v : value) (k : string) : value :=
  match v with
  | VObj fs => assoc k fs
  | _ => VUndefined
  end.

Notation "a .[ k ]" := (get a k) (at level 1, left associativity, format "a .[ k ]").

(** [k in v] for an object or an array [v] and a non-index key. *)
Definition has_key (k : string) (v : value) : bool :=
  match v with
  | VObj fs => existsb (fun kv => String.eqb k kv.1) fs
  | _ => false
  end.

(** The element [v[i]] of an array. *)
Definition index_at (v : value) (i : nat) : value :=
  match v with
  | VArr l => default VUndefined (l !! i)
  | _ => VUndefined
  end.

(** The object literal [{ k1: args.k1, ..., kn: args.kn }]. *)
Definition pick (args : value) (ks : list string) : value :=
  VObj (map (fun k => (k, args.[k])) ks).

(** ** Exceptions and console output *)

Inductive exn :=
  | SyntaxError (text : string)
  | TypeError
  | InvalidArguments (tool : string) (args : value).

Record ToolCall := {
  call_id : string;
  call_name : string;
  call_arguments : string;
}.

Inductive console :=
  | warn_unknown_chunk (id : string)
  | warn_unknown_finalize (id : string)
  | error_invalid_tool_name (name resolved : string)
  | error_valid_tool_names
  | warn_unknown_parameter (key resolved : string)
  | warn_valid_param_names
  | error_failed_to_parse (e : exn)
  | error_tool_call (tc : ToolCall)
  | error_invalid_mcp_name (name normalized : string)
  | error_failed_mcp (e : exn).

(** Code that may log and may throw: the log written so far, and either
    the exception or the result. *)
Definition M (A : Type) : Type := (list console * (exn + A))%type.

#[global] Instance M_ret : MRet M := fun A a => ([], inr a).

#[global] Instance M_bind : MBind M := fun A B f m =>
  match m with
  | (w, inl e) => (w, inl e)
  | (w, inr a) => let '(w', r) := f a in (w ++ w', r)
  end.

Definition throw {A} (e : exn) : M A := ([], inl e).

Definition tell (c : list console) : M unit := (c, inr tt).

(** [String.prototype.trim] on 8-bit code units: tab, line feed,
    vertical tab, form feed, carriage return, space and no-break space. *)
Definition is_space (c : Ascii.ascii) : bool :=
  let n := Ascii.nat_of_ascii c in
  ((9 <=? n)%nat && (n <=? 13)%nat) || (n =? 32)%nat || (n =? 160)%nat.

Fixpoint trim_start (s : string) : string :=
  match s with
  | String c r => if is_space c then trim_start r else s
  | EmptyString => EmptyString
  end.

Definition trim (s : string) : string :=
  String.rev (trim_start (String.rev (trim_start s))).

(** [String.prototype.toLowerCase] on 8-bit code units. *)
Definition lower_ascii (c : Ascii.ascii) : Ascii.ascii :=
  let n := Ascii.nat_of_ascii c in
  if ((65 <=? n)%nat && (n <=? 90)%nat)
     || ((192 <=? n)%nat && (n <=? 222)%nat && negb (n =? 215)%nat)
  then Ascii.ascii_of_nat (n + 32) else c.

Fixpoint toLowerCase (s : string) : string :=
  match s with
  | String c r => String (lower_ascii c) (toLowerCase r)
  | EmptyString => EmptyString
  end.

(** ** The host: runtime builtins and packages outside the repository *)

Record Host := {
  (** [JSON.parse]; [None] when it throws a [SyntaxError]. *)
  JSON_parse : string -> option value;
  (** [parseJSON] of the [partial-json] package, the lenient decoder;
      [None] when even it throws. *)
  parseJSON : string -> option value;
  (** [JSON.stringify] of a decoded value. *)
  JSON_stringify : value -> string;
  (** [Number(v)]. *)
  Number_ : value -> float;
  (** [parseInt(s, 10)] for a string of decimal digits. *)
  parseInt : string -> float;
  (** [customToolRegistry.has(name)]. *)
  customToolRegistry_has : string -> bool;
}.

(** ** Tool names, parameter names and aliases *)

(** [toolNames] of packages/types/src/tool.ts, in declaration order. *)
Inductive ToolName :=
  | execute_command | read_file | read_command_output | write_to_file
  | apply_diff | search_and_replace | search_replace | edit_file
  | apply_patch | search_files | list_files | browser_action
  | use_mcp_tool | access_mcp_resource | ask_followup_question
  | attempt_completion | switch_mode | new_task | fetch_instructions
  | codebase_search | update_todo_list | run_slash_command
  | generate_image | custom_tool
  | browser_open | browser_close | browser_action_input
  | browser_navigate | browser_reload | browser_screenshot
  | browser_execute_script | browser_inspect_element
  | browser_get_errors | browser_get_console_logs
  | browser_get_performance | browser_get_state | browser_set_viewport
  | browser_get_network_requests
  | project_get_active | project_start | project_stop
  | canvas_list | canvas_get_active | canvas_create | canvas_open
  | component_add | component_add_batch | component_remove
  | component_get_info | component_list | component_rebuild
  | canvas_validate_components.

Definition toolNames : list ToolName :=
  [ execute_command; read_file; read_command_output; write_to_file;
    apply_diff; search_and_replace; search_replace; edit_file;
    apply_patch; search_files; list_files; browser_action;
    use_mcp_tool; access_mcp_resource; ask_followup_question;
    attempt_completion; switch_mode; new_task; fetch_instructions;
    codebase_search; update_todo_list; run_slash_command;
    generate_image; custom_tool;
    browser_open; browser_close; browser_action_input;
    browser_navigate; browser_reload; browser_screenshot;
    browser_execute_script; browser_inspect_element;
    browser_get_errors; browser_get_console_logs;
    browser_get_performance; browser_get_state; browser_set_viewport;
    browser_get_network_requests;
    project_get_active; project_start; project_stop;
    canvas_list; canvas_get_active; canvas_create; canvas_open;
    component_add; component_add_batch; component_remove;
    component_get_info; component_list; component_rebuild;
    canvas_validate_components ].

(** The string of each tool name. *)
Definition ToolName_str (t : ToolName) : string :=
  match t with
  | execute_command => "execute_command"
  | read_file => "read_file"
  | read_command_output => "read_command_output"
  | write_to_file => "write_to_file"
  | apply_diff => "apply_diff"
  | search_and_replace => "search_and_replace"
  | search_replace => "search_replace"
  | edit_file => "edit_file"
  | apply_patch => "apply_patch"
  | search_files => "search_files"
  | list_files => "list_files"
  | browser_action => "browser_action"
  | use_mcp_tool => "use_mcp_tool"
  | access_mcp_resource => "access_mcp_resource"
  | ask_followup_question => "ask_followup_question"
  | attempt_completion => "attempt_completion"
  | switch_mode => "switch_mode"
  | new_task => "new_task"
  | fetch_instructions => "fetch_instructions"
  | codebase_search => "codebase_search"
  | update_todo_list => "update_todo_list"
  | run_slash_command => "run_slash_command"
  | generate_image => "generate_image"
  | custom_tool => "custom_tool"
  | browser_open => "browser_open"
  | browser_close => "browser_close"
  | browser_action_input => "browser_action_input"
  | browser_navigate => "browser_navigate"
  | browser_reload => "browser_reload"
  | browser_screenshot => "browser_screenshot"
  | browser_execute_script => "browser_execute_script"
  | browser_inspect_element => "browser_inspect_element"
  | browser_get_errors => "browser_get_errors"
  | browser_get_console_logs => "browser_get_console_logs"
  | browser_get_performance => "browser_get_performance"
  | browser_get_state => "browser_get_state"
  | browser_set_viewport => "browser_set_viewport"
  | browser_get_network_requests => "browser_get_network_requests"
  | project_get_active => "project_get_active"
  | project_start => "project_start"
  | project_stop => "project_stop"
  | canvas_list => "canvas_list"
  | canvas_get_active => "canvas_get_active"
  | canvas_create => "canvas_create"
  | canvas_open => "canvas_open"
  | component_add => "component_add"
  | component_add_batch => "component_add_batch"
  | component_remove => "component_remove"
  | component_get_info => "component_get_info"
  | component_list => "component_list"
  | component_rebuild => "component_rebuild"
  | canvas_validate_components => "canvas_validate_components"
  end.

(** The member of [toolNames] a string spells, if any;
    [toolNames.includes(s)] is [is_Some (toolName_of_string s)], and a
    [switch] over a name dispatches on it. *)
Definition toolName_of_string (s : string) : option ToolName :=
  find (fun t => String.eqb (ToolName_str t) s) toolNames.

(** [toolParamNames] of shared/tools.ts, in declaration order. *)
Definition toolParamNames : list string :=
  [ "command"; "path"; "content"; "regex"; "file_pattern"; "recursive";
    "action"; "url"; "coordinate"; "text"; "server_name"; "tool_name";
    "arguments"; "uri"; "question"; "result"; "diff"; "mode_slug";
    "reason"; "line"; "mode"; "message"; "cwd"; "follow_up"; "task";
    "size"; "query"; "args"; "start_line"; "end_line"; "todos"; "prompt";
    "image"; "files"; "operations"; "patch"; "file_path"; "old_string";
    "new_string"; "expected_replacements"; "artifact_id"; "search";
    "offset"; "limit";
    "selector"; "includeInherited"; "script"; "ignoreCache"; "limit";
    "type"; "projectPath"; "port"; "name"; "nameFilter"; "sortBy";
    "sortDirection"; "canvasId"; "folderPath"; "entryFile"; "framework";
    "componentId"; "deleteSourceCode"; "components";
    "width"; "height"; "deviceScaleFactor"; "mobile";
    "includeStaticAssets"; "urlFilter"; "method"; "statusFilter";
    "key"; "modifiers"; "deltaX"; "deltaY" ].

(** [toolParamNames.includes(key)] *)
Definition is_toolParamName (key : string) : bool :=
  existsb (String.eqb key) toolParamNames.

(** [TOOL_ALIASES] of shared/tools.ts: alias name to canonical name. *)
Definition TOOL_ALIASES : list (string * string) :=
  [ ("write_file", "write_to_file") ].

(** Modelled from the spec: [resolveToolAlias] is declared in
    core/prompts/tools/filter-tools-for-mode, which is not among the
    sources.  Section 4.3: it looks the name up in the closed alias table
    and returns the input unchanged if absent. *)
Definition resolveToolAlias (name : string) : string :=
  match find (fun kv => String.eqb kv.1 name) TOOL_ALIASES with
  | Some kv => kv.2
  | None => name
  end.

(** ** Dynamic (MCP) tool names *)

(** Modelled from the spec: utils/mcp-name is not among the sources.  The
    reserved prefix and separator are the ones the parser's comments show
    ("mcp--serverName--toolName", "using -- separator"). *)
Definition MCP_TOOL_PREFIX : string := "mcp".

Definition MCP_TOOL_SEPARATOR : string := "--".

(** [s.replace(/__/g, "--")] *)
Fixpoint replace_underscores (s : string) : string :=
  match s with
  | String "_"%char (String "_"%char r) =>
      String "-"%char (String "-"%char (replace_underscores r))
  | String c r => String c (replace_underscores r)
  | EmptyString => EmptyString
  end.

(** Modelled from the spec: [normalizeMcpToolName] of utils/mcp-name,
    which is not among the sources.  Section 4.4 and the parser's
    comments: a name in the alternate separator variant
    ("mcp__serverName__toolName") is rewritten into the canonical format
    ("mcp--serverName--toolName"); any other name is returned as it is. *)
Definition normalizeMcpToolName (toolName : string) : string :=
  if String.prefix (MCP_TOOL_PREFIX +:+ "__") toolName
  then replace_underscores toolName
  else toolName.

(** The text before the first occurrence of the separator "--" and the
    text after it. *)
Fixpoint split_at_separator (s : string) : option (string * string) :=
  match s with
  | String "-"%char (String "-"%char r) => Some (EmptyString, r)
  | String c r =>
      match split_at_separator r with
      | Some (a, b) => Some (String c a, b)
      | None => None
      end
  | EmptyString => None
  end.

(** Modelled from the spec: [parseMcpToolName] of utils/mcp-name, which
    is not among the sources.  Section 4.4: it splits a canonical dynamic
    name into exactly two components after the reserved prefix and
    separator, and returns [null] if the structure does not match, as
    when the number of separator-delimited segments is wrong.  Both
    components are taken to be non-empty. *)
Definition parseMcpToolName (toolName : string) : option (string * string) :=
  let prefix := MCP_TOOL_PREFIX +:+ MCP_TOOL_SEPARATOR in
  if String.prefix prefix toolName then
    match split_at_separator (String.substring (String.length prefix)
                                (String.length toolName - String.length prefix)
                                toolName) with
    | Some (serverName, toolNamePart) =>
        if String.eqb serverName "" || String.eqb toolNamePart ""
           || bool_decide (is_Some (split_at_separator toolNamePart))
        then None else Some (serverName, toolNamePart)
    | None => None
    end
  else None.

(** ** Records of the parser *)

(** [ToolUse] of shared/tools.ts, as the parser builds it: the parser
    sets [type], [name], [params], [partial], [nativeArgs] and, for an
    alias, [originalName]; it never sets the optional [id]. *)
Record ToolUse := {
  tu_name : string;
  tu_originalName : option string;
  tu_params : gmap string string;
  tu_partial : bool;
  tu_nativeArgs : value;
}.

(** [McpToolUse] of shared/tools.ts. *)
Record McpToolUse := {
  mcp_id : string;
  mcp_name : string;
  mcp_serverName : string;
  mcp_toolName : string;
  mcp_arguments : value;
  mcp_partial : bool;
}.

(** What [parseToolCall] returns when it does not return [null]. *)
Inductive Parsed :=
  | tool_use (u : ToolUse)
  | mcp_tool_use (m : McpToolUse).

(** An entry of [streamingToolCalls]. *)
Record StreamingCall := {
  sc_id : string;
  sc_name : string;
  argumentsAccumulator : string;
}.

(** An entry of [rawChunkTracker]. *)
Record Tracked := {
  tr_id : string;
  tr_name : string;
  hasStarted : bool;
  deltaBuffer : list string;
}.

(** The argument of [processRawChunk]. *)
Record RawChunk := {
  index : Z;
  chunk_id : option string;
  chunk_name : option string;
  chunk_arguments : option string;
}.

Inductive ToolCallStreamEvent :=
  | tool_call_start (id name : string)
  | tool_call_delta (id delta : string)
  | tool_call_end (id : string).

(** The static state of the class. *)
Record ParserState := {
  streamingToolCalls : gmap string StreamingCall;
  rawChunkTracker : list (Z * Tracked);
}.

(** What an entry point of the registry returns: the value returned,
    the state it leaves, and the console output. *)
Record Outcome (A : Type) := {
  returned : option A;
  state : ParserState;
  logged : list console;
}.

Arguments returned {A} _.
Arguments state {A} _.
Arguments logged {A} _.

(** Truthiness of an optional string field ([id && ...], [if (name)]). *)
Definition present (o : option string) : bool :=
  match o with
  | Some s => negb (String.eqb s "")
  | None => false
  end.

(** [rawChunkTracker.get(index)] *)
Fixpoint tracker_get (i : Z) (l : list (Z * Tracked)) : option Tracked :=
  match l with
  | [] => None
  | (j, t) :: r => if Z.eqb i j then Some t else tracker_get i r
  end.

(** [rawChunkTracker.set(index, tracked)], and the effect of mutating
    the tracked object in place: an existing entry keeps its position, a
    new one goes last. *)
Fixpoint tracker_set (i : Z) (t : Tracked) (l : list (Z * Tracked)) : list (Z * Tracked) :=
  match l with
  | [] => [(i, t)]
  | (j, u) :: r => if Z.eqb i j then (j, t) :: r else (j, u) :: tracker_set i t r
  end.

(** ** Helpers on values *)

(** [Object.entries(v)]: throws on [null] and [undefined]; an array
    yields its elements under their decimal indices, a string its code
    units, a number or a boolean nothing. *)
Fixpoint string_units (s : string) : list value :=
  match s with
  | String c r => VStr (String c EmptyString) :: string_units r
  | EmptyString => []
  end.

Definition Object_entries (v : value) : M (list (string * value)) :=
  match v with
  | VUndefined | VNull => throw TypeError
  | VObj fs => mret fs
  | VArr l => mret (imap (fun i x => (pretty i, x)) l)
  | VStr s => mret (imap (fun i x => (pretty i, x)) (string_units s))
  | VBool _ | VNum _ => mret []
  end.

Definition is_digit (c : Ascii.ascii) : bool :=
  let n := Ascii.nat_of_ascii c in (48 <=? n)%nat && (n <=? 57)%nat.

Fixpoint all_digits (s : string) : bool :=
  match s with
  | String c r => is_digit c && all_digits r
  | EmptyString => true
  end.

(** The text before the first "-" and the text after it. *)
Fixpoint split_dash (s : string) : option (string * string) :=
  match s with
  | String c r =>
      if Ascii.eqb c "-"%char then Some (EmptyString, r)
      else match split_dash r with
           | Some (a, b) => Some (String c a, b)
           | None => None
           end
  | EmptyString => None
  end.

(** [range.match(/^(\d+)-(\d+)$/)]: the two groups. *)
Definition match_range (range : string) : option (string * string) :=
  match split_dash range with
  | Some (a, b) =>
      if negb (String.eqb a "") && all_digits a
         && negb (String.eqb b "") && all_digits b
      then Some (a, b) else None
  | None => None
  end.

(** ** The parser *)

Section Parser.

Variable h : Host.

Definition coerceOptionalBoolean (v : value) : value :=
  match v with
  | VBool b => VBool b
  | VStr s =>
      let lower := toLowerCase (trim s) in
      if String.eqb lower "true" then VBool true
      else if String.eqb lower "false" then VBool false
      else VUndefined
  | _ => VUndefined
  end.

(** One element of [file.line_ranges]; [None] is the [null] that
    [filter(Boolean)] then drops. *)
Definition convertRange (range : value) : option value :=
  match range with
  | VArr l =>
      if (2 <=? length l)%nat
      then Some (VObj [("start", VNum (Number_ h (index_at range 0)));
                       ("end", VNum (Number_ h (index_at range 1)))])
      else None
  | VObj _ =>
      if has_key "start" range && has_key "end" range
      then Some (VObj [("start", VNum (Number_ h range.["start"]));
                       ("end", VNum (Number_ h range.["end"]))])
      else None
  | VStr s =>
      match match_range s with
      | Some (a, b) => Some (VObj [("start", VNum (parseInt h a));
                                   ("end", VNum (parseInt h b))])
      | None => None
      end
  | _ => None
  end.

(** One element of [files]: reading [file.path] throws on [null] and
    [undefined]. *)
Definition convertFileEntry (file : value) : M value :=
  match file with
  | VUndefined | VNull => throw TypeError
  | _ =>
      match file.["line_ranges"] with
      | VArr ranges =>
          mret (VObj [("path", file.["path"]);
                      ("lineRanges", VArr (omap convertRange ranges))])
      | _ => mret (VObj [("path", file.["path"])])
      end
  end.

Definition convertFileEntries (files : list value) : M (list value) :=
  mapM convertFileEntry files.

(** [typeof value === "string" ? value : JSON.stringify(value)] *)
Definition stringValue (v : value) : string :=
  match v with
  | VStr s => s
  | _ => JSON_stringify h v
  end.

(** The [params] loop of [createPartialToolUse]. *)
Definition partial_params (entries : list (string * value)) : gmap string string :=
  fold_left (fun params kv =>
               if is_toolParamName kv.1
               then <[kv.1 := stringValue kv.2]> params
               else params)
            entries ∅.

(** The [switch (name)] of [createPartialToolUse]. *)
Definition partial_nativeArgs (name : string) (partialArgs : value) : M value :=
  match toolName_of_string name with
  | Some read_file =>
      match partialArgs.["files"] with
      | VArr files => fs ← convertFileEntries files; mret (VObj [("files", VArr fs)])
      | _ => mret VUndefined
      end
  | Some attempt_completion =>
      mret (if truthy partialArgs.["result"]
            then pick partialArgs ["result"] else VUndefined)
  | Some execute_command =>
      mret (if truthy partialArgs.["command"]
            then pick partialArgs ["command"; "cwd"] else VUndefined)
  | Some write_to_file =>
      mret (if truthy partialArgs.["path"] || truthy partialArgs.["content"]
            then pick partialArgs ["path"; "content"] else VUndefined)
  | Some ask_followup_question =>
      mret (if defined partialArgs.["question"] || defined partialArgs.["follow_up"]
            then VObj [("question", partialArgs.["question"]);
                       ("follow_up", if isArray partialArgs.["follow_up"]
                                     then partialArgs.["follow_up"] else VUndefined)]
            else VUndefined)
  | Some apply_diff =>
      mret (if defined partialArgs.["path"] || defined partialArgs.["diff"]
            then pick partialArgs ["path"; "diff"] else VUndefined)
  | Some browser_action =>
      mret (if defined partialArgs.["action"]
            then pick partialArgs ["action"; "url"; "coordinate"; "size"; "text"; "path"]
            else VUndefined)
  | Some codebase_search =>
      mret (if defined partialArgs.["query"]
            then pick partialArgs ["query"; "path"] else VUndefined)
  | Some fetch_instructions =>
      mret (if defined partialArgs.["task"]
            then pick partialArgs ["task"] else VUndefined)
  | Some generate_image =>
      mret (if defined partialArgs.["prompt"] || defined partialArgs.["path"]
            then pick partialArgs ["prompt"; "path"; "image"] else VUndefined)
  | Some run_slash_command =>
      mret (if defined partialArgs.["command"]
            then pick partialArgs ["command"; "args"] else VUndefined)
  | Some search_files =>
      mret (if defined partialArgs.["path"] || defined partialArgs.["regex"]
            then pick partialArgs ["path"; "regex"; "file_pattern"] else VUndefined)
  | Some switch_mode =>
      mret (if defined partialArgs.["mode_slug"] || defined partialArgs.["reason"]
            then pick partialArgs ["mode_slug"; "reason"] else VUndefined)
  | Some update_todo_list =>
      mret (if defined partialArgs.["todos"]
            then pick partialArgs ["todos"] else VUndefined)
  | Some use_mcp_tool =>
      mret (if defined partialArgs.["server_name"] || defined partialArgs.["tool_name"]
            then pick partialArgs ["server_name"; "tool_name"; "arguments"]
            else VUndefined)
  | Some apply_patch =>
      mret (if defined partialArgs.["patch"]
            then pick partialArgs ["patch"] else VUndefined)
  | Some search_replace =>
      mret (if defined partialArgs.["file_path"] || defined partialArgs.["old_string"]
               || defined partialArgs.["new_string"]
            then pick partialArgs ["file_path"; "old_string"; "new_string"]
            else VUndefined)
  | Some search_and_replace =>
      mret (if defined partialArgs.["path"] || defined partialArgs.["operations"]
            then pick partialArgs ["path"; "operations"] else VUndefined)
  | Some edit_file =>
      mret (if defined partialArgs.["file_path"] || defined partialArgs.["old_string"]
               || defined partialArgs.["new_string"]
            then pick partialArgs ["file_path"; "old_string"; "new_string";
                                   "expected_replacements"]
            else VUndefined)
  | Some list_files =>
      mret (if defined partialArgs.["path"]
            then VObj [("path", partialArgs.["path"]);
                       ("recursive", coerceOptionalBoolean partialArgs.["recursive"])]
            else VUndefined)
  | Some new_task =>
      mret (if defined partialArgs.["mode"] || defined partialArgs.["message"]
            then pick partialArgs ["mode"; "message"; "todos"] else VUndefined)
  | Some browser_open => mret (pick partialArgs ["url"])
  | Some browser_close => mret (VObj [])
  | Some browser_action_input =>
      mret (pick partialArgs ["action"; "coordinate"; "text"; "key"; "modifiers";
                              "deltaX"; "deltaY"])
  | Some browser_navigate => mret (pick partialArgs ["url"])
  | Some browser_reload => mret (pick partialArgs ["ignoreCache"])
  | Some browser_screenshot => mret (VObj [])
  | Some browser_execute_script => mret (pick partialArgs ["script"])
  | Some browser_inspect_element => mret (pick partialArgs ["selector"; "includeInherited"])
  | Some browser_get_errors => mret (pick partialArgs ["limit"])
  | Some browser_get_console_logs => mret (pick partialArgs ["limit"; "type"])
  | Some browser_get_performance => mret (VObj [])
  | Some browser_get_state => mret (VObj [])
  | Some browser_set_viewport =>
      mret (pick partialArgs ["width"; "height"; "deviceScaleFactor"; "mobile"])
  | Some browser_get_network_requests =>
      mret (pick partialArgs ["includeStaticAssets"; "urlFilter"; "method";
                              "statusFilter"; "limit"])
  | Some project_get_active => mret (VObj [])
  | Some project_start => mret (pick partialArgs ["projectPath"; "port"])
  | Some project_stop => mret (VObj [])
  | Some canvas_list => mret (pick partialArgs ["nameFilter"; "sortBy"; "sortDirection"])
  | Some canvas_get_active => mret (VObj [])
  | Some canvas_create => mret (pick partialArgs ["name"])
  | Some canvas_open => mret (pick partialArgs ["canvasId"; "name"])
  | Some canvas_validate_components => mret (pick partialArgs ["canvasId"])
  | Some component_add =>
      mret (pick partialArgs ["folderPath"; "canvasId"; "name"; "entryFile"; "framework"])
  | Some component_add_batch => mret (pick partialArgs ["components"])
  | Some component_remove => mret (pick partialArgs ["componentId"; "deleteSourceCode"])
  | Some component_get_info => mret (pick partialArgs ["componentId"])
  | Some component_list => mret (pick partialArgs ["canvasId"])
  | Some component_rebuild => mret (pick partialArgs ["componentId"])
  | Some read_command_output | Some access_mcp_resource | Some custom_tool
  | None => mret VUndefined
  end.

(** [createPartialToolUse].  [partialArgs] is never [null] or
    [undefined] here: the caller passes [partialArgs || {}]. *)
Definition createPartialToolUse (id name : string) (partialArgs : value)
    (partial : bool) (originalName : option string) : M ToolUse :=
  entries ← Object_entries partialArgs;
  let params := partial_params entries in
  nativeArgs ← partial_nativeArgs name partialArgs;
  mret {| tu_name := name;
          tu_originalName := if present originalName then originalName else None;
          tu_params := params;
          tu_partial := partial;
          tu_nativeArgs := nativeArgs |}.

(** The [params] loop of [parseToolCall]: the parameters kept and the
    warnings written.  [params] is a plain object, so the assignment
    [params[key] = stringValue] under the key [__proto__] reaches the
    setter of [Object.prototype], which ignores a string: no property
    is stored.  ([__proto__] is no member of [toolParamNames], so the
    assignment is reached under that key for a custom tool only.) *)
Definition strict_params (resolvedName : string) (entries : list (string * value))
    : gmap string string * list console :=
  fold_left (fun acc kv =>
               if String.eqb resolvedName "read_file" && String.eqb kv.1 "files"
               then acc
               else if negb (is_toolParamName kv.1)
                       && negb (customToolRegistry_has h resolvedName)
               then (acc.1, acc.2 ++ [warn_unknown_parameter kv.1 resolvedName;
                                      warn_valid_param_names])
               else if String.eqb kv.1 "__proto__"
               then acc
               else (<[kv.1 := stringValue kv.2]> acc.1, acc.2))
            entries (∅, []).

(** The [switch (resolvedName)] of [parseToolCall]. *)
Definition strict_nativeArgs (resolvedName : string) (args : value) : M value :=
  match toolName_of_string resolvedName with
  | Some read_file =>
      match args.["files"] with
      | VArr files => fs ← convertFileEntries files; mret (VObj [("files", VArr fs)])
      | _ => mret VUndefined
      end
  | Some attempt_completion =>
      mret (if truthy args.["result"] then pick args ["result"] else VUndefined)
  | Some execute_command =>
      mret (if truthy args.["command"] then pick args ["command"; "cwd"] else VUndefined)
  | Some apply_diff =>
      mret (if defined args.["path"] && defined args.["diff"]
            then pick args ["path"; "diff"] else VUndefined)
  | Some search_and_replace =>
      mret (if defined args.["path"] && defined args.["operations"]
               && isArray args.["operations"]
            then pick args ["path"; "operations"] else VUndefined)
  | Some ask_followup_question =>
      mret (if defined args.["question"] && defined args.["follow_up"]
            then pick args ["question"; "follow_up"] else VUndefined)
  | Some browser_action =>
      mret (if defined args.["action"]
            then pick args ["action"; "url"; "coordinate"; "size"; "text"; "path"]
            else VUndefined)
  | Some codebase_search =>
      mret (if defined args.["query"] then pick args ["query"; "path"] else VUndefined)
  | Some fetch_instructions =>
      mret (if defined args.["task"] then pick args ["task"] else VUndefined)
  | Some generate_image =>
      mret (if defined args.["prompt"] && defined args.["path"]
            then pick args ["prompt"; "path"; "image"] else VUndefined)
  | Some run_slash_command =>
      mret (if defined args.["command"] then pick args ["command"; "args"] else VUndefined)
  | Some search_files =>
      mret (if defined args.["path"] && defined args.["regex"]
            then pick args ["path"; "regex"; "file_pattern"] else VUndefined)
  | Some switch_mode =>
      mret (if defined args.["mode_slug"] && defined args.["reason"]
            then pick args ["mode_slug"; "reason"] else VUndefined)
  | Some update_todo_list =>
      mret (if defined args.["todos"] then pick args ["todos"] else VUndefined)
  | Some read_command_output =>
      mret (if defined args.["artifact_id"]
            then pick args ["artifact_id"; "search"; "offset"; "limit"] else VUndefined)
  | Some write_to_file =>
      mret (if defined args.["path"] && defined args.["content"]
            then pick args ["path"; "content"] else VUndefined)
  | Some use_mcp_tool =>
      mret (if defined args.["server_name"] && defined args.["tool_name"]
            then pick args ["server_name"; "tool_name"; "arguments"] else VUndefined)
  | Some access_mcp_resource =>
      mret (if defined args.["server_name"] && defined args.["uri"]
            then pick args ["server_name"; "uri"] else VUndefined)
  | Some apply_patch =>
      mret (if defined args.["patch"] then pick args ["patch"] else VUndefined)
  | Some search_replace =>
      mret (if defined args.["file_path"] && defined args.["old_string"]
               && defined args.["new_string"]
            then pick args ["file_path"; "old_string"; "new_string"] else VUndefined)
  | Some edit_file =>
      mret (if defined args.["file_path"] && defined args.["old_string"]
               && defined args.["new_string"]
            then pick args ["file_path"; "old_string"; "new_string";
                            "expected_replacements"]
            else VUndefined)
  | Some list_files =>
      mret (if defined args.["path"]
            then VObj [("path", args.["path"]);
                       ("recursive", coerceOptionalBoolean args.["recursive"])]
            else VUndefined)
  | Some new_task =>
      mret (if defined args.["mode"] && defined args.["message"]
            then pick args ["mode"; "message"; "todos"] else VUndefined)
  | Some browser_open => mret (pick args ["url"])
  | Some browser_close => mret (VObj [])
  | Some browser_action_input =>
      mret (if defined args.["action"]
            then pick args ["action"; "coordinate"; "text"; "key"; "modifiers";
                            "deltaX"; "deltaY"]
            else VUndefined)
  | Some browser_navigate =>
      mret (if defined args.["url"] then pick args ["url"] else VUndefined)
  | Some browser_reload => mret (pick args ["ignoreCache"])
  | Some browser_screenshot => mret (VObj [])
  | Some browser_execute_script =>
      mret (if defined args.["script"] then pick args ["script"] else VUndefined)
  | Some browser_inspect_element =>
      mret (if defined args.["selector"]
            then pick args ["selector"; "includeInherited"] else VUndefined)
  | Some browser_get_errors => mret (pick args ["limit"])
  | Some browser_get_console_logs => mret (pick args ["limit"; "type"])
  | Some browser_get_performance => mret (VObj [])
  | Some browser_get_state => mret (VObj [])
  | Some browser_set_viewport =>
      mret (pick args ["width"; "height"; "deviceScaleFactor"; "mobile"])
  | Some browser_get_network_requests =>
      mret (pick args ["includeStaticAssets"; "urlFilter"; "method"; "statusFilter";
                       "limit"])
  | Some project_get_active => mret (VObj [])
  | Some project_start =>
      mret (if defined args.["projectPath"]
            then pick args ["projectPath"; "port"] else VUndefined)
  | Some project_stop => mret (VObj [])
  | Some canvas_list => mret (pick args ["nameFilter"; "sortBy"; "sortDirection"])
  | Some canvas_get_active => mret (VObj [])
  | Some canvas_create =>
      mret (if defined args.["name"] then pick args ["name"] else VUndefined)
  | Some canvas_open => mret (pick args ["canvasId"; "name"])
  | Some canvas_validate_components => mret (pick args ["canvasId"])
  | Some component_add =>
      mret (if defined args.["folderPath"]
            then pick args ["folderPath"; "canvasId"; "name"; "entryFile"; "framework"]
            else VUndefined)
  | Some component_add_batch =>
      mret (if defined args.["components"] then pick args ["components"] else VUndefined)
  | Some component_remove =>
      mret (if defined args.["componentId"]
            then pick args ["componentId"; "deleteSourceCode"] else VUndefined)
  | Some component_get_info =>
      mret (if defined args.["componentId"] then pick args ["componentId"] else VUndefined)
  | Some component_list =>
      mret (if defined args.["canvasId"] then pick args ["canvasId"] else VUndefined)
  | Some component_rebuild =>
      mret (if defined args.["componentId"] then pick args ["componentId"] else VUndefined)
  | Some custom_tool | None =>
      mret (if customToolRegistry_has h resolvedName then args else VUndefined)
  end.

(** The body of the [try] block of [parseToolCall]. *)
Definition parseToolCall_try (toolCall : ToolCall) (resolvedName : string) : M ToolUse :=
  args ← (if String.eqb (call_arguments toolCall) "" then mret (VObj [])
          else match JSON_parse h (call_arguments toolCall) with
               | Some v => mret v
               | None => throw (SyntaxError (call_arguments toolCall))
               end);
  entries ← Object_entries args;
  let '(params, warnings) := strict_params resolvedName entries in
  _ ← tell warnings;
  nativeArgs ← strict_nativeArgs resolvedName args;
  if negb (truthy nativeArgs) && negb (customToolRegistry_has h resolvedName)
  then throw (InvalidArguments resolvedName args)
  else mret {| tu_name := resolvedName;
               tu_originalName :=
                 if String.eqb (call_name toolCall) resolvedName
                 then None else Some (call_name toolCall);
               tu_params := params;
               tu_partial := false;
               tu_nativeArgs := nativeArgs |}.

(** The body of the [try] block of [parseDynamicMcpTool]. *)
Definition parseDynamicMcpTool_try (toolCall : ToolCall) : M (option McpToolUse) :=
  let text := if String.eqb (call_arguments toolCall) "" then "{}"
              else call_arguments toolCall in
  args ← match JSON_parse h text with
         | Some v => mret v
         | None => throw (SyntaxError text)
         end;
  let normalizedName := normalizeMcpToolName (call_name toolCall) in
  match parseMcpToolName normalizedName with
  | None =>
      _ ← tell [error_invalid_mcp_name (call_name toolCall) normalizedName];
      mret None
  | Some (serverName, toolName) =>
      mret (Some {| mcp_id := call_id toolCall;
                    mcp_name := call_name toolCall;
                    mcp_serverName := serverName;
                    mcp_toolName := toolName;
                    mcp_arguments := args;
                    mcp_partial := false |})
  end.

(** [parseDynamicMcpTool]: what it logs and what it returns. *)
Definition parseDynamicMcpTool (toolCall : ToolCall) : list console * option McpToolUse :=
  match parseDynamicMcpTool_try toolCall with
  | (w, inr r) => (w, r)
  | (w, inl error) => (w ++ [error_failed_mcp error], None)
  end.

(** [parseToolCall]: what it logs and what it returns. *)
Definition parseToolCall (toolCall : ToolCall) : list console * option Parsed :=
  let mcpPrefix := MCP_TOOL_PREFIX +:+ MCP_TOOL_SEPARATOR in
  let normalizedName := normalizeMcpToolName (call_name toolCall) in
  if String.prefix mcpPrefix normalizedName then
    let '(w, r) := parseDynamicMcpTool
                     {| call_id := call_id toolCall;
                        call_name := normalizedName;
                        call_arguments := call_arguments toolCall |} in
    (w, mcp_tool_use <$> r)
  else
    let resolvedName := resolveToolAlias (call_name toolCall) in
    if negb (bool_decide (is_Some (toolName_of_string resolvedName)))
       && negb (customToolRegistry_has h resolvedName)
    then ([error_invalid_tool_name (call_name toolCall) resolvedName;
           error_valid_tool_names], None)
    else
      match parseToolCall_try toolCall resolvedName with
      | (w, inr result) => (w, Some (tool_use result))
      | (w, inl error) => (w ++ [error_failed_to_parse error; error_tool_call toolCall], None)
      end.

(** *** Raw chunk tracking *)

(** The part of [processRawChunk] after the entry is known to exist:
    the events and the entry as it is left. *)
Definition processTracked (chunk : RawChunk) (tracked : Tracked)
    : list ToolCallStreamEvent * Tracked :=
  let t1 := if present (chunk_name chunk)
            then {| tr_id := tr_id tracked;
                    tr_name := default "" (chunk_name chunk);
                    hasStarted := hasStarted tracked;
                    deltaBuffer := deltaBuffer tracked |}
            else tracked in
  let '(ev1, t2) :=
    if negb (hasStarted t1) && negb (String.eqb (tr_name t1) "")
    then (tool_call_start (tr_id t1) (tr_name t1)
            :: map (tool_call_delta (tr_id t1)) (deltaBuffer t1),
          {| tr_id := tr_id t1; tr_name := tr_name t1;
             hasStarted := true; deltaBuffer := [] |})
    else ([], t1) in
  let '(ev2, t3) :=
    if present (chunk_arguments chunk)
    then if hasStarted t2
         then ([tool_call_delta (tr_id t2) (default "" (chunk_arguments chunk))], t2)
         else ([], {| tr_id := tr_id t2; tr_name := tr_name t2;
                      hasStarted := hasStarted t2;
                      deltaBuffer := deltaBuffer t2
                                     ++ [default "" (chunk_arguments chunk)] |})
    else ([], t2) in
  (ev1 ++ ev2, t3).

Definition processRawChunk (chunk : RawChunk) (st : ParserState)
    : list ToolCallStreamEvent * ParserState :=
  let tracked :=
    match tracker_get (index chunk) (rawChunkTracker st) with
    | Some t => Some t
    | None =>
        if present (chunk_id chunk)
        then Some {| tr_id := default "" (chunk_id chunk);
                     tr_name := default "" (chunk_name chunk);
                     hasStarted := false;
                     deltaBuffer := [] |}
        else None
    end in
  match tracked with
  | None => ([], st)
  | Some t =>
      let '(events, t') := processTracked chunk t in
      (events,
       {| streamingToolCalls := streamingToolCalls st;
          rawChunkTracker := tracker_set (index chunk) t' (rawChunkTracker st) |})
  end.

Definition processFinishReason (finishReason : option string) (st : ParserState)
    : list ToolCallStreamEvent * ParserState :=
  if bool_decide (finishReason = Some "tool_calls")
     && (0 <? length (rawChunkTracker st))%nat
  then (map (fun it => tool_call_end (tr_id it.2)) (rawChunkTracker st), st)
  else ([], st).

Definition finalizeRawChunks (st : ParserState) : list ToolCallStreamEvent * ParserState :=
  if (0 <? length (rawChunkTracker st))%nat
  then (map (fun it => tool_call_end (tr_id it.2))
          (filter (fun it => hasStarted it.2 = true) (rawChunkTracker st)),
        {| streamingToolCalls := streamingToolCalls st; rawChunkTracker := [] |})
  else ([], st).

Definition clearRawChunkState (st : ParserState) : ParserState :=
  {| streamingToolCalls := streamingToolCalls st; rawChunkTracker := [] |}.

(** *** The streaming call registry *)

Definition startStreamingToolCall (id name : string) (st : ParserState) : ParserState :=
  {| streamingToolCalls :=
       <[id := {| sc_id := id; sc_name := name; argumentsAccumulator := "" |}]>
         (streamingToolCalls st);
     rawChunkTracker := rawChunkTracker st |}.

Definition clearAllStreamingToolCalls (st : ParserState) : ParserState :=
  {| streamingToolCalls := ∅; rawChunkTracker := rawChunkTracker st |}.

Definition hasActiveStreamingToolCalls (st : ParserState) : bool :=
  (0 <? size (streamingToolCalls st))%nat.

Definition processStreamingChunk (id chunk : string) (st : ParserState) : Outcome ToolUse :=
  match streamingToolCalls st !! id with
  | None => {| returned := None; state := st; logged := [warn_unknown_chunk id] |}
  | Some toolCall =>
      let accumulated := argumentsAccumulator toolCall +:+ chunk in
      let st' :=
        {| streamingToolCalls :=
             <[id := {| sc_id := sc_id toolCall; sc_name := sc_name toolCall;
                        argumentsAccumulator := accumulated |}]>
               (streamingToolCalls st);
           rawChunkTracker := rawChunkTracker st |} in
      let mcpPrefix := MCP_TOOL_PREFIX +:+ MCP_TOOL_SEPARATOR in
      if String.prefix mcpPrefix (sc_name toolCall)
      then {| returned := None; state := st'; logged := [] |}
      else
        match parseJSON h accumulated with
        | None => {| returned := None; state := st'; logged := [] |}
        | Some partialArgs =>
            let resolvedName := resolveToolAlias (sc_name toolCall) in
            let originalName :=
              if String.eqb (sc_name toolCall) resolvedName
              then None else Some (sc_name toolCall) in
            match createPartialToolUse (sc_id toolCall) resolvedName
                    (if truthy partialArgs then partialArgs else VObj [])
                    true originalName with
            | (w, inr result) => {| returned := Some result; state := st'; logged := w |}
            | (w, inl _) => {| returned := None; state := st'; logged := w |}
            end
        end
  end.

Definition finalizeStreamingToolCall (id : string) (st : ParserState) : Outcome Parsed :=
  match streamingToolCalls st !! id with
  | None => {| returned := None; state := st; logged := [warn_unknown_finalize id] |}
  | Some toolCall =>
      let '(w, finalToolUse) :=
        parseToolCall {| call_id := sc_id toolCall;
                         call_name := sc_name toolCall;
                         call_arguments := argumentsAccumulator toolCall |} in
      {| returned := finalToolUse;
         state := {| streamingToolCalls := delete id (streamingToolCalls st);
                     rawChunkTracker := rawChunkTracker st |};
         logged := w |}
  end.

End Parser.

(** ** A reference host

    A concrete [Host] on which the parser runs by computation.  Its
    strict decoder accepts the JSON documents built from objects whose
    keys are not strings of digits, arrays, strings without escape
    sequences, integers of at most fifteen digits and the three
    literals, and declines every other text; on what it accepts it
    returns what [JSON.parse] returns.  Its lenient decoder is the strict
    one: it declines every incomplete document, which callers of the
    lenient decoder must expect anyway. *)

Module ReferenceHost.

(** The double quote. *)
Definition dquote : Ascii.ascii := Ascii.ascii_of_nat 34.

(** A text between double quotes. *)
Definition quoted (s : string) : string :=
  String dquote s +:+ String dquote EmptyString.

Definition is_ws (c : Ascii.ascii) : bool :=
  let n := Ascii.nat_of_ascii c in
  (n =? 32)%nat || (n =? 9)%nat || (n =? 10)%nat || (n =? 13)%nat.

Fixpoint skip_ws (s : string) : string :=
  match s with
  | String c r => if is_ws c then skip_ws r else s
  | EmptyString => EmptyString
  end.

(** The characters up to the closing quote, and the text after it. *)
Fixpoint read_string (s : string) : option (string * string) :=
  match s with
  | EmptyString => None
  | String c r =>
      if Ascii.eqb c dquote then Some (EmptyString, r)
      else if Ascii.eqb c "\"%char || (Ascii.nat_of_ascii c <? 32)%nat then None
      else match read_string r with
           | Some (a, rest) => Some (String c a, rest)
           | None => None
           end
  end.

Fixpoint read_digits (s : string) : string * string :=
  match s with
  | String c r =>
      if is_digit c then let '(d, rest) := read_digits r in (String c d, rest)
      else (EmptyString, s)
  | EmptyString => (EmptyString, EmptyString)
  end.

Definition digit_value (c : Ascii.ascii) : Z := Z.of_nat (Ascii.nat_of_ascii c) - 48.

Fixpoint digits_value (acc : Z) (s : string) : Z :=
  match s with
  | String c r => digits_value (10 * acc + digit_value c) r
  | EmptyString => acc
  end.

Definition float_of_digits (d : string) : float :=
  PrimFloat.of_uint63 (Uint63.of_Z (digits_value 0 d)).

(** An integer literal: no leading zero, no fraction, no exponent. *)
Definition read_integer (s : string) : option (float * string) :=
  let '(d, rest) := read_digits s in
  let ok_tail := match rest with
                 | String c _ => negb (Ascii.eqb c "."%char || Ascii.eqb c "e"%char
                                       || Ascii.eqb c "E"%char)
                 | EmptyString => true
                 end in
  let ok_head := match d with
                 | EmptyString => false
                 | String c EmptyString => true
                 | String c _ => negb (Ascii.eqb c "0"%char)
                 end in
  if ok_head && ok_tail && (String.length d <=? 15)%nat
  then Some (float_of_digits d, rest) else None.

(** [obj[key] = value] while an object literal is decoded: a repeated
    key keeps its place and takes the later value. *)
Fixpoint obj_set (k : string) (v : value) (fs : list (string * value)) : list (string * value) :=
  match fs with
  | [] => [(k, v)]
  | (k', v') :: r => if String.eqb k k' then (k', v) :: r else (k', v') :: obj_set k v r
  end.

Fixpoint decode_value (fuel : nat) (s : string) : option (value * string) :=
  match fuel with
  | O => None
  | S fuel =>
      match skip_ws s with
      | String "{" r =>
          match skip_ws r with
          | String "}" r' => Some (VObj [], r')
          | _ => decode_members fuel r []
          end
      | String "[" r =>
          match skip_ws r with
          | String "]" r' => Some (VArr [], r')
          | _ => decode_elements fuel r []
          end
      | String "-" r =>
          match read_integer r with
          | Some (n, rest) => Some (VNum (PrimFloat.opp n), rest)
          | None => None
          end
      | String c r as s' =>
          if Ascii.eqb c dquote then
            match read_string r with
            | Some (a, rest) => Some (VStr a, rest)
            | None => None
            end
          else if String.prefix "true" s'
          then Some (VBool true, String.substring 4 (String.length s' - 4) s')
          else if String.prefix "false" s'
          then Some (VBool false, String.substring 5 (String.length s' - 5) s')
          else if String.prefix "null" s'
          then Some (VNull, String.substring 4 (String.length s' - 4) s')
          else match read_integer s' with
               | Some (n, rest) => Some (VNum n, rest)
               | None => None
               end
      | EmptyString => None
      end
  end
with decode_elements (fuel : nat) (s : string) (acc : list value) : option (value * string) :=
  match fuel with
  | O => None
  | S fuel =>
      match decode_value fuel s with
      | Some (v, rest) =>
          match skip_ws rest with
          | String "," r => decode_elements fuel r (acc ++ [v])
          | String "]" r => Some (VArr (acc ++ [v]), r)
          | _ => None
          end
      | None => None
      end
  end
with decode_members (fuel : nat) (s : string) (acc : list (string * value)) : option (value * string) :=
  match fuel with
  | O => None
  | S fuel =>
      match skip_ws s with
      | String c r =>
          if Ascii.eqb c dquote then
            match read_string r with
            | Some (k, rest) =>
                if negb (String.eqb k "") && all_digits k then None else
                match skip_ws rest with
                | String ":" r' =>
                    match decode_value fuel r' with
                    | Some (v, rest') =>
                        match skip_ws rest' with
                        | String "," r'' => decode_members fuel r'' (obj_set k v acc)
                        | String "}" r'' => Some (VObj (obj_set k v acc), r'')
                        | _ => None
                        end
                    | None => None
                    end
                | _ => None
                end
            | None => None
            end
          else None
      | EmptyString => None
      end
  end.

(** The whole text must be one value, surrounded by white space only. *)
Definition decode (s : string) : option value :=
  match decode_value (S (String.length s)) s with
  | Some (v, rest) => if String.eqb (skip_ws rest) "" then Some v else None
  | None => None
  end.

(** The integer a double stands for, when it stands for one. *)
Definition integer_of_float (n : float) : option Z :=
  match Prim2SF n with
  | S754_zero _ => Some 0%Z
  | S754_finite sign m e =>
      let z := if (0 <=? e)%Z then Some (Z.pos m * 2 ^ e)%Z
               else if (Z.pos m mod 2 ^ (- e) =? 0)%Z then Some (Z.pos m / 2 ^ (- e))%Z
               else None in
      (fun x => if sign then (- x)%Z else x) <$> z
  | _ => None
  end.

(** [JSON.stringify] on the values the strict decoder returns. *)
Fixpoint encode (v : value) : string :=
  match v with
  | VUndefined | VNull => "null"
  | VBool true => "true"
  | VBool false => "false"
  | VNum n => match integer_of_float n with Some z => pretty z | None => "null" end
  | VStr s => quoted s
  | VArr l =>
      "[" +:+ String.concat "," (map encode l) +:+ "]"
  | VObj fs =>
      "{" +:+ String.concat ","
                (map (fun kv => quoted kv.1 +:+ ":" +:+ encode kv.2) fs) +:+ "}"
  end.

(** [Number(v)] on numbers, booleans, [null], [undefined] and strings of
    digits; anything else is given as [NaN]. *)
Definition to_number (v : value) : float :=
  match v with
  | VNum n => n
  | VBool true => 1%float
  | VBool false | VNull => 0%float
  | VStr s => if negb (String.eqb s "") && all_digits s && (String.length s <=? 15)%nat
              then float_of_digits s else nan
  | _ => nan
  end.

Definition host (custom : string -> bool) : Host :=
  {| JSON_parse := decode;
     parseJSON := decode;
     JSON_stringify := encode;
     Number_ := to_number;
     parseInt := float_of_digits;
     customToolRegistry_has := custom |}.

(** The host with no custom tool registered. *)
Definition plain : Host := host (fun _ => false).

End ReferenceHost.

(** ** Vocabulary of the properties *)

(** What the properties below ask of a host: [JSON.parse] rejects the
    empty text.  Nothing is asked of the lenient decoder of
    [partial-json]: where a property compares the two decoders, it says
    on which text they return the same value. *)
Record HostLaws (h : Host) : Prop := {
  parse_empty : JSON_parse h "" = None;
}.

(** The required-field contract of each tool, on the fields of the
    argument object itself: the non-optional fields of its entry in
    [NativeToolArgs] (shared/tools.ts) and, for the Roopik tools, the
    [required] array of its schema (native-tools/roopik.ts).
    [custom_tool] has no entry: [None].  The parameter types of
    [browser_action] and [generate_image] are imported from a package
    outside the sources; their required fields are taken to be [action],
    and [prompt] and [path]. *)
Definition NativeToolArgs_required (t : ToolName) : option (list string) :=
  match t with
  | access_mcp_resource => Some ["server_name"; "uri"]
  | read_file => Some ["files"]
  | read_command_output => Some ["artifact_id"]
  | attempt_completion => Some ["result"]
  | execute_command => Some ["command"]
  | apply_diff => Some ["path"; "diff"]
  | search_and_replace => Some ["path"; "operations"]
  | search_replace => Some ["file_path"; "old_string"; "new_string"]
  | edit_file => Some ["file_path"; "old_string"; "new_string"]
  | apply_patch => Some ["patch"]
  | list_files => Some ["path"]
  | new_task => Some ["mode"; "message"]
  | ask_followup_question => Some ["question"; "follow_up"]
  | browser_action => Some ["action"]
  | codebase_search => Some ["query"]
  | fetch_instructions => Some ["task"]
  | generate_image => Some ["prompt"; "path"]
  | run_slash_command => Some ["command"]
  | search_files => Some ["path"; "regex"]
  | switch_mode => Some ["mode_slug"; "reason"]
  | update_todo_list => Some ["todos"]
  | use_mcp_tool => Some ["server_name"; "tool_name"]
  | write_to_file => Some ["path"; "content"]
  | custom_tool => None
  | browser_open => Some []
  | browser_close => Some []
  | browser_action_input => Some ["action"]
  | browser_navigate => Some ["url"]
  | browser_reload => Some []
  | browser_screenshot => Some []
  | browser_execute_script => Some ["script"]
  | browser_inspect_element => Some ["selector"]
  | browser_get_errors => Some []
  | browser_get_console_logs => Some []
  | browser_get_performance => Some []
  | browser_get_state => Some []
  | browser_set_viewport => Some []
  | browser_get_network_requests => Some []
  | project_get_active => Some []
  | project_start => Some ["projectPath"]
  | project_stop => Some []
  | canvas_list => Some []
  | canvas_get_active => Some []
  | canvas_create => Some ["name"]
  | canvas_open => Some []
  | component_add => Some ["folderPath"]
  | component_add_batch => Some ["components"]
  | component_remove => Some ["componentId"]
  | component_get_info => Some ["componentId"]
  | component_list => Some ["canvasId"]
  | component_rebuild => Some ["componentId"]
  | canvas_validate_components => Some []
  end.

Definition requiredFields (t : ToolName) : list string :=
  default [] (NativeToolArgs_required t).

(** The value the strict pass decodes the accumulated text to, when it
    decodes it: the empty text stands for the empty object. *)
Definition strict_decode (h : Host) (text : string) : option value :=
  if String.eqb text "" then Some (VObj []) else JSON_parse h text.


(** A console entry written by [console.error]. *)
Definition is_error (c : console) : bool :=
  match c with
  | error_invalid_tool_name _ _ | error_valid_tool_names
  | error_failed_to_parse _ | error_tool_call _
  | error_invalid_mcp_name _ _ | error_failed_mcp _ => true
  | _ => false
  end.

(** A tool name that designates a dynamic external tool, as the final
    path recognises it: the name, once normalized, begins with the
    reserved prefix and separator. *)
Definition designates_mcp (name : string) : bool :=
  String.prefix (MCP_TOOL_PREFIX +:+ MCP_TOOL_SEPARATOR) (normalizeMcpToolName name).

(** [appendDelta] for each (id, fragment) in order: the value the last
    one returned, and the state left. *)
Definition appendDelta (h : Host) (acc : option ToolUse * ParserState)
    (delta : string * string) : option ToolUse * ParserState :=
  let o := processStreamingChunk h delta.1 delta.2 acc.2 in (returned o, state o).

Definition appendDeltas (h : Host) (ds : list (string * string)) (st : ParserState)
    : option ToolUse * ParserState :=
  fold_left (appendDelta h) ds (None, st).

(** The fragments addressed to [id], concatenated in order. *)
Fixpoint fragments_for (id : string) (ds : list (string * string)) : string :=
  match ds with
  | [] => ""
  | (id', fragment) :: rest =>
      if String.eqb id id' then fragment +:+ fragments_for id rest
      else fragments_for id rest
  end.

(** Modelled from the spec: the consumer of the lifecycle events is not
    among the sources.  Section 2: a start event begins the call in the
    registry, each delta is fed to it, and the end event finalizes the
    call. *)
Definition replay_event (h : Host) (e : ToolCallStreamEvent) (st : ParserState) : ParserState :=
  match e with
  | tool_call_start id name => startStreamingToolCall id name st
  | tool_call_delta id delta => state (processStreamingChunk h id delta st)
  | tool_call_end id => state (finalizeStreamingToolCall h id st)
  end.

Definition replay (h : Host) (events : list ToolCallStreamEvent) (st : ParserState) : ParserState :=
  fold_left (fun s e => replay_event h e s) events st.

(** Raw chunks through the tracker, the events of each chunk replayed
    into the registry as they are emitted. *)
Definition feedRawChunks (h : Host) (chunks : list RawChunk) (st : ParserState) : ParserState :=
  fold_left (fun s c => let '(events, s') := processRawChunk c s in replay h events s')
            chunks st.



(** The public entry points of the class, and the state each leaves. *)
Inductive Call :=
  | call_processRawChunk (chunk : RawChunk)
  | call_processFinishReason (finishReason : option string)
  | call_finalizeRawChunks
  | call_clearRawChunkState
  | call_startStreamingToolCall (id name : string)
  | call_clearAllStreamingToolCalls
  | call_hasActiveStreamingToolCalls
  | call_processStreamingChunk (id chunk : string)
  | call_finalizeStreamingToolCall (id : string)
  | call_parseToolCall (toolCall : ToolCall)
  | call_parseDynamicMcpTool (toolCall : ToolCall).

Definition after (h : Host) (c : Call) (st : ParserState) : ParserState :=
  match c with
  | call_processRawChunk chunk => (processRawChunk chunk st).2
  | call_processFinishReason r => (processFinishReason r st).2
  | call_finalizeRawChunks => (finalizeRawChunks st).2
  | call_clearRawChunkState => clearRawChunkState st
  | call_startStreamingToolCall id name => startStreamingToolCall id name st
  | call_clearAllStreamingToolCalls => clearAllStreamingToolCalls st
  | call_hasActiveStreamingToolCalls => st
  | call_processStreamingChunk id chunk => state (processStreamingChunk h id chunk st)
  | call_finalizeStreamingToolCall id => state (finalizeStreamingToolCall h id st)
  | call_parseToolCall _ => st
  | call_parseDynamicMcpTool _ => st
  end.

(** The stream indices the tracker holds. *)
Definition tracked_indices (st : ParserState) : list Z := (rawChunkTracker st).*1.

(** The state of a new request. *)
Definition fresh : ParserState := {| streamingToolCalls := ∅; rawChunkTracker := [] |}.

(** The entry points that empty the raw chunk tracker. *)
Definition removes_tracking (c : Call) : bool :=
  match c with
  | call_finalizeRawChunks | call_clearRawChunkState => true
  | _ => false
  end.


(** The failures of a finalize that end one call (section 7 of the
    specification): the strict decoder rejects the accumulated text, a
    required argument of a static tool is missing, the name resolves to
    no tool at all, or the dynamic name is malformed. *)
Inductive terminal_failure (h : Host) (call : StreamingCall) : Prop :=
  | strict_parse_failure :
      designates_mcp (sc_name call) = false →
      strict_decode h (argumentsAccumulator call) = None →
      terminal_failure h call
  | dynamic_parse_failure :
      designates_mcp (sc_name call) = true →
      JSON_parse h (if String.eqb (argumentsAccumulator call) "" then "{}"
                    else argumentsAccumulator call) = None →
      terminal_failure h call
  | missing_required_argument t r args :
      toolName_of_string (resolveToolAlias (sc_name call)) = Some t →
      customToolRegistry_has h (resolveToolAlias (sc_name call)) = false →
      strict_decode h (argumentsAccumulator call) = Some args →
      r ∈ requiredFields t →
      args.[r] = VUndefined →
      terminal_failure h call
  | unknown_tool_name :
      designates_mcp (sc_name call) = false →
      toolName_of_string (resolveToolAlias (sc_name call)) = None →
      customToolRegistry_has h (resolveToolAlias (sc_name call)) = false →
      terminal_failure h call
  | malformed_dynamic_name :
      designates_mcp (sc_name call) = true →
      parseMcpToolName (normalizeMcpToolName (sc_name call)) = None →
      terminal_failure h call.

(** A registry holding the calls [c1], with the text accumulated so
    far, and [c2], just begun: the state the examples start from. *)
Definition two_calls (name1 text1 name2 : string) : ParserState :=
  {| streamingToolCalls :=
       <["c1" := {| sc_id := "c1"; sc_name := name1; argumentsAccumulator := text1 |}]>
         (<["c2" := {| sc_id := "c2"; sc_name := name2; argumentsAccumulator := "" |}]> ∅);
     rawChunkTracker := [] |}.

(** The id an event carries. *)
Definition event_id (e : ToolCallStreamEvent) : string :=
  match e with
  | tool_call_start id _ | tool_call_delta id _ | tool_call_end id => id
  end.

(** Fragments joined in order. *)
Definition joined (fragments : list string) : string :=
  foldr String.append "" fragments.



(** The fragment of a chunk, as the list of fragments it contributes:
    none when [arguments] is absent or empty. *)
Definition args_list (chunk : RawChunk) : list string :=
  if present (chunk_arguments chunk) then [default "" (chunk_arguments chunk)] else [].

(** Four raw chunks of two interleaved calls; the call of index 0 gets
    its name only with its second chunk. *)
Definition interleaved_chunks : list RawChunk :=
  [ {| index := 0; chunk_id := Some "a"; chunk_name := None;
       chunk_arguments := Some "{" |};
    {| index := 1; chunk_id := Some "b"; chunk_name := Some "list_files";
       chunk_arguments := Some "[" |};
    {| index := 0; chunk_id := None; chunk_name := Some "canvas_list";
       chunk_arguments := Some "}" |};
    {| index := 1; chunk_id := None; chunk_name := None;
       chunk_arguments := Some "]" |} ].

(** A sequence of calls of the entry points. *)
Definition run (h : Host) (calls : list Call) (st : ParserState) : ParserState :=
  fold_left (λ s c, after h c s) calls st.

(** The tracker after one chunk that bears an id and no name. *)
Definition one_unnamed_chunk : ParserState :=
  (processRawChunk {| index := 0; chunk_id := Some "call_1"; chunk_name := None;
                      chunk_arguments := Some "{" |} fresh).2.

(** The tracker after one chunk that bears an id and a name. *)
Definition one_named_chunk : ParserState :=
  (processRawChunk {| index := 0; chunk_id := Some "call_1";
                      chunk_name := Some "list_files"; chunk_arguments := None |}
     fresh).2.

(** The events of a sequence of raw chunks, in the order of emission,
    and the state the sequence leaves. *)
Fixpoint processRawChunks (chunks : list RawChunk) (st : ParserState)
    : list ToolCallStreamEvent * ParserState :=
  match chunks with
  | [] => ([], st)
  | chunk :: rest =>
      let '(events, st') := processRawChunk chunk st in
      let '(later, st'') := processRawChunks rest st' in
      (events ++ later, st'')
  end.

(** The ids of the start events among [events], in order. *)
Definition started_ids (events : list ToolCallStreamEvent) : list string :=
  omap (λ e, match e with tool_call_start id _ => Some id | _ => None end) events.

(** The ids of the end events among [events], in order. *)
Definition ended_ids (events : list ToolCallStreamEvent) : list string :=
  omap (λ e, match e with tool_call_end id => Some id | _ => None end) events.

(** The ids of the tracker entries that have started, in tracking
    order. *)
Definition started_entries (tracker : list (Z * Tracked)) : list string :=
  map (λ it, tr_id it.2) (filter (λ it, hasStarted it.2 = true) tracker).
(** The entry points that work on the raw chunk tracker. *)
Definition on_raw_chunks (c : Call) : bool :=
  match c with
  | call_processRawChunk _ | call_processFinishReason _
  | call_finalizeRawChunks | call_clearRawChunkState => true
  | _ => false
  end.

(** The deltas of one call: each fragment addressed to [id]. *)
Definition deltas_of (id : string) (fragments : list string) : list (string * string) :=
  map (λ fragment, (id, fragment)) fragments.
(** [v === null || v === undefined]: the values whose properties cannot
    be read. *)
Definition nullish (v : value) : bool :=
  match v with VUndefined | VNull => true | _ => false end.

(** A converted line range: an object of exactly the two numbers
    [start] and [end]. *)
Definition is_line_range (v : value) : Prop :=
  ∃ a b, v = VObj [("start", VNum a); ("end", VNum b)].
(** A [read_file] payload that cannot be converted: its [files] is an
    array with an element that is [null] or [undefined]. *)
Definition unreadable_files (name : string) (args : value) : Prop :=
  toolName_of_string name = Some read_file
  ∧ ∃ files, args.["files"] = VArr files ∧ Exists (λ file, nullish file = true) files.
(** The two warnings [parseToolCall] writes for an argument whose name
    is not a member of [toolParamNames], unless the tool is a custom
    one. *)
Definition unknown_parameter_warnings (h : Host) (resolvedName : string)
    (entries : list (string * value)) : list console :=
  flat_map (λ kv, if negb (is_toolParamName kv.1)
                     && negb (customToolRegistry_has h resolvedName)
                  then [warn_unknown_parameter kv.1 resolvedName; warn_valid_param_names]
                  else [])
           entries.
(** A string of white space only. *)
Fixpoint all_space (s : string) : bool :=
  match s with
  | String c r => is_space c && all_space r
  | EmptyString => true
  end.
(** ** The Roopik tools *)

(** [ROOPIK_TOOL_NAMES] of core/prompts/tools/roopik/roopik-tools.ts, in
    declaration order. *)
Definition ROOPIK_TOOL_NAMES : list string :=
  [ "browser_open"; "browser_close"; "browser_action_input"; "browser_navigate";
    "browser_reload"; "browser_screenshot"; "browser_execute_script";
    "browser_inspect_element"; "browser_get_errors"; "browser_get_console_logs";
    "browser_get_performance"; "browser_get_state"; "browser_set_viewport";
    "browser_get_network_requests";
    "project_get_active"; "project_start"; "project_stop";
    "canvas_list"; "canvas_get_active"; "canvas_create"; "canvas_open";
    "canvas_validate_components";
    "component_add"; "component_add_batch"; "component_remove";
    "component_get_info"; "component_list"; "component_rebuild" ].

(** [ROOPIK_TOOL_NAMES.includes(toolName)] *)
Definition isRoopikTool (toolName : string) : bool :=
  existsb (String.eqb toolName) ROOPIK_TOOL_NAMES.

(** ** The Roopik tool handler

    [handleRoopikTool] of core/tools/roopik/RoopikToolHandler.ts and
    the [RoopikToolClient] of services/roopik it calls.  The handler
    reads the string [params] of the record the parser built, never
    [nativeArgs]. *)

(** What the runtime provides to the handler besides [JSON.parse]. *)
Record Runtime := {
  (** [parseInt(s, 10)] *)
  parseInt10 : string → float;
  (** [parseFloat(s)] *)
  parseFloat : string → float;
  (** [String(v)], the text a template literal inserts for [v]. *)
  String_ : value → string;
  (** [JSON.stringify(v, null, 2)]: a string, or [undefined]. *)
  JSON_stringify_indented : value → value;
  (** The text a template literal inserts for a caught exception. *)
  String_of_exn : exn → string;
}.

(** A block of a tool response ([Anthropic.ImageBlockParam] with a
    base64 source, [Anthropic.TextBlockParam]). *)
Inductive ContentBlock :=
  | image_block (media_type data : string)
  | text_block (text : string).

(** What is pushed as the result of a tool.  [formatResponse] is
    outside the sources: its two calls are kept as they are. *)
Inductive ToolResponse :=
  | response_text (text : value)
  | response_blocks (blocks : list ContentBlock)
  | toolError (message : value)
  | toolDenied.

(** What the handler writes with [console.error]. *)
Inductive HandlerLog :=
  | failed_to_add_component (name error : value).

(** A computation of the handler: it returns, or it makes one of the
    calls that leave the two modules and goes on with the answer.  A
    call of [vscode.commands.executeCommand] is answered by its result
    or by the message of the error it throws; [getCommands] and
    [askApproval] are answered by [None] when they throw.  [task.ask],
    the callbacks [pushToolResult] and [handleError], [recordToolError]
    and [console.error] are taken not to throw. *)
Inductive Step (A : Type) : Type :=
  | Return (a : A)
  | Vscode_executeCommand (command : string) (args : value) (k : string + value → Step A)
  | Vscode_getCommands (k : option (list string) → Step A)
  | AskApproval (message : gmap string string) (k : option bool → Step A)
  | TaskAsk (message : gmap string string) (partial : bool) (k : Step A)
  | PushToolResult (response : ToolResponse) (k : Step A)
  | RecordToolError (toolName : string) (k : Step A)
  | HandleError (action : string) (k : Step A)
  | ConsoleError (entry : HandlerLog) (k : Step A).

Arguments Return {A} _.
Arguments Vscode_executeCommand {A} _ _ _.
Arguments Vscode_getCommands {A} _.
Arguments AskApproval {A} _ _.
Arguments TaskAsk {A} _ _ _.
Arguments PushToolResult {A} _ _.
Arguments RecordToolError {A} _ _.
Arguments HandleError {A} _ _.
Arguments ConsoleError {A} _ _.

Fixpoint Step_bind {A B : Type} (f : A → Step B) (s : Step A) : Step B :=
  match s with
  | Return a => f a
  | Vscode_executeCommand command args k =>
      Vscode_executeCommand command args (λ outcome, Step_bind f (k outcome))
  | Vscode_getCommands k => Vscode_getCommands (λ commands, Step_bind f (k commands))
  | AskApproval message k => AskApproval message (λ didApprove, Step_bind f (k didApprove))
  | TaskAsk message partial k => TaskAsk message partial (Step_bind f k)
  | PushToolResult response k => PushToolResult response (Step_bind f k)
  | RecordToolError toolName k => RecordToolError toolName (Step_bind f k)
  | HandleError action k => HandleError action (Step_bind f k)
  | ConsoleError entry k => ConsoleError entry (Step_bind f k)
  end.

#[global] Instance Step_ret : MRet Step := @Return.

#[global] Instance Step_mbind : MBind Step := @Step_bind.

(** [{ success: false, error }] *)
Definition failure (error : string) : value :=
  VObj [("success", VBool false); ("error", VStr error)].

(** [a || b] on two optional strings. *)
Definition or_else (a b : option string) : option string :=
  if present a then a else b.

(** An optional string as a value. *)
Definition of_optional (o : option string) : value :=
  match o with Some s => VStr s | None => VUndefined end.

(** [typeof v === "object"] *)
Definition typeof_object (v : value) : bool :=
  match v with VNull | VArr _ | VObj _ => true | _ => false end.

(** The number [n] of a counter. *)
Definition float_of_nat (n : nat) : float :=
  PrimFloat.of_uint63 (Uint63.of_Z (Z.of_nat n)).

(** [\w] *)
Definition is_word (c : Ascii.ascii) : bool :=
  let n := Ascii.nat_of_ascii c in
  ((48 <=? n)%nat && (n <=? 57)%nat) || ((65 <=? n)%nat && (n <=? 90)%nat)
  || ((97 <=? n)%nat && (n <=? 122)%nat) || (n =? 95)%nat.

(** The longest run of word characters a text begins with, and the
    rest. *)
Fixpoint span_word (s : string) : string * string :=
  match s with
  | String c r =>
      if is_word c then let '(w, rest) := span_word r in (String c w, rest)
      else (EmptyString, s)
  | EmptyString => (EmptyString, EmptyString)
  end.

(** No line terminator: what [.] matches. *)
Fixpoint no_line_terminator (s : string) : bool :=
  match s with
  | String c r =>
      negb ((Ascii.nat_of_ascii c =? 10)%nat || (Ascii.nat_of_ascii c =? 13)%nat)
      && no_line_terminator r
  | EmptyString => true
  end.

(** [s.slice(n)] *)
Definition slice_from (n : nat) (s : string) : string :=
  String.substring n (String.length s - n) s.

(** [image.match(/^data:image\/(\w+);base64,(.+)$/)]: the two groups. *)
Definition match_data_url (image : string) : option (string * string) :=
  if String.prefix "data:image/" image then
    let '(subtype, rest) := span_word (slice_from 11 image) in
    if negb (String.eqb subtype "") && String.prefix ";base64," rest then
      let data := slice_from 8 rest in
      if negb (String.eqb data "") && no_line_terminator data
      then Some (subtype, data) else None
    else None
  else None.

Section RoopikToolHandler.

Variable h : Host.
Variable rt : Runtime.

(** *** The client *)

(** [RoopikToolClient.executeCommand], the private helper. *)
Definition executeCommand (command : string) (args : value) : Step value :=
  Vscode_executeCommand command args
    (λ outcome,
       Return match outcome with
              | inr result =>
                  if truthy result then result else failure "No result from command"
              | inl message => failure message
              end).

(** [RoopikToolClient.isAvailable] *)
Definition isAvailable : Step (option bool) :=
  Vscode_getCommands
    (λ commands, Return ((λ l, bool_decide ("roopik.executeTool" ∈ l)) <$> commands)).

Definition browserOpen (url : value) : Step value :=
  executeCommand "roopik.tools.browserOpen" (VObj [("url", url)]).

Definition screenshot : Step value :=
  executeCommand "roopik.tools.screenshot" VUndefined.

Definition browserClose : Step value :=
  executeCommand "roopik.tools.browserClose" VUndefined.

Definition browserAction (options : value) : Step value :=
  executeCommand "roopik.tools.browserAction" options.

Definition browserGetPerformance : Step value :=
  executeCommand "roopik.tools.browserGetPerformance" VUndefined.

Definition browserGetState : Step value :=
  executeCommand "roopik.tools.browserGetState" VUndefined.

Definition browserSetViewport (width height deviceScaleFactor mobile : value) : Step value :=
  executeCommand "roopik.tools.browserSetViewport"
    (VObj [("width", width); ("height", height);
           ("deviceScaleFactor", deviceScaleFactor); ("mobile", mobile)]).

Definition browserGetNetworkRequests (options : value) : Step value :=
  executeCommand "roopik.tools.browserGetNetworkRequests" options.

Definition navigate (url : value) : Step value :=
  executeCommand "roopik.tools.navigate" (VObj [("url", url)]).

Definition reload (ignoreCache : value) : Step value :=
  executeCommand "roopik.tools.reload" (VObj [("ignoreCache", ignoreCache)]).

Definition executeScript (script : value) : Step value :=
  executeCommand "roopik.tools.executeScript" (VObj [("script", script)]).

Definition inspectElement (selector includeInherited : value) : Step value :=
  executeCommand "roopik.tools.inspectElement"
    (VObj [("selector", selector); ("includeInherited", includeInherited)]).

Definition getErrors (limit : value) : Step value :=
  executeCommand "roopik.tools.getErrors" (VObj [("limit", limit)]).

Definition getConsoleLogs (limit type : value) : Step value :=
  executeCommand "roopik.tools.getConsoleLogs" (VObj [("limit", limit); ("type", type)]).

Definition getActiveProject : Step value :=
  executeCommand "roopik.tools.getActiveProject" VUndefined.

Definition startProject (projectPath port : value) : Step value :=
  executeCommand "roopik.tools.startProject"
    (VObj [("projectPath", projectPath); ("port", port)]).

Definition stopProject : Step value :=
  executeCommand "roopik.tools.stopProject" VUndefined.

Definition listCanvases (options : value) : Step value :=
  executeCommand "roopik.tools.listCanvases" options.

Definition getActiveCanvas : Step value :=
  executeCommand "roopik.tools.getActiveCanvas" VUndefined.

Definition createCanvas (name : value) : Step value :=
  executeCommand "roopik.tools.createCanvas" (VObj [("name", name)]).

Definition openCanvas (canvasId name : value) : Step value :=
  executeCommand "roopik.tools.openCanvas" (VObj [("canvasId", canvasId); ("name", name)]).

Definition addComponent (options : value) : Step value :=
  executeCommand "roopik.tools.addComponent" options.

Definition removeComponent (componentId deleteSourceCode : value) : Step value :=
  executeCommand "roopik.tools.removeComponent"
    (VObj [("componentId", componentId); ("deleteSourceCode", deleteSourceCode)]).

Definition getComponentInfo (componentId : value) : Step value :=
  executeCommand "roopik.tools.getComponentInfo" (VObj [("componentId", componentId)]).

Definition listComponents (canvasId : value) : Step value :=
  executeCommand "roopik.tools.listComponents" (VObj [("canvasId", canvasId)]).

Definition rebuildComponent (componentId : value) : Step value :=
  executeCommand "roopik.tools.rebuildComponent" (VObj [("componentId", componentId)]).

Definition validateComponents (canvasId : value) : Step value :=
  executeCommand "roopik.tools.validateComponents" (VObj [("canvasId", canvasId)]).

(** *** The handlers *)

(** [block.params.k] *)
Definition param (block : ToolUse) (k : string) : option string := tu_params block !! k.

(** [p ? parseInt(p, 10) : undefined] *)
Definition optional_int (p : option string) : value :=
  if present p then VNum (parseInt10 rt (default "" p)) else VUndefined.

(** [p ? parseFloat(p) : undefined] *)
Definition optional_float (p : option string) : value :=
  if present p then VNum (parseFloat rt (default "" p)) else VUndefined.

(** [p === "true"] *)
Definition is_true (p : option string) : bool := bool_decide (p = Some "true").

Definition handleBrowserOpen (block : ToolUse) : Step value :=
  let url := or_else (param block "url") (param block "args") in
  browserOpen (of_optional url).

Definition handleBrowserClose (block : ToolUse) : Step value := browserClose.

Definition handleBrowserActionInput (block : ToolUse) : Step value :=
  let action := param block "action" in
  if negb (present action) then Return (failure "Missing required parameter: action")
  else
    let modifiers :=
      if present (param block "modifiers")
      then match JSON_parse h (default "" (param block "modifiers")) with
           | Some v => v
           | None => VArr [of_optional (param block "modifiers")]
           end
      else VUndefined in
    browserAction
      (VObj [("action", of_optional action);
             ("coordinate", of_optional (param block "coordinate"));
             ("text", of_optional (param block "text"));
             ("key", of_optional (or_else (param block "key") (param block "args")));
             ("modifiers", modifiers);
             ("deltaX", optional_float (param block "deltaX"));
             ("deltaY", optional_float (param block "deltaY"))]).

Definition handleScreenshot (block : ToolUse) : Step value := screenshot.

Definition handleBrowserGetPerformance (block : ToolUse) : Step value := browserGetPerformance.

Definition handleBrowserGetState (block : ToolUse) : Step value := browserGetState.

Definition handleBrowserSetViewport (block : ToolUse) : Step value :=
  let width := optional_int (param block "width") in
  let height := optional_int (param block "height") in
  let deviceScaleFactor := optional_float (param block "deviceScaleFactor") in
  let mobile := is_true (param block "mobile") in
  browserSetViewport width height deviceScaleFactor (VBool mobile).

Definition handleBrowserGetNetworkRequests (block : ToolUse) : Step value :=
  let includeStaticAssets := is_true (param block "includeStaticAssets") in
  let urlFilter := param block "urlFilter" in
  let method := param block "method" in
  let statusFilter := param block "statusFilter" in
  let limit := optional_int (param block "limit") in
  browserGetNetworkRequests
    (VObj [("includeStaticAssets", VBool includeStaticAssets);
           ("urlFilter", of_optional urlFilter);
           ("method", of_optional method);
           ("statusFilter", of_optional statusFilter);
           ("limit", limit)]).

Definition handleNavigate (block : ToolUse) : Step value :=
  let url := or_else (param block "url") (param block "args") in
  if negb (present url) then Return (failure "Missing required parameter: url")
  else navigate (of_optional url).

Definition handleReload (block : ToolUse) : Step value :=
  let ignoreCache :=
    is_true (toLowerCase <$> param block "args")
    || is_true (toLowerCase <$> param block "ignoreCache") in
  reload (VBool ignoreCache).

Definition handleExecuteScript (block : ToolUse) : Step value :=
  let script := or_else (or_else (param block "script") (param block "args"))
                        (param block "content") in
  if negb (present script) then Return (failure "Missing required parameter: script")
  else executeScript (of_optional script).

Definition handleInspectElement (block : ToolUse) : Step value :=
  let selector := or_else (or_else (param block "selector") (param block "args"))
                          (param block "path") in
  if negb (present selector) then Return (failure "Missing required parameter: selector")
  else
    let includeInherited :=
      negb (bool_decide (toLowerCase <$> param block "includeInherited" = Some "false")) in
    inspectElement (of_optional selector) (VBool includeInherited).

Definition handleGetErrors (block : ToolUse) : Step value :=
  let limit := optional_int (param block "limit") in
  getErrors limit.

Definition handleGetConsoleLogs (block : ToolUse) : Step value :=
  let limit := optional_int (param block "limit") in
  let type := param block "type" in
  getConsoleLogs limit (of_optional type).

Definition handleGetActiveProject (block : ToolUse) : Step value := getActiveProject.

Definition handleStartProject (block : ToolUse) : Step value :=
  let projectPath := or_else (or_else (param block "projectPath") (param block "path"))
                             (param block "args") in
  if negb (present projectPath)
  then Return (failure "Missing required parameter: projectPath")
  else
    let port := optional_int (param block "port") in
    startProject (of_optional projectPath) port.

Definition handleStopProject (block : ToolUse) : Step value := stopProject.

Definition handleListCanvases (block : ToolUse) : Step value :=
  listCanvases
    (VObj [("nameFilter", of_optional (param block "nameFilter"));
           ("sortBy", of_optional (param block "sortBy"));
           ("sortDirection", of_optional (param block "sortDirection"))]).

Definition handleGetActiveCanvas (block : ToolUse) : Step value := getActiveCanvas.

Definition handleCreateCanvas (block : ToolUse) : Step value :=
  let name := or_else (param block "name") (param block "args") in
  if negb (present name) then Return (failure "Missing required parameter: name")
  else createCanvas (of_optional name).

Definition handleOpenCanvas (block : ToolUse) : Step value :=
  let canvasId := param block "canvasId" in
  let name := param block "name" in
  if negb (present canvasId) && negb (present name)
  then Return (failure "Missing required parameter: canvasId or name")
  else openCanvas (of_optional canvasId) (of_optional name).

Definition handleAddComponent (block : ToolUse) : Step value :=
  let folderPath := or_else (or_else (param block "folderPath") (param block "path"))
                            (param block "args") in
  if negb (present folderPath)
  then Return (failure "Missing required parameter: folderPath")
  else
    addComponent
      (VObj [("folderPath", of_optional folderPath);
             ("canvasId", of_optional (param block "canvasId"));
             ("name", of_optional (param block "name"));
             ("entryFile", of_optional (param block "entryFile"));
             ("framework", of_optional (param block "framework"))]).

(** The loop of [handleAddComponents] over the components that are
    left, with the components added so far.  Reading a property of a
    component that is [null] or [undefined] throws inside the inner
    [try]; the inner [catch] reads [component.name] to build its
    message and throws again before it has written anything, which ends
    the loop.  Nothing else in the inner [try] throws.  The pause
    between two components is left out. *)
Fixpoint addEach (components : list value) (addedComponents : list value)
    : Step (exn + list value) :=
  match components with
  | [] => Return (inr addedComponents)
  | component :: rest =>
      if nullish component then Return (inl TypeError)
      else
        result ← addComponent (pick component ["folderPath"; "canvasId"; "name";
                                               "entryFile"; "framework"]);
        if truthy result.["success"] && truthy result.["data"].["component"]
        then addEach rest (addedComponents ++ [result.["data"].["component"]])
        else ConsoleError (failed_to_add_component component.["name"] result.["error"])
               (addEach rest addedComponents)
  end.

Definition handleAddComponents (block : ToolUse) : Step value :=
  let componentsJson := or_else (param block "components") (param block "args") in
  if negb (present componentsJson)
  then Return (failure "Missing required parameter: components")
  else
    match JSON_parse h (default "" componentsJson) with
    | None =>
        Return (failure ("Invalid JSON in components: "
                         +:+ String_of_exn rt (SyntaxError (default "" componentsJson))))
    | Some (VArr components) =>
        outcome ← addEach components [];
        match outcome with
        | inr addedComponents =>
            Return (VObj [("success", VBool true);
                          ("data",
                           VObj [("count", VNum (float_of_nat (length addedComponents)));
                                 ("components", VArr addedComponents)])])
        | inl e => Return (failure ("Invalid JSON in components: " +:+ String_of_exn rt e))
        end
    | Some _ => Return (failure "components must be an array")
    end.

Definition handleRemoveComponent (block : ToolUse) : Step value :=
  let componentId := or_else (param block "componentId") (param block "args") in
  if negb (present componentId)
  then Return (failure "Missing required parameter: componentId")
  else
    let deleteSourceCode := is_true (param block "deleteSourceCode") in
    removeComponent (of_optional componentId) (VBool deleteSourceCode).

Definition handleGetComponentInfo (block : ToolUse) : Step value :=
  let componentId := or_else (param block "componentId") (param block "args") in
  if negb (present componentId)
  then Return (failure "Missing required parameter: componentId")
  else getComponentInfo (of_optional componentId).

Definition handleListComponents (block : ToolUse) : Step value :=
  let canvasId := or_else (param block "canvasId") (param block "args") in
  if negb (present canvasId) then Return (failure "Missing required parameter: canvasId")
  else listComponents (of_optional canvasId).

Definition handleRebuildComponent (block : ToolUse) : Step value :=
  let componentId := or_else (param block "componentId") (param block "args") in
  if negb (present componentId)
  then Return (failure "Missing required parameter: componentId")
  else rebuildComponent (of_optional componentId).

Definition handleValidateComponents (block : ToolUse) : Step value :=
  let canvasId := param block "canvasId" in
  validateComponents (of_optional canvasId).

(** The [switch (toolName)] of [handleRoopikTool]. *)
Definition dispatch (toolName : string) (block : ToolUse) : Step value :=
  match toolName_of_string toolName with
  | Some browser_open => handleBrowserOpen block
  | Some browser_close => handleBrowserClose block
  | Some browser_action_input => handleBrowserActionInput block
  | Some browser_navigate => handleNavigate block
  | Some browser_reload => handleReload block
  | Some browser_screenshot => handleScreenshot block
  | Some browser_execute_script => handleExecuteScript block
  | Some browser_inspect_element => handleInspectElement block
  | Some browser_get_errors => handleGetErrors block
  | Some browser_get_console_logs => handleGetConsoleLogs block
  | Some browser_get_performance => handleBrowserGetPerformance block
  | Some browser_get_state => handleBrowserGetState block
  | Some browser_set_viewport => handleBrowserSetViewport block
  | Some browser_get_network_requests => handleBrowserGetNetworkRequests block
  | Some project_get_active => handleGetActiveProject block
  | Some project_start => handleStartProject block
  | Some project_stop => handleStopProject block
  | Some canvas_list => handleListCanvases block
  | Some canvas_get_active => handleGetActiveCanvas block
  | Some canvas_create => handleCreateCanvas block
  | Some canvas_open => handleOpenCanvas block
  | Some component_add => handleAddComponent block
  | Some component_add_batch => handleAddComponents block
  | Some component_remove => handleRemoveComponent block
  | Some component_get_info => handleGetComponentInfo block
  | Some component_list => handleListComponents block
  | Some component_rebuild => handleRebuildComponent block
  | Some canvas_validate_components => handleValidateComponents block
  | _ => Return (failure ("Unknown Roopik tool: " +:+ toolName))
  end.

(** [formatToolResult]; [inl] when [image.match] is no function. *)
Definition formatToolResult (toolName : string) (result : value) : exn + ToolResponse :=
  let data := result.["data"] in
  if String.eqb toolName "browser_screenshot" && truthy data && typeof_object data
     && has_key "image" data
  then
    let image := data.["image"] in
    let viewport := data.["viewport"] in
    let description :=
      "Screenshot captured successfully."
      +:+ (if truthy viewport
           then " Viewport: " +:+ String_ rt viewport.["width"] +:+ "x"
                +:+ String_ rt viewport.["height"] +:+ " (devicePixelRatio: "
                +:+ String_ rt viewport.["devicePixelRatio"]
                +:+ "). Use coordinate format 'x,y@" +:+ String_ rt viewport.["width"]
                +:+ "x" +:+ String_ rt viewport.["height"]
                +:+ "' with browser_action_input."
           else "") in
    if truthy image then
      match image with
      | VStr s =>
          match match_data_url s with
          | Some (subtype, base64) =>
              inr (response_blocks [image_block ("image/" +:+ subtype) base64;
                                    text_block description])
          | None => inr (response_blocks [text_block description])
          end
      | _ => inl TypeError
      end
    else inr (response_blocks [text_block description])
  else inr (response_text (JSON_stringify_indented rt data)).

(** The object whose JSON text is the message of an approval or of a
    partial ask: [{ tool: toolName, ...block.params }]. *)
Definition tool_message (block : ToolUse) : gmap string string :=
  tu_params block ∪ <["tool" := tu_name block]> ∅.

Definition handleRoopikToolPartial (block : ToolUse) : Step unit :=
  TaskAsk (tool_message block) (tu_partial block) (Return tt).

Definition handleRoopikTool (block : ToolUse) : Step unit :=
  let toolName := tu_name block in
  if tu_partial block then handleRoopikToolPartial block
  else
    available ← isAvailable;
    match available with
    | None => HandleError ("executing " +:+ toolName) (Return tt)
    | Some false =>
        PushToolResult
          (toolError (VStr "Roopik IDE is not available. Make sure you're running inside Roopik IDE."))
          (Return tt)
    | Some true =>
        AskApproval (tool_message block)
          (λ didApprove,
             match didApprove with
             | None => HandleError ("executing " +:+ toolName) (Return tt)
             | Some false => PushToolResult toolDenied (Return tt)
             | Some true =>
                 result ← dispatch toolName block;
                 if truthy result.["success"] then
                   match formatToolResult toolName result with
                   | inr response => PushToolResult response (Return tt)
                   | inl _ => HandleError ("executing " +:+ toolName) (Return tt)
                   end
                 else
                   RecordToolError toolName
                     (PushToolResult
                        (toolError (if truthy result.["error"] then result.["error"]
                                    else VStr "Tool execution failed"))
                        (Return tt))
             end)
    end.

End RoopikToolHandler.

(** *** Running a computation of the handler *)

(** An answer to a call that leaves the modules. *)
Inductive Answer :=
  | commands_are (commands : option (list string))
  | approval_is (didApprove : option bool)
  | command_gives (outcome : string + value).

(** What a computation does that can be seen from outside. *)
Inductive Event :=
  | got_commands
  | asked_approval (message : gmap string string)
  | executed (command : string) (args : value)
  | asked (message : gmap string string) (partial : bool)
  | pushed (response : ToolResponse)
  | recorded_tool_error (toolName : string)
  | handled_error (action : string)
  | console_error (entry : HandlerLog).

(** The events of a computation whose calls are answered by [answers]
    in order, and its result; it stops where an answer is missing or is
    of another kind than the call. *)
Fixpoint trace {A : Type} (s : Step A) (answers : list Answer) : list Event * option A :=
  match s with
  | Return a => ([], Some a)
  | Vscode_executeCommand command args k =>
      match answers with
      | command_gives outcome :: rest =>
          let '(events, a) := trace (k outcome) rest in (executed command args :: events, a)
      | _ => ([executed command args], None)
      end
  | Vscode_getCommands k =>
      match answers with
      | commands_are commands :: rest =>
          let '(events, a) := trace (k commands) rest in (got_commands :: events, a)
      | _ => ([got_commands], None)
      end
  | AskApproval message k =>
      match answers with
      | approval_is didApprove :: rest =>
          let '(events, a) := trace (k didApprove) rest in
          (asked_approval message :: events, a)
      | _ => ([asked_approval message], None)
      end
  | TaskAsk message partial k =>
      let '(events, a) := trace k answers in (asked message partial :: events, a)
  | PushToolResult response k =>
      let '(events, a) := trace k answers in (pushed response :: events, a)
  | RecordToolError toolName k =>
      let '(events, a) := trace k answers in (recorded_tool_error toolName :: events, a)
  | HandleError action k =>
      let '(events, a) := trace k answers in (handled_error action :: events, a)
  | ConsoleError entry k =>
      let '(events, a) := trace k answers in (console_error entry :: events, a)
  end.

(** The commands executed among [events], in order. *)
Definition executed_commands (events : list Event) : list (string * value) :=
  omap (λ e, match e with executed command args => Some (command, args) | _ => None end)
       events.
(** What [RoopikToolClient.executeCommand] makes of the outcome of the
    command. *)
Definition command_result (outcome : string + value) : value :=
  match outcome with
  | inr result => if truthy result then result else failure "No result from command"
  | inl message => failure message
  end.



(** A runtime for the examples. *)
Definition plain_runtime : Runtime :=
  {| parseInt10 := ReferenceHost.float_of_digits;
     parseFloat := ReferenceHost.float_of_digits;
     String_ := ReferenceHost.encode;
     JSON_stringify_indented := λ v, VStr (ReferenceHost.encode v);
     String_of_exn := λ e, match e with
                           | SyntaxError _ => "SyntaxError"
                           | TypeError => "TypeError"
                           | InvalidArguments _ _ => "Error"
                           end |}.

(** A final record of [browser_navigate]. *)
Definition navigate_block : ToolUse :=
  {| tu_name := "browser_navigate"; tu_originalName := None;
     tu_params := <["url" := "http://x"]> ∅; tu_partial := false;
     tu_nativeArgs := VObj [("url", VStr "http://x")] |}.


(** A computation that only runs commands of the IDE and writes to the
    console. *)
Fixpoint only_commands {A : Type} (s : Step A) : Prop :=
  match s with
  | Return _ => True
  | Vscode_executeCommand _ _ k => ∀ outcome, only_commands (k outcome)
  | ConsoleError _ k => only_commands k
  | _ => False
  end.

(** The events that end a call: a result is pushed, or an error is
    handed to [handleError]. *)
Definition is_final (e : Event) : bool :=
  match e with pushed _ | handled_error _ => true | _ => false end.

(** A text of word characters only. *)
Fixpoint all_word (s : string) : bool :=
  match s with
  | String c r => is_word c && all_word r
  | EmptyString => true
  end.

(** * Properties *)

#[local] Arguments String.eqb : simpl never.

(** ** The raw chunk tracker as a map *)

Lemma tracker_get_set_eq i t l : tracker_get i (tracker_set i t l) = Some t.
Proof.
  induction l as [|[j u] r IH]; simpl.
  - by rewrite Z.eqb_refl.
  - destruct (Z.eqb i j) eqn:E; simpl; rewrite E; [done | exact IH].
Qed.

Lemma tracker_get_set_ne i j t l :
  i ≠ j → tracker_get j (tracker_set i t l) = tracker_get j l.
Proof.
  intros Hne. induction l as [|[k u] r IH]; simpl.
  - destruct (Z.eqb_spec j i); [congruence | done].
  - destruct (Z.eqb_spec i k) as [->|Hik]; simpl.
    + destruct (Z.eqb_spec j k); [congruence | done].
    + destruct (Z.eqb_spec j k); [done | exact IH].
Qed.

Lemma tracker_get_elem_of i l :
  is_Some (tracker_get i l) ↔ i ∈ l.*1.
Proof.
  induction l as [|[j u] r IH]; simpl.
  - split; [intros [? ?]; done | intros H; inversion H].
  - destruct (Z.eqb_spec i j) as [->|Hne].
    + split; [intros _; apply list_elem_of_here | eauto].
    + rewrite IH. split; [apply list_elem_of_further |].
      intros H. inversion H; subst; [done | assumption].
Qed.

Lemma tracker_set_keys i t l :
  (tracker_set i t l).*1 = if bool_decide (i ∈ l.*1) then l.*1 else l.*1 ++ [i].
Proof.
  induction l as [|[j u] r IH]; simpl; [done|].
  destruct (Z.eqb_spec i j) as [->|Hne]; rewrite !fmap_cons; simpl.
  - rewrite bool_decide_eq_true_2; [done | apply list_elem_of_here].
  - rewrite IH. destruct (bool_decide (i ∈ r.*1)) eqn:E.
    + apply bool_decide_eq_true_1 in E.
      rewrite bool_decide_eq_true_2; [done | by apply list_elem_of_further].
    + apply bool_decide_eq_false_1 in E.
      rewrite bool_decide_eq_false_2; [done |].
      intros H. inversion H; subst; done.
Qed.

(** Tracking never binds one stream index twice. *)
Lemma processRawChunk_NoDup chunk st :
  NoDup (tracked_indices st) → NoDup (tracked_indices (processRawChunk chunk st).2).
Proof.
  unfold tracked_indices, processRawChunk. intros Hnd.
  destruct (tracker_get (index chunk) (rawChunkTracker st)) as [t|] eqn:Hget.
  - destruct (processTracked chunk t) as [events t']. simpl.
    rewrite tracker_set_keys, bool_decide_eq_true_2; [done|].
    apply tracker_get_elem_of. rewrite Hget. eauto.
  - destruct (present (chunk_id chunk)); [| done].
    match goal with |- context [processTracked ?c ?t] =>
      destruct (processTracked c t) as [events t'] end.
    simpl. rewrite tracker_set_keys, bool_decide_eq_false_2.
    + apply NoDup_app. split_and!; [done | | apply NoDup_singleton].
      intros x Hx Hx'. apply list_elem_of_singleton in Hx'. subst x.
      apply tracker_get_elem_of in Hx. rewrite Hget in Hx. by destruct Hx.
    + intros Hin. apply tracker_get_elem_of in Hin. rewrite Hget in Hin.
      by destruct Hin.
Qed.

Lemma processRawChunk_keeps_index chunk st i :
  i ∈ tracked_indices st → i ∈ tracked_indices (processRawChunk chunk st).2.
Proof.
  unfold tracked_indices, processRawChunk. intros Hin.
  assert (∀ t, i ∈ (tracker_set (index chunk) t (rawChunkTracker st)).*1) as Hset.
  { intros t. rewrite tracker_set_keys. case_bool_decide; [done|].
    apply elem_of_app. by left. }
  destruct (tracker_get (index chunk) (rawChunkTracker st)) as [t|].
  - destruct (processTracked chunk t) as [events t']. apply Hset.
  - destruct (present (chunk_id chunk)); [| done].
    match goal with |- context [processTracked ?c ?t] =>
      destruct (processTracked c t) as [events t'] end.
    apply Hset.
Qed.

Lemma processFinishReason_state finishReason st :
  (processFinishReason finishReason st).2 = st.
Proof. unfold processFinishReason. by case_match. Qed.

Lemma processFinishReason_tool_calls st :
  (processFinishReason (Some "tool_calls") st).1
  = map (λ it, tool_call_end (tr_id it.2)) (rawChunkTracker st).
Proof.
  unfold processFinishReason. rewrite bool_decide_eq_true_2 by done.
  by destruct (rawChunkTracker st).
Qed.

Lemma finalizeRawChunks_events st :
  (finalizeRawChunks st).1
  = map (λ it, tool_call_end (tr_id it.2))
      (filter (λ it, hasStarted it.2 = true) (rawChunkTracker st)).
Proof. unfold finalizeRawChunks. by destruct (rawChunkTracker st). Qed.

Lemma finalizeRawChunks_state st : (finalizeRawChunks st).2 = clearRawChunkState st.
Proof.
  unfold finalizeRawChunks, clearRawChunkState.
  destruct st as [calls [|e l]]; done.
Qed.

(** C4: on the finish reason "tool_calls", [processFinishReason] emits
    one end event per tracked entry, in tracking order and whether or not
    the entry has started, so also for an entry that never started;
    [finalizeRawChunks] emits the end events of the started entries only
    and leaves the tracker empty. *)
Theorem C4_end_events (st : ParserState) :
  (processFinishReason (Some "tool_calls") st).1
    = map (λ it, tool_call_end (tr_id it.2)) (rawChunkTracker st)
  ∧ length (processFinishReason (Some "tool_calls") st).1 = length (tracked_indices st)
  ∧ (∀ i t, (i, t) ∈ rawChunkTracker st → hasStarted t = false →
       tool_call_end (tr_id t) ∈ (processFinishReason (Some "tool_calls") st).1)
  ∧ (finalizeRawChunks st).1
    = map (λ it, tool_call_end (tr_id it.2))
        (filter (λ it, hasStarted it.2 = true) (rawChunkTracker st))
  ∧ (∀ e, e ∈ (finalizeRawChunks st).1 →
       ∃ i t, (i, t) ∈ rawChunkTracker st ∧ hasStarted t = true ∧ e = tool_call_end (tr_id t))
  ∧ rawChunkTracker (finalizeRawChunks st).2 = []
  ∧ streamingToolCalls (finalizeRawChunks st).2 = streamingToolCalls st.
Proof.
  rewrite processFinishReason_tool_calls, finalizeRawChunks_events,
    finalizeRawChunks_state.
  split_and!; try done.
  - unfold tracked_indices. by rewrite !length_map.
  - intros i t Hin _. apply list_elem_of_fmap. by exists (i, t).
  - intros e He. apply list_elem_of_fmap in He as [[i t] [-> Hin]].
    apply list_elem_of_filter in Hin as [Hs Hin]. by exists i, t.
Qed.

(** An end event for a call that never started: a chunk with an id and
    no name, then the finish reason. *)
Lemma C4_witness :
  tool_call_end "call_1" ∈ (processFinishReason (Some "tool_calls") one_unnamed_chunk).1.
Proof.
  refine (proj1 (proj2 (proj2 (C4_end_events one_unnamed_chunk))) 0%Z
            {| tr_id := "call_1"; tr_name := ""; hasStarted := false;
               deltaBuffer := ["{"] |} _ _).
  - vm_compute. apply list_elem_of_here.
  - reflexivity.
Defined.

Example end_event_without_start :
  (processFinishReason (Some "tool_calls") one_unnamed_chunk).1 = [tool_call_end "call_1"]
  ∧ (finalizeRawChunks one_unnamed_chunk).1 = [].
Proof. by vm_compute. Qed.

(** ** The registry leaves the tracker alone, and conversely *)

Lemma processStreamingChunk_tracker h id chunk st :
  rawChunkTracker (state (processStreamingChunk h id chunk st)) = rawChunkTracker st.
Proof.
  unfold processStreamingChunk.
  repeat case_match; done.
Qed.

Lemma finalizeStreamingToolCall_tracker h id st :
  rawChunkTracker (state (finalizeStreamingToolCall h id st)) = rawChunkTracker st.
Proof.
  unfold finalizeStreamingToolCall.
  repeat case_match; done.
Qed.

Lemma finalizeStreamingToolCall_calls h id st :
  streamingToolCalls (state (finalizeStreamingToolCall h id st))
  = delete id (streamingToolCalls st).
Proof.
  unfold finalizeStreamingToolCall.
  destruct (streamingToolCalls st !! id) eqn:E.
  - by destruct (parseToolCall h _).
  - simpl. symmetry. by apply delete_id.
Qed.

(** Every entry point keeps the tracked indices distinct, so that the
    entries of a tracker reached from a new request are its tracked
    indices, one each. *)
Lemma after_NoDup h c st :
  NoDup (tracked_indices st) → NoDup (tracked_indices (after h c st)).
Proof.
  intros Hnd. unfold tracked_indices in *. destruct c; cbn [after]; try done.
  - by apply processRawChunk_NoDup.
  - by rewrite processFinishReason_state.
  - rewrite finalizeRawChunks_state. apply NoDup_nil_2.
  - apply NoDup_nil_2.
  - by rewrite processStreamingChunk_tracker.
  - by rewrite finalizeStreamingToolCall_tracker.
Qed.

Lemma run_NoDup h calls : NoDup (tracked_indices (run h calls fresh)).
Proof.
  unfold run. assert (NoDup (tracked_indices fresh)) as H by apply NoDup_nil_2.
  revert H. generalize fresh. induction calls as [|c calls IH]; intros st H; [done|].
  cbn [fold_left]. apply IH. by apply after_NoDup.
Qed.

(** C10: [processFinishReason] leaves the state as it is, so every
    tracked index is still tracked after it and [finalizeRawChunks],
    called next, emits the end event of every started entry a second
    time; of all entry points only [finalizeRawChunks] and
    [clearRawChunkState] remove tracking entries, and they remove all. *)
Theorem C10_finish_reason_keeps_tracking (h : Host) (st : ParserState) :
  (∀ finishReason, (processFinishReason finishReason st).2 = st)
  ∧ (∀ i t, (i, t) ∈ rawChunkTracker st → hasStarted t = true →
       tool_call_end (tr_id t) ∈ (processFinishReason (Some "tool_calls") st).1
       ∧ tool_call_end (tr_id t)
           ∈ (finalizeRawChunks (processFinishReason (Some "tool_calls") st).2).1)
  ∧ (∀ c i, removes_tracking c = false →
       i ∈ tracked_indices st → i ∈ tracked_indices (after h c st))
  ∧ tracked_indices (after h call_finalizeRawChunks st) = []
  ∧ tracked_indices (after h call_clearRawChunkState st) = [].
Proof.
  split_and!.
  - intros r. apply processFinishReason_state.
  - intros i t Hin Hs.
    rewrite processFinishReason_state, processFinishReason_tool_calls,
      finalizeRawChunks_events.
    split; apply list_elem_of_fmap; exists (i, t); split; try done.
    by apply list_elem_of_filter.
  - intros c i Hc Hin. unfold tracked_indices in *.
    destruct c; simpl in *; try done.
    + by apply processRawChunk_keeps_index.
    + by rewrite processFinishReason_state.
    + by rewrite processStreamingChunk_tracker.
    + by rewrite finalizeStreamingToolCall_tracker.
  - simpl. by rewrite finalizeRawChunks_state.
  - done.
Qed.

(** Two end events for one started call: finish reason, then drain. *)
Lemma C10_witness :
  tool_call_end "call_1" ∈ (processFinishReason (Some "tool_calls") one_named_chunk).1
  ∧ tool_call_end "call_1"
      ∈ (finalizeRawChunks (processFinishReason (Some "tool_calls") one_named_chunk).2).1.
Proof.
  refine (proj1 (proj2 (C10_finish_reason_keeps_tracking ReferenceHost.plain
                          one_named_chunk)) 0%Z
            {| tr_id := "call_1"; tr_name := "list_files"; hasStarted := true;
               deltaBuffer := [] |} _ _).
  - vm_compute. apply list_elem_of_here.
  - reflexivity.
Defined.

Example end_event_twice :
  let '(first, st') := processFinishReason (Some "tool_calls") one_named_chunk in
  let '(second, st'') := finalizeRawChunks st' in
  first = [tool_call_end "call_1"] ∧ second = [tool_call_end "call_1"]
  ∧ tracked_indices st' = [0%Z] ∧ tracked_indices st'' = [].
Proof. by vm_compute. Qed.

(** ** Unknown ids *)

Lemma processStreamingChunk_unknown h id chunk st :
  streamingToolCalls st !! id = None →
  processStreamingChunk h id chunk st
  = {| returned := None; state := st; logged := [warn_unknown_chunk id] |}.
Proof. intros E. unfold processStreamingChunk. by rewrite E. Qed.

Lemma finalizeStreamingToolCall_unknown h id st :
  streamingToolCalls st !! id = None →
  finalizeStreamingToolCall h id st
  = {| returned := None; state := st; logged := [warn_unknown_finalize id] |}.
Proof. intros E. unfold finalizeStreamingToolCall. by rewrite E. Qed.

(** C6: [finalizeStreamingToolCall] removes the entry of its id and
    nothing else, whatever it returns; [processStreamingChunk] and
    [finalizeStreamingToolCall] on an id that is not tracked, never begun
    or already finalized, write a warning, return [null] and leave the
    whole state as it is. *)
Theorem C6_finalize_deletes_unknown_id_inert
    (h : Host) (st : ParserState) (id unknown chunk : string) :
  streamingToolCalls st !! unknown = None →
  (streamingToolCalls (state (finalizeStreamingToolCall h id st))
     = delete id (streamingToolCalls st)
   ∧ rawChunkTracker (state (finalizeStreamingToolCall h id st)) = rawChunkTracker st)
  ∧ processStreamingChunk h unknown chunk st
    = {| returned := None; state := st; logged := [warn_unknown_chunk unknown] |}
  ∧ finalizeStreamingToolCall h unknown st
    = {| returned := None; state := st; logged := [warn_unknown_finalize unknown] |}
  ∧ (let st' := state (finalizeStreamingToolCall h id st) in
     processStreamingChunk h id chunk st'
     = {| returned := None; state := st'; logged := [warn_unknown_chunk id] |}
     ∧ finalizeStreamingToolCall h id st'
       = {| returned := None; state := st'; logged := [warn_unknown_finalize id] |}).
Proof.
  intros Hunknown.
  assert (streamingToolCalls (state (finalizeStreamingToolCall h id st)) !! id = None)
    as Hgone.
  { rewrite finalizeStreamingToolCall_calls. apply lookup_delete_eq. }
  split_and!.
  - apply finalizeStreamingToolCall_calls.
  - apply finalizeStreamingToolCall_tracker.
  - by apply processStreamingChunk_unknown.
  - by apply finalizeStreamingToolCall_unknown.
  - cbv zeta. split.
    + by apply processStreamingChunk_unknown.
    + by apply finalizeStreamingToolCall_unknown.
Qed.

Lemma C6_witness :
  let st := startStreamingToolCall "a" "canvas_create" fresh in
  streamingToolCalls st !! "b" = None
  ∧ finalizeStreamingToolCall ReferenceHost.plain "b" st
    = {| returned := None; state := st; logged := [warn_unknown_finalize "b"] |}.
Proof.
  split; [reflexivity |].
  apply (C6_finalize_deletes_unknown_id_inert ReferenceHost.plain
           (startStreamingToolCall "a" "canvas_create" fresh) "a" "b" "{}").
  reflexivity.
Defined.

(** ** Reading results back *)

Ltac unfold_M := unfold mbind, M_bind, mret, M_ret, throw, tell in *.

Lemma resolveToolAlias_cases name :
  resolveToolAlias name = name
  ∨ (name = "write_file" ∧ resolveToolAlias name = "write_to_file").
Proof.
  unfold resolveToolAlias, TOOL_ALIASES. cbn [find fst].
  destruct (String.eqb_spec "write_file" name) as [<-|Hne]; cbn [snd];
    [by right | by left].
Qed.



Lemma parseToolCall_try_inv h tc resolvedName w r :
  parseToolCall_try h tc resolvedName = (w, inr r) →
  tu_name r = resolvedName
  ∧ tu_originalName r
    = (if String.eqb (call_name tc) resolvedName then None else Some (call_name tc))
  ∧ tu_partial r = false
  ∧ ∃ args, strict_decode h (call_arguments tc) = Some args
      ∧ args ≠ VNull ∧ args ≠ VUndefined
      ∧ (∃ w', strict_nativeArgs h resolvedName args = (w', inr (tu_nativeArgs r)))
      ∧ (truthy (tu_nativeArgs r) = true ∨ customToolRegistry_has h resolvedName = true).
Proof.
  unfold parseToolCall_try, strict_decode. unfold_M.
  set (decoded := if String.eqb (call_arguments tc) "" then _ else _).
  assert (∃ o : option value,
             (if String.eqb (call_arguments tc) "" then Some (VObj [])
              else JSON_parse h (call_arguments tc)) = o
             ∧ decoded = match o with
                         | Some v => ([], inr v)
                         | None => ([], inl (SyntaxError (call_arguments tc)))
                         end) as (o & Ho & ->).
  { subst decoded. destruct (String.eqb (call_arguments tc) ""); [by eexists|].
    destruct (JSON_parse h (call_arguments tc)); by eexists. }
  rewrite Ho. destruct o as [args|]; [|done].
  destruct (Object_entries args) as [w1 [e|entries]] eqn:Hent; [done|].
  destruct (strict_params h resolvedName entries) as [params warnings]. simpl.
  destruct (strict_nativeArgs h resolvedName args) as [w2 [e|v]] eqn:Hnat; [done|].
  destruct (negb (truthy v) && negb (customToolRegistry_has h resolvedName)) eqn:Hchk;
    [done|].
  intros [= <- <-]. simpl. split_and!; try done.
  exists args. split_and!; eauto.
  - intros ->. done.
  - intros ->. done.
  - apply andb_false_iff in Hchk as [Hchk|Hchk]; apply negb_false_iff in Hchk; eauto.
Qed.

Lemma parseToolCall_tool_use_inv h tc r :
  (parseToolCall h tc).2 = Some (tool_use r) →
  designates_mcp (call_name tc) = false
  ∧ (is_Some (toolName_of_string (resolveToolAlias (call_name tc)))
     ∨ customToolRegistry_has h (resolveToolAlias (call_name tc)) = true)
  ∧ ∃ w, parseToolCall_try h tc (resolveToolAlias (call_name tc)) = (w, inr r).
Proof.
  unfold parseToolCall, designates_mcp.
  destruct (String.prefix _ (normalizeMcpToolName (call_name tc))).
  { destruct (parseDynamicMcpTool h _) as [w [m|]]; done. }
  destruct (negb (bool_decide _) && negb _) eqn:Hchk; [done|].
  destruct (parseToolCall_try h tc _) as [w [e|u]] eqn:Htry; [done|].
  intros [= ->]. split_and!; eauto.
  apply andb_false_iff in Hchk as [Hchk|Hchk]; apply negb_false_iff in Hchk.
  - left. by apply bool_decide_eq_true_1 in Hchk.
  - by right.
Qed.

Lemma finalizeStreamingToolCall_returned h id st call :
  streamingToolCalls st !! id = Some call →
  returned (finalizeStreamingToolCall h id st)
  = (parseToolCall h {| call_id := sc_id call; call_name := sc_name call;
                        call_arguments := argumentsAccumulator call |}).2
  ∧ logged (finalizeStreamingToolCall h id st)
    = (parseToolCall h {| call_id := sc_id call; call_name := sc_name call;
                          call_arguments := argumentsAccumulator call |}).1.
Proof.
  intros E. unfold finalizeStreamingToolCall. rewrite E.
  by destruct (parseToolCall h _).
Qed.

(** What [processStreamingChunk] returns for a tracked call: a function
    of the call's name and of the text accumulated so far. *)
Lemma processStreamingChunk_returned h id chunk st call r :
  streamingToolCalls st !! id = Some call →
  returned (processStreamingChunk h id chunk st) = Some r →
  String.prefix (MCP_TOOL_PREFIX +:+ MCP_TOOL_SEPARATOR) (sc_name call) = false
  ∧ ∃ partialArgs w,
      parseJSON h (argumentsAccumulator call +:+ chunk) = Some partialArgs
      ∧ createPartialToolUse h (sc_id call) (resolveToolAlias (sc_name call))
          (if truthy partialArgs then partialArgs else VObj []) true
          (if String.eqb (sc_name call) (resolveToolAlias (sc_name call))
           then None else Some (sc_name call))
        = (w, inr r).
Proof.
  intros E. unfold processStreamingChunk. rewrite E.
  destruct (String.prefix _ (sc_name call)); [done|].
  destruct (parseJSON h _) as [partialArgs|]; [|done].
  destruct (createPartialToolUse h _ _ _ _ _) as [w [e|u]] eqn:Hc; [done|].
  intros [= ->]. eauto.
Qed.

(** ** Aliases *)


(** ** Dynamic tool names on the partial path *)

(** For a name that begins with the canonical prefix, every delta is
    accumulated and answered with [null]. *)
Lemma processStreamingChunk_canonical_mcp h id chunk st call :
  streamingToolCalls st !! id = Some call →
  String.prefix (MCP_TOOL_PREFIX +:+ MCP_TOOL_SEPARATOR) (sc_name call) = true →
  returned (processStreamingChunk h id chunk st) = None
  ∧ logged (processStreamingChunk h id chunk st) = []
  ∧ argumentsAccumulator
      <$> streamingToolCalls (state (processStreamingChunk h id chunk st)) !! id
    = Some (argumentsAccumulator call +:+ chunk).
Proof.
  intros E Hp. unfold processStreamingChunk. rewrite E, Hp. simpl.
  by rewrite lookup_insert_eq.
Qed.

Lemma Object_entries_or_empty partialArgs :
  ∃ entries,
    Object_entries (if truthy partialArgs then partialArgs else VObj [])
    = ([], inr entries).
Proof.
  destruct partialArgs as [| |b|n|s|l|fs]; cbn [truthy]; try (by eexists).
  - destruct b; by eexists.
  - destruct (negb _ && _); by eexists.
  - destruct (negb _); by eexists.
Qed.

Lemma prefix_append s r : String.prefix s (s +:+ r) = true.
Proof.
  induction s as [|a s IH]; simpl.
  - by destruct r.
  - by destruct (Ascii.ascii_dec a a).
Qed.

Lemma normalize_alternate_separator rest :
  normalizeMcpToolName ("mcp__" +:+ rest) = "mcp--" +:+ replace_underscores rest.
Proof.
  unfold normalizeMcpToolName.
  change (MCP_TOOL_PREFIX +:+ "__") with "mcp__".
  by rewrite prefix_append.
Qed.

Lemma designates_mcp_alternate_separator rest :
  designates_mcp ("mcp__" +:+ rest) = true.
Proof.
  unfold designates_mcp. rewrite normalize_alternate_separator.
  apply (prefix_append "mcp--").
Qed.

(** For a name in the alternate separator variant the prefix test of
    the partial path fails: a partial record is returned as soon as the
    lenient decoder returns a value, although the final path takes the
    same name for a dynamic tool. *)
Lemma processStreamingChunk_alternate_separator h id chunk st call rest partialArgs :
  streamingToolCalls st !! id = Some call →
  sc_name call = "mcp__" +:+ rest →
  parseJSON h (argumentsAccumulator call +:+ chunk) = Some partialArgs →
  designates_mcp (sc_name call) = true
  ∧ ∃ r, returned (processStreamingChunk h id chunk st) = Some r
         ∧ tu_name r = sc_name call ∧ tu_partial r = true
         ∧ tu_nativeArgs r = VUndefined.
Proof.
  intros E Hname Hj. rewrite Hname.
  split; [apply designates_mcp_alternate_separator|].
  unfold processStreamingChunk. rewrite E, Hname, Hj.
  change (String.prefix (MCP_TOOL_PREFIX +:+ MCP_TOOL_SEPARATOR) ("mcp__" +:+ rest))
    with false.
  change (resolveToolAlias ("mcp__" +:+ rest)) with ("mcp__" +:+ rest).
  cbv iota. rewrite String.eqb_refl.
  unfold createPartialToolUse. unfold_M.
  destruct (Object_entries_or_empty partialArgs) as [entries ->].
  unfold partial_nativeArgs.
  change (toolName_of_string ("mcp__" +:+ rest)) with (@None ToolName).
  simpl. eauto.
Qed.

(** C5: what the parser does with a call named in the alternate
    separator variant.  The name designates a dynamic tool and
    [finalizeStreamingToolCall] returns a dynamic-tool record for it, but
    [processStreamingChunk] does not return [null]: it returns a partial
    record under the emitted name, with no typed arguments. *)
Theorem C5_alternate_separator_partial_record :
  let st := startStreamingToolCall "c1" "mcp__serverA__toolB" fresh in
  let o := processStreamingChunk ReferenceHost.plain "c1" "{}" st in
  designates_mcp "mcp__serverA__toolB" = true
  ∧ returned o
    = Some {| tu_name := "mcp__serverA__toolB"; tu_originalName := None;
              tu_params := ∅; tu_partial := true; tu_nativeArgs := VUndefined |}
  ∧ returned (finalizeStreamingToolCall ReferenceHost.plain "c1" (state o))
    = Some (mcp_tool_use {| mcp_id := "c1"; mcp_name := "mcp--serverA--toolB";
                            mcp_serverName := "serverA"; mcp_toolName := "toolB";
                            mcp_arguments := VObj []; mcp_partial := false |}).
Proof. by vm_compute. Qed.

(** The same call under its canonical name: no partial record. *)
Example canonical_name_no_partial_record :
  let st := startStreamingToolCall "c1" "mcp--serverA--toolB" fresh in
  returned (processStreamingChunk ReferenceHost.plain "c1" "{}" st) = None.
Proof. by vm_compute. Qed.

(** ** Values and projections *)

Lemma defined_true v : defined v = true ↔ v ≠ VUndefined.
Proof. by destruct v. Qed.

Lemma truthy_defined v : truthy v = true → v ≠ VUndefined.
Proof. by destruct v. Qed.

Lemma get_pick args ks k :
  (pick args ks).[k] = if bool_decide (k ∈ ks) then args.[k] else VUndefined.
Proof.
  unfold pick. cbn [get]. induction ks as [|k' ks IH]; cbn [map assoc fst snd].
  - done.
  - destruct (String.eqb_spec k k') as [->|Hne].
    + rewrite bool_decide_eq_true_2; [done | apply list_elem_of_here].
    + rewrite IH. destruct (bool_decide (k ∈ ks)) eqn:E.
      * apply bool_decide_eq_true_1 in E.
        rewrite bool_decide_eq_true_2; [done | by apply list_elem_of_further].
      * apply bool_decide_eq_false_1 in E.
        rewrite bool_decide_eq_false_2; [done|].
        intros H. apply elem_of_cons in H as [?|?]; done.
Qed.

Lemma get_pick_in args ks k : k ∈ ks → (pick args ks).[k] = args.[k].
Proof. intros H. by rewrite get_pick, bool_decide_eq_true_2. Qed.

Lemma toolName_of_string_Some s t : toolName_of_string s = Some t → s = ToolName_str t.
Proof.
  unfold toolName_of_string. intros H. apply find_some in H as [_ H].
  symmetry. by apply String.eqb_eq.
Qed.

(** Every member of [toolNames] is spelled by its string. *)
Lemma toolName_of_string_str t : toolName_of_string (ToolName_str t) = Some t.
Proof. by destruct t. Qed.

(** A name that resolves to a member of [toolNames] is not taken for a
    dynamic tool name. *)
Lemma static_not_mcp name t :
  toolName_of_string (resolveToolAlias name) = Some t → designates_mcp name = false.
Proof.
  intros H. apply toolName_of_string_Some in H.
  destruct (resolveToolAlias_cases name) as [Heq|[-> _]]; [|done].
  rewrite Heq in H. subst name. by destruct t.
Qed.

(** ** The strict pass, step by step *)

Lemma decode_step h text :
  (if String.eqb text "" then mret (VObj [])
   else match JSON_parse h text with
        | Some v => mret v
        | None => throw (SyntaxError text)
        end : M value)
  = match strict_decode h text with
    | Some v => ([], inr v)
    | None => ([], inl (SyntaxError text))
    end.
Proof.
  unfold strict_decode. destruct (String.eqb text ""); [done|].
  by destruct (JSON_parse h text).
Qed.

Lemma parseToolCall_try_syntax_error h tc resolvedName :
  strict_decode h (call_arguments tc) = None →
  parseToolCall_try h tc resolvedName = ([], inl (SyntaxError (call_arguments tc))).
Proof.
  intros H. unfold parseToolCall_try. rewrite decode_step, H. done.
Qed.

Lemma parseToolCall_try_invalid h tc resolvedName args w v :
  strict_decode h (call_arguments tc) = Some args →
  strict_nativeArgs h resolvedName args = (w, inr v) →
  truthy v = false →
  customToolRegistry_has h resolvedName = false →
  ∃ w' e, parseToolCall_try h tc resolvedName = (w', inl e).
Proof.
  intros Hd Hn Ht Hc. unfold parseToolCall_try. rewrite decode_step, Hd.
  unfold_M. destruct (Object_entries args) as [w1 [e|entries]]; [by eexists _, _|].
  destruct (strict_params h resolvedName entries) as [params warnings]. simpl.
  rewrite Hn, Ht, Hc. simpl. by eexists _, _.
Qed.

(** [parseToolCall] on a name that is not taken for a dynamic one and
    that resolves to a static or to a custom tool. *)
Lemma parseToolCall_known h tc :
  designates_mcp (call_name tc) = false →
  is_Some (toolName_of_string (resolveToolAlias (call_name tc)))
  ∨ customToolRegistry_has h (resolveToolAlias (call_name tc)) = true →
  parseToolCall h tc
  = match parseToolCall_try h tc (resolveToolAlias (call_name tc)) with
    | (w, inr result) => (w, Some (tool_use result))
    | (w, inl error) => (w ++ [error_failed_to_parse error; error_tool_call tc], None)
    end.
Proof.
  unfold designates_mcp. intros Hm Hk. unfold parseToolCall. rewrite Hm.
  destruct Hk as [Hk|Hk].
  - by rewrite bool_decide_eq_true_2.
  - rewrite Hk. by rewrite andb_false_r.
Qed.

Lemma parseToolCall_unknown h tc :
  designates_mcp (call_name tc) = false →
  toolName_of_string (resolveToolAlias (call_name tc)) = None →
  customToolRegistry_has h (resolveToolAlias (call_name tc)) = false →
  parseToolCall h tc
  = ([error_invalid_tool_name (call_name tc) (resolveToolAlias (call_name tc));
      error_valid_tool_names], None).
Proof.
  unfold designates_mcp. intros Hm Hn Hc. unfold parseToolCall.
  rewrite Hm, Hn, Hc. rewrite bool_decide_eq_false_2; [done|].
  by intros [? ?].
Qed.

(** Whenever the [try] block of [parseToolCall] throws, the call fails
    with the error logged. *)
Lemma parseToolCall_known_throws h tc w e :
  designates_mcp (call_name tc) = false →
  is_Some (toolName_of_string (resolveToolAlias (call_name tc)))
  ∨ customToolRegistry_has h (resolveToolAlias (call_name tc)) = true →
  parseToolCall_try h tc (resolveToolAlias (call_name tc)) = (w, inl e) →
  parseToolCall h tc = (w ++ [error_failed_to_parse e; error_tool_call tc], None).
Proof. intros Hm Hk Ht. by rewrite parseToolCall_known, Ht. Qed.

(** ** Required fields in the strict projection *)

Ltac elem_cases H :=
  repeat (apply elem_of_cons in H as [->|H]); try (by apply elem_of_nil in H).

Ltac in_list := apply (bool_decide_unpack _); by vm_compute.

(** A required field that is missing makes the strict projection
    produce no typed arguments. *)
Lemma strict_nativeArgs_missing h name t args r :
  toolName_of_string name = Some t →
  r ∈ requiredFields t →
  args.[r] = VUndefined →
  ∃ w, strict_nativeArgs h name args = (w, inr VUndefined).
Proof.
  intros Ht Hr Hu. unfold strict_nativeArgs. rewrite Ht.
  destruct t; cbn [requiredFields NativeToolArgs_required default] in Hr;
    elem_cases Hr; cbv iota; rewrite ?Hu; cbn [defined truthy andb isArray];
    rewrite ?andb_false_r; cbn [andb]; by eexists.
Qed.

(** Typed arguments that the strict projection produces hold every
    required field. *)
Lemma strict_nativeArgs_required h name t args w v r :
  toolName_of_string name = Some t →
  strict_nativeArgs h name args = (w, inr v) →
  truthy v = true →
  r ∈ requiredFields t →
  v.[r] ≠ VUndefined.
Proof.
  intros Ht Hs Hv Hr. unfold strict_nativeArgs in Hs. rewrite Ht in Hs.
  destruct t; cbn [requiredFields NativeToolArgs_required default] in Hr;
    elem_cases Hr; cbv iota in Hs; unfold_M;
    try (destruct (args.["files"]) eqn:Hfiles; try (by injection Hs as <- <-);
         destruct (convertFileEntries h l) as [w1 [e|fs]]; [done|];
         injection Hs as <- <-; cbn [get assoc]; by rewrite String.eqb_refl);
    injection Hs as <- <-;
    repeat match type of Hv with
           | context [if ?c then _ else _] => destruct c eqn:?; [|done]
           end;
    repeat match goal with
           | H : _ && _ = true |- _ => apply andb_prop in H as [? ?]
           end;
    first [ rewrite get_pick_in by in_list
          | cbn [get assoc]; rewrite String.eqb_refl ];
    first [ by apply defined_true | by apply truthy_defined ].
Qed.

(** A tool with an entry in [NativeToolArgs] and no required field gets
    typed arguments from the empty object. *)
Lemma strict_nativeArgs_empty h name t :
  toolName_of_string name = Some t →
  NativeToolArgs_required t = Some [] →
  ∃ v, strict_nativeArgs h name (VObj []) = ([], inr v) ∧ truthy v = true.
Proof.
  intros Ht Hr. unfold strict_nativeArgs. rewrite Ht.
  destruct t; try done; by eexists.
Qed.

(** ** Dynamic tool names on the final path *)

Lemma prefix_inv s t : String.prefix s t = true → ∃ r, t = s +:+ r.
Proof.
  revert t. induction s as [|a s IH]; intros t H.
  - by exists t.
  - destruct t as [|b t]; [done|]. simpl in H.
    destruct (Ascii.ascii_dec a b) as [->|]; [|done].
    destruct (IH _ H) as [r ->]. by exists r.
Qed.

Lemma normalizeMcpToolName_idem name :
  normalizeMcpToolName (normalizeMcpToolName name) = normalizeMcpToolName name.
Proof.
  destruct (String.prefix (MCP_TOOL_PREFIX +:+ "__") name) eqn:E.
  - apply prefix_inv in E as [rest ->].
    change (MCP_TOOL_PREFIX +:+ "__") with "mcp__".
    by rewrite normalize_alternate_separator.
  - unfold normalizeMcpToolName. by rewrite !E.
Qed.

Lemma parseToolCall_mcp h tc :
  designates_mcp (call_name tc) = true →
  parseToolCall h tc
  = let '(w, r) := parseDynamicMcpTool h
                     {| call_id := call_id tc;
                        call_name := normalizeMcpToolName (call_name tc);
                        call_arguments := call_arguments tc |} in
    (w, mcp_tool_use <$> r).
Proof. unfold designates_mcp, parseToolCall. by intros ->. Qed.

Lemma parseDynamicMcpTool_syntax_error h tc :
  JSON_parse h (if String.eqb (call_arguments tc) "" then "{}" else call_arguments tc)
  = None →
  ∃ e, parseDynamicMcpTool h tc = ([error_failed_mcp e], None).
Proof.
  intros H. unfold parseDynamicMcpTool, parseDynamicMcpTool_try. unfold_M.
  rewrite H. by eexists.
Qed.

Lemma parseDynamicMcpTool_malformed h tc :
  parseMcpToolName (normalizeMcpToolName (call_name tc)) = None →
  ∃ c, parseDynamicMcpTool h tc = ([c], None) ∧ is_error c = true.
Proof.
  intros H. unfold parseDynamicMcpTool, parseDynamicMcpTool_try. unfold_M.
  destruct (JSON_parse h _); rewrite ?H; by eexists.
Qed.

Lemma parseDynamicMcpTool_returns h tc args serverName toolName :
  JSON_parse h (if String.eqb (call_arguments tc) "" then "{}" else call_arguments tc)
  = Some args →
  parseMcpToolName (normalizeMcpToolName (call_name tc)) = Some (serverName, toolName) →
  parseDynamicMcpTool h tc
  = ([], Some {| mcp_id := call_id tc; mcp_name := call_name tc;
                 mcp_serverName := serverName; mcp_toolName := toolName;
                 mcp_arguments := args; mcp_partial := false |}).
Proof.
  intros Hj Hp. unfold parseDynamicMcpTool, parseDynamicMcpTool_try. unfold_M.
  by rewrite Hj, Hp.
Qed.

(** ** Failures of a finalize *)

Lemma terminal_failure_fails h call :
  terminal_failure h call →
  ∃ w c, parseToolCall h {| call_id := sc_id call; call_name := sc_name call;
                            call_arguments := argumentsAccumulator call |}
         = (w, None)
         ∧ c ∈ w ∧ is_error c = true.
Proof.
  pose (tc := {| call_id := sc_id call; call_name := sc_name call;
                 call_arguments := argumentsAccumulator call |}).
  assert (call_name tc = sc_name call) as Hname by done.
  assert (call_arguments tc = argumentsAccumulator call) as Hargs by done.
  fold tc. clearbody tc.
  intros [Hm Hd | Hm Hj | t r args Ht Hc Hd Hr Hu | Hm Hn Hc | Hm Hp];
    rewrite <- ?Hname, <- ?Hargs in *.
  - destruct (toolName_of_string (resolveToolAlias (call_name tc))) as [t|] eqn:Ht;
      [| destruct (customToolRegistry_has h (resolveToolAlias (call_name tc))) eqn:Hc].
    + rewrite (parseToolCall_known_throws h tc [] (SyntaxError (call_arguments tc)));
        [| done | left; by rewrite Ht
         | by apply parseToolCall_try_syntax_error].
      eexists _, _. split; [done|]. split; [apply list_elem_of_here | done].
    + rewrite (parseToolCall_known_throws h tc [] (SyntaxError (call_arguments tc)));
        [| done | by right | by apply parseToolCall_try_syntax_error].
      eexists _, _. split; [done|]. split; [apply list_elem_of_here | done].
    + rewrite parseToolCall_unknown by done.
      eexists _, _. split; [done|]. split; [apply list_elem_of_here | done].
  - rewrite parseToolCall_mcp by done.
    edestruct (parseDynamicMcpTool_syntax_error h) as [e ->]; [exact Hj|].
    eexists _, _. split; [done|]. split; [apply list_elem_of_here | done].
  - destruct (strict_nativeArgs_missing h _ _ _ _ Ht Hr Hu) as [w Hs].
    destruct (parseToolCall_try_invalid h tc _ _ _ _ Hd Hs eq_refl Hc) as (w' & e & Htry).
    rewrite (parseToolCall_known_throws h tc w' e);
      [| by eapply static_not_mcp | left; by rewrite Ht | done].
    eexists _, (error_failed_to_parse e). split; [done|]. split; [|done].
    apply elem_of_app. right. apply list_elem_of_here.
  - rewrite parseToolCall_unknown by done.
    eexists _, _. split; [done|]. split; [apply list_elem_of_here | done].
  - rewrite parseToolCall_mcp by done.
    edestruct (parseDynamicMcpTool_malformed h) as (c & -> & Hc).
    { cbn [call_name]. rewrite normalizeMcpToolName_idem. exact Hp. }
    eexists _, c. split; [done|]. split; [apply list_elem_of_here | done].
Qed.

(** C7: a finalize that meets a strict parse failure, a missing required
    argument, a name that resolves to no tool, or a malformed dynamic
    name returns [null] and logs an error; it removes the entry of its own
    call and leaves every other call, and the tracker, as they were.  For
    a name that resolves to no tool the error logged names the tool. *)
Theorem C7_terminal_failure_scoped_to_call
    (h : Host) (st : ParserState) (id : string) (call : StreamingCall) :
  streamingToolCalls st !! id = Some call →
  terminal_failure h call →
  returned (finalizeStreamingToolCall h id st) = None
  ∧ (∃ c, c ∈ logged (finalizeStreamingToolCall h id st) ∧ is_error c = true)
  ∧ (∀ other, other ≠ id →
       streamingToolCalls (state (finalizeStreamingToolCall h id st)) !! other
       = streamingToolCalls st !! other)
  ∧ rawChunkTracker (state (finalizeStreamingToolCall h id st)) = rawChunkTracker st
  ∧ (designates_mcp (sc_name call) = false →
     toolName_of_string (resolveToolAlias (sc_name call)) = None →
     customToolRegistry_has h (resolveToolAlias (sc_name call)) = false →
     error_invalid_tool_name (sc_name call) (resolveToolAlias (sc_name call))
       ∈ logged (finalizeStreamingToolCall h id st)).
Proof.
  intros Hcall Hfail.
  destruct (finalizeStreamingToolCall_returned h _ _ _ Hcall) as [Hret Hlog].
  rewrite Hret, Hlog.
  destruct (terminal_failure_fails h call Hfail) as (w & c & Hp & Hin & Herr).
  split_and!.
  - by rewrite Hp.
  - exists c. by rewrite Hp.
  - intros other Hne. rewrite finalizeStreamingToolCall_calls.
    by apply lookup_delete_ne.
  - apply finalizeStreamingToolCall_tracker.
  - intros Hm Hn Hc. rewrite parseToolCall_unknown by done. apply list_elem_of_here.
Qed.

Lemma C7_witness :
  let st := two_calls "canvas_create" "{}" "list_files" in
  returned (finalizeStreamingToolCall ReferenceHost.plain "c1" st) = None
  ∧ streamingToolCalls (state (finalizeStreamingToolCall ReferenceHost.plain "c1" st))
      !! "c2"
    = streamingToolCalls st !! "c2".
Proof.
  pose proof (C7_terminal_failure_scoped_to_call ReferenceHost.plain
                (two_calls "canvas_create" "{}" "list_files") "c1"
                {| sc_id := "c1"; sc_name := "canvas_create";
                   argumentsAccumulator := "{}" |}) as H.
  destruct H as (H1 & _ & H3 & _).
  - by vm_compute.
  - apply (missing_required_argument _ _ canvas_create "name" (VObj []));
      [reflexivity | reflexivity | reflexivity | in_list | reflexivity].
  - split; [exact H1 | apply H3; by vm_compute].
Defined.

(** The four kinds of failure at concrete calls: truncated text for a
    static tool, a name that is no tool, a dynamic name with one segment,
    and truncated text for a dynamic tool. *)
Example terminal_failures :
  let finalize name text :=
    finalizeStreamingToolCall ReferenceHost.plain "c1" (two_calls name text "list_files") in
  finalize "list_files" "{"
  = {| returned := None;
       state := startStreamingToolCall "c2" "list_files" fresh;
       logged := [error_failed_to_parse (SyntaxError "{");
                  error_tool_call {| call_id := "c1"; call_name := "list_files";
                                     call_arguments := "{" |}] |}
  ∧ returned (finalize "no_such_tool" "{}") = None
  ∧ logged (finalize "no_such_tool" "{}")
    = [error_invalid_tool_name "no_such_tool" "no_such_tool"; error_valid_tool_names]
  ∧ returned (finalize "mcp--onlyOneSegment" "{}") = None
  ∧ logged (finalize "mcp--onlyOneSegment" "{}")
    = [error_invalid_mcp_name "mcp--onlyOneSegment" "mcp--onlyOneSegment"]
  ∧ returned (finalize "mcp--serverA--toolB" "{") = None
  ∧ logged (finalize "mcp--serverA--toolB" "{") = [error_failed_mcp (SyntaxError "{")].
Proof. by vm_compute. Qed.

(** ** Required fields at finalize *)

(** C1: for a static tool that is not also a custom tool, a finalize
    whose decoded arguments lack a required field returns [null] and logs
    the error; every record a finalize returns is a tool-use record with
    [partial = false] whose typed arguments are defined and hold every
    required field of the tool; so the text "{}" for [canvas_create]
    yields [null]. *)
Theorem C1_missing_required_field_fails
    (h : Host) (st : ParserState) (id : string) (call : StreamingCall) (t : ToolName) :
  streamingToolCalls st !! id = Some call →
  toolName_of_string (resolveToolAlias (sc_name call)) = Some t →
  customToolRegistry_has h (resolveToolAlias (sc_name call)) = false →
  (∀ args r,
     strict_decode h (argumentsAccumulator call) = Some args →
     r ∈ requiredFields t → args.[r] = VUndefined →
     returned (finalizeStreamingToolCall h id st) = None
     ∧ ∃ e, error_failed_to_parse e ∈ logged (finalizeStreamingToolCall h id st))
  ∧ (∀ p, returned (finalizeStreamingToolCall h id st) = Some p →
       ∃ r, p = tool_use r ∧ tu_partial r = false ∧ tu_nativeArgs r ≠ VUndefined
            ∧ ∀ k, k ∈ requiredFields t → (tu_nativeArgs r).[k] ≠ VUndefined)
  ∧ (t = canvas_create → argumentsAccumulator call = "{}" →
     JSON_parse h "{}" = Some (VObj []) →
     returned (finalizeStreamingToolCall h id st) = None).
Proof.
  intros Hcall Ht Hc.
  destruct (finalizeStreamingToolCall_returned h _ _ _ Hcall) as [Hret Hlog].
  rewrite Hret, Hlog.
  set (tc := {| call_id := sc_id call; call_name := sc_name call;
                call_arguments := argumentsAccumulator call |}).
  assert (∀ args r,
             strict_decode h (argumentsAccumulator call) = Some args →
             r ∈ requiredFields t → args.[r] = VUndefined →
             (parseToolCall h tc).2 = None
             ∧ ∃ e, error_failed_to_parse e ∈ (parseToolCall h tc).1) as Hmissing.
  { intros args r Hd Hr Hu.
    destruct (strict_nativeArgs_missing h _ _ _ _ Ht Hr Hu) as [w Hs].
    destruct (parseToolCall_try_invalid h tc _ _ _ _ Hd Hs eq_refl Hc) as (w' & e & Htry).
    rewrite (parseToolCall_known_throws h tc w' e);
      [| by eapply static_not_mcp | left; subst tc; cbn [call_name]; by rewrite Ht | done].
    split; [done|]. exists e. apply elem_of_app. right. apply list_elem_of_here. }
  split_and!; [exact Hmissing | |].
  - intros p Hp.
    assert (designates_mcp (call_name tc) = false) as Hm by by eapply static_not_mcp.
    rewrite parseToolCall_known in Hp; [| done | left; subst tc; cbn [call_name]; by rewrite Ht].
    destruct (parseToolCall_try h tc _) as [w [e|r]] eqn:Htry; [done|].
    injection Hp as <-. exists r. split; [done|].
    apply parseToolCall_try_inv in Htry
      as (_ & _ & Hpartial & args & _ & _ & _ & [w' Hs] & [Hv|Hcustom]);
      [|subst tc; cbn [call_name] in Hcustom; congruence].
    split_and!; [done | by apply truthy_defined |].
    intros k Hk. by eapply strict_nativeArgs_required.
  - intros -> Htext Hj.
    apply (Hmissing (VObj []) "name"); [| in_list | done].
    unfold strict_decode. rewrite Htext. exact Hj.
Qed.

Lemma C1_witness :
  returned (finalizeStreamingToolCall ReferenceHost.plain "c1"
              (two_calls "canvas_create" "{}" "list_files")) = None.
Proof.
  refine (proj2 (proj2 (C1_missing_required_field_fails ReferenceHost.plain
                          (two_calls "canvas_create" "{}" "list_files") "c1"
                          {| sc_id := "c1"; sc_name := "canvas_create";
                             argumentsAccumulator := "{}" |} canvas_create _ _ _))
            _ _ _); by vm_compute.
Defined.

(** ** Empty and invalid accumulated text *)

Lemma parseToolCall_try_empty h tc resolvedName v :
  call_arguments tc = "" →
  strict_nativeArgs h resolvedName (VObj []) = ([], inr v) →
  truthy v = true →
  parseToolCall_try h tc resolvedName
  = ([], inr {| tu_name := resolvedName;
                tu_originalName := if String.eqb (call_name tc) resolvedName
                                   then None else Some (call_name tc);
                tu_params := ∅;
                tu_partial := false;
                tu_nativeArgs := v |}).
Proof.
  intros He Hs Hv. unfold parseToolCall_try. rewrite He.
  change (String.eqb "" "") with true. cbv iota.
  unfold_M. simpl. by rewrite Hs, Hv.
Qed.

(** C9: at finalize of a tracked call, the empty accumulated text is
    decoded as the empty object, not rejected, so that a static tool with
    no required field gets its record, and a dynamic tool its record with
    the arguments "{}" decodes to; a text that is not empty and that
    [JSON.parse] rejects makes finalize log an error and return [null],
    and the call is gone. *)
Theorem C9_empty_text_is_empty_object
    (h : Host) (st : ParserState) (id : string) (call : StreamingCall) :
  streamingToolCalls st !! id = Some call →
  (argumentsAccumulator call = "" →
     strict_decode h (argumentsAccumulator call) = Some (VObj [])
     ∧ (∀ t, toolName_of_string (resolveToolAlias (sc_name call)) = Some t →
          NativeToolArgs_required t = Some [] →
          ∃ r, finalizeStreamingToolCall h id st
               = {| returned := Some (tool_use r);
                    state := {| streamingToolCalls := delete id (streamingToolCalls st);
                                rawChunkTracker := rawChunkTracker st |};
                    logged := [] |}
               ∧ tu_partial r = false ∧ tu_nativeArgs r ≠ VUndefined)
     ∧ (∀ args serverName toolName,
          designates_mcp (sc_name call) = true →
          JSON_parse h "{}" = Some args →
          parseMcpToolName (normalizeMcpToolName (sc_name call))
          = Some (serverName, toolName) →
          ∃ m, returned (finalizeStreamingToolCall h id st) = Some (mcp_tool_use m)
               ∧ mcp_arguments m = args ∧ mcp_partial m = false))
  ∧ (argumentsAccumulator call ≠ "" →
     JSON_parse h (argumentsAccumulator call) = None →
     returned (finalizeStreamingToolCall h id st) = None
     ∧ (∃ c, c ∈ logged (finalizeStreamingToolCall h id st) ∧ is_error c = true)
     ∧ streamingToolCalls (state (finalizeStreamingToolCall h id st)) !! id = None).
Proof.
  intros Hcall. split.
  - intros Hempty. split_and!.
    + by rewrite Hempty.
    + intros t Ht Hreq.
      destruct (strict_nativeArgs_empty h _ _ Ht Hreq) as (v & Hs & Hv).
      unfold finalizeStreamingToolCall. rewrite Hcall.
      rewrite parseToolCall_known;
        [| by eapply static_not_mcp | left; cbn [call_name]; by rewrite Ht].
      erewrite parseToolCall_try_empty by done.
      eexists. split; [reflexivity|]. split; [done|]. by apply truthy_defined.
    + intros args serverName toolName Hm Hj Hp.
      destruct (finalizeStreamingToolCall_returned h _ _ _ Hcall) as [-> _].
      rewrite parseToolCall_mcp by done.
      erewrite parseDynamicMcpTool_returns.
      * eexists. split; [reflexivity|]. done.
      * cbn [call_arguments]. rewrite Hempty. exact Hj.
      * cbn [call_name]. rewrite normalizeMcpToolName_idem. exact Hp.
  - intros Hne Hj.
    assert (terminal_failure h call) as Hfail.
    { destruct (designates_mcp (sc_name call)) eqn:Hm.
      - apply dynamic_parse_failure; [done|].
        destruct (String.eqb_spec (argumentsAccumulator call) ""); done.
      - apply strict_parse_failure; [done|]. unfold strict_decode.
        destruct (String.eqb_spec (argumentsAccumulator call) ""); done. }
    destruct (finalizeStreamingToolCall_returned h _ _ _ Hcall) as [Hret Hlog].
    destruct (terminal_failure_fails h call Hfail) as (w & c & Hp & Hin & Herr).
    rewrite Hret, Hlog, Hp. split_and!; [done | by exists c |].
    rewrite finalizeStreamingToolCall_calls. apply lookup_delete_eq.
Qed.

Lemma C9_witness :
  ∃ r, returned (finalizeStreamingToolCall ReferenceHost.plain "c1"
                   (two_calls "browser_close" "" "list_files"))
       = Some (tool_use r)
       ∧ tu_nativeArgs r = VObj [].
Proof.
  destruct (proj1 (C9_empty_text_is_empty_object ReferenceHost.plain
                     (two_calls "browser_close" "" "list_files") "c1"
                     {| sc_id := "c1"; sc_name := "browser_close";
                        argumentsAccumulator := "" |} eq_refl) eq_refl)
    as (_ & H & _).
  destruct (H browser_close eq_refl eq_refl) as (r & Hr & _).
  exists r. rewrite Hr. split; [reflexivity|].
  revert Hr. vm_compute. by intros [= <-].
Defined.

(** Empty text at finalize: a static tool without required fields, a
    static tool with one, and a dynamic tool. *)
Example finalize_empty_text :
  let finalize name :=
    finalizeStreamingToolCall ReferenceHost.plain "c1" (two_calls name "" "list_files") in
  returned (finalize "canvas_list")
  = Some (tool_use {| tu_name := "canvas_list"; tu_originalName := None;
                      tu_params := ∅; tu_partial := false;
                      tu_nativeArgs := VObj [("nameFilter", VUndefined);
                                             ("sortBy", VUndefined);
                                             ("sortDirection", VUndefined)] |})
  ∧ returned (finalize "canvas_create") = None
  ∧ logged (finalize "canvas_create")
    = [error_failed_to_parse (InvalidArguments "canvas_create" (VObj []));
       error_tool_call {| call_id := "c1"; call_name := "canvas_create";
                          call_arguments := "" |}]
  ∧ returned (finalize "mcp--serverA--toolB")
    = Some (mcp_tool_use {| mcp_id := "c1"; mcp_name := "mcp--serverA--toolB";
                            mcp_serverName := "serverA"; mcp_toolName := "toolB";
                            mcp_arguments := VObj []; mcp_partial := false |}).
Proof. by vm_compute. Qed.

(** ** Accumulation *)

Lemma appendDeltas_snoc h ds delta st :
  appendDeltas h (ds ++ [delta]) st = appendDelta h (appendDeltas h ds st) delta.
Proof. unfold appendDeltas. by rewrite fold_left_app. Qed.

Lemma string_app_nil_r (s : string) : s +:+ "" = s.
Proof.
  induction s as [|c s IH]; [done|].
  change (String c (s +:+ "") = String c s). by rewrite IH.
Qed.

Lemma string_app_assoc (a b c : string) : (a +:+ b) +:+ c = a +:+ (b +:+ c).
Proof.
  induction a as [|x a IH]; [done|].
  change (String x ((a +:+ b) +:+ c) = String x (a +:+ (b +:+ c))). by rewrite IH.
Qed.

Lemma fragments_for_snoc id ds id' fragment :
  fragments_for id (ds ++ [(id', fragment)])
  = fragments_for id ds +:+ (if String.eqb id id' then fragment else "").
Proof.
  induction ds as [|[i f] ds IH]; cbn [fragments_for app].
  - destruct (String.eqb id id'); [|done]. by rewrite string_app_nil_r.
  - rewrite IH. destruct (String.eqb id i); [|done]. by rewrite string_app_assoc.
Qed.

(** One delta: the entry of its id gets the fragment appended, keeps its
    name, and no other entry changes. *)
Lemma processStreamingChunk_accumulates h id fragment st other :
  streamingToolCalls (state (processStreamingChunk h id fragment st)) !! other
  = (λ c, {| sc_id := sc_id c; sc_name := sc_name c;
             argumentsAccumulator :=
               argumentsAccumulator c
               +:+ (if String.eqb other id then fragment else "") |})
    <$> streamingToolCalls st !! other.
Proof.
  assert (∀ c : StreamingCall,
            {| sc_id := sc_id c; sc_name := sc_name c;
               argumentsAccumulator := argumentsAccumulator c +:+ "" |} = c) as Hid.
  { intros [? ? ?]. simpl. by rewrite string_app_nil_r. }
  unfold processStreamingChunk.
  destruct (streamingToolCalls st !! id) as [call|] eqn:E.
  - assert (streamingToolCalls
              {| streamingToolCalls :=
                   <[id := {| sc_id := sc_id call; sc_name := sc_name call;
                              argumentsAccumulator :=
                                argumentsAccumulator call +:+ fragment |}]>
                     (streamingToolCalls st);
                 rawChunkTracker := rawChunkTracker st |} !! other
            = (λ c, {| sc_id := sc_id c; sc_name := sc_name c;
                       argumentsAccumulator :=
                         argumentsAccumulator c
                         +:+ (if String.eqb other id then fragment else "") |})
              <$> streamingToolCalls st !! other) as Hst.
    { cbn [streamingToolCalls].
      destruct (String.eqb_spec other id) as [->|Hne].
      - by rewrite lookup_insert_eq, E.
      - rewrite lookup_insert_ne by done.
        destruct (streamingToolCalls st !! other) as [c|]; [|done].
        simpl. by rewrite Hid. }
    repeat case_match; exact Hst.
  - cbn [state]. destruct (String.eqb_spec other id) as [->|Hne].
    + by rewrite E.
    + destruct (streamingToolCalls st !! other) as [c|]; [|done].
      simpl. by rewrite Hid.
Qed.

Lemma appendDeltas_accumulates h ds st id :
  streamingToolCalls (appendDeltas h ds st).2 !! id
  = (λ c, {| sc_id := sc_id c; sc_name := sc_name c;
             argumentsAccumulator := argumentsAccumulator c +:+ fragments_for id ds |})
    <$> streamingToolCalls st !! id.
Proof.
  induction ds as [|[id' fragment] ds IH] using rev_ind.
  - unfold appendDeltas. cbn [fold_left snd fragments_for].
    destruct (streamingToolCalls st !! id) as [[? ? ?]|]; [|done].
    simpl. by rewrite string_app_nil_r.
  - rewrite appendDeltas_snoc. unfold appendDelta. cbn [fst snd].
    rewrite processStreamingChunk_accumulates, IH, fragments_for_snoc.
    destruct (streamingToolCalls st !! id) as [c|]; [|done].
    simpl. by rewrite string_app_assoc.
Qed.

(** ** The partial projection against the strict one *)







Lemma reference_host_laws custom : HostLaws (ReferenceHost.host custom).
Proof. split. by vm_compute. Qed.



(** ** Raw chunks through the tracker *)


Lemma processRawChunk_calls chunk st :
  streamingToolCalls (processRawChunk chunk st).2 = streamingToolCalls st.
Proof.
  unfold processRawChunk.
  destruct (tracker_get _ _) as [t|].
  - by destruct (processTracked chunk t).
  - destruct (present (chunk_id chunk)); [|done].
    by destruct (processTracked chunk _).
Qed.






Lemma processTracked_id chunk t :
  tr_id (processTracked chunk t).2 = tr_id t
  ∧ Forall (λ e, event_id e = tr_id t) (processTracked chunk t).1.
Proof.
  unfold processTracked.
  destruct (present (chunk_name chunk)), (hasStarted t) eqn:Hs; cbn [hasStarted tr_name tr_id];
    try rewrite Hs; cbn [negb andb];
    repeat match goal with
           | |- context [if ?c then _ else _] => destruct c
           end;
    cbn [fst snd tr_id app]; split; try done;
    repeat first [ apply Forall_cons; split; [done|] | apply Forall_nil_2
                 | apply Forall_app; split
                 | apply Forall_forall; intros e He;
                   apply list_elem_of_fmap in He as (f' & -> & _); done ].
Qed.


(** [processTracked] by cases: started, waiting for a name, starting. *)
Lemma processTracked_eq chunk t :
  processTracked chunk t
  = let name := if present (chunk_name chunk)
                then default "" (chunk_name chunk) else tr_name t in
    if hasStarted t then
      (map (tool_call_delta (tr_id t)) (args_list chunk),
       {| tr_id := tr_id t; tr_name := name; hasStarted := true;
          deltaBuffer := deltaBuffer t |})
    else if String.eqb name "" then
      ([], {| tr_id := tr_id t; tr_name := name; hasStarted := false;
              deltaBuffer := deltaBuffer t ++ args_list chunk |})
    else
      (tool_call_start (tr_id t) name
         :: map (tool_call_delta (tr_id t)) (deltaBuffer t ++ args_list chunk),
       {| tr_id := tr_id t; tr_name := name; hasStarted := true; deltaBuffer := [] |}).
Proof.
  unfold processTracked, args_list. destruct t as [tid tname started buffer].
  cbn [tr_id tr_name hasStarted deltaBuffer].
  destruct (present (chunk_name chunk)); cbn [tr_id tr_name hasStarted deltaBuffer];
    destruct started; cbn [negb andb];
    try (destruct (String.eqb _ ""); cbn [negb]);
    destruct (present (chunk_arguments chunk));
    cbn [tr_id tr_name hasStarted deltaBuffer map app];
    rewrite ?map_app, ?app_nil_r; reflexivity.
Qed.











(** The scenario of the specification: "a" and "b" begun, deltas for
    "a", "b", "a", "b"; and the chunks above through the tracker. *)
Example interleaved_ids :
  let st := startStreamingToolCall "b" "list_files"
              (startStreamingToolCall "a" "list_files" fresh) in
  let st' := (appendDeltas ReferenceHost.plain
                [("a", "{"); ("b", "["); ("a", "}"); ("b", "]")] st).2 in
  argumentsAccumulator <$> streamingToolCalls st' !! "a" = Some "{}"
  ∧ argumentsAccumulator <$> streamingToolCalls st' !! "b" = Some "[]"
  ∧ argumentsAccumulator
      <$> streamingToolCalls (feedRawChunks ReferenceHost.plain interleaved_chunks fresh)
          !! "b"
    = Some "[]".
Proof. by vm_compute. Qed.

(** Dynamic name parsing, the cases of the specification. *)
Example dynamic_name_parsing :
  parseMcpToolName "mcp--serverA--toolB" = Some ("serverA", "toolB")
  ∧ parseMcpToolName (normalizeMcpToolName "mcp__serverA__toolB") = Some ("serverA", "toolB")
  ∧ parseMcpToolName "mcp--onlyOneSegment" = None.
Proof. by vm_compute. Qed.

(** ** The life cycle of the raw chunk tracker *)

Lemma tracker_get_elem i t l : tracker_get i l = Some t → (i, t) ∈ l.
Proof.
  induction l as [|[j u] r IH]; simpl; [done|].
  destruct (Z.eqb_spec i j) as [->|Hne].
  - intros [= ->]. apply list_elem_of_here.
  - intros H. apply list_elem_of_further. by apply IH.
Qed.

Lemma tracker_set_elem i t l j u :
  (j, u) ∈ tracker_set i t l → (j, u) ∈ l ∨ (j = i ∧ u = t).
Proof.
  induction l as [|[k v] r IH]; simpl.
  - intros H. apply list_elem_of_singleton in H as [= -> ->]. by right.
  - destruct (Z.eqb_spec i k) as [->|Hne]; intros H;
      apply elem_of_cons in H as [[= -> ->]|H].
    + by right.
    + left. by apply list_elem_of_further.
    + left. apply list_elem_of_here.
    + destruct (IH H) as [?|?]; [left; by apply list_elem_of_further | by right].
Qed.

Lemma started_entries_cons j u l :
  started_entries ((j, u) :: l)
  = (if hasStarted u then [tr_id u] else []) ++ started_entries l.
Proof.
  unfold started_entries. rewrite filter_cons. simpl.
  destruct (hasStarted u); by case_decide.
Qed.

(** Replacing an entry by one of the same id and the same progress. *)
Lemma started_entries_set_same i t t' l :
  tracker_get i l = Some t → tr_id t' = tr_id t → hasStarted t' = hasStarted t →
  started_entries (tracker_set i t' l) = started_entries l.
Proof.
  intros Hget Hid Hs. induction l as [|[j u] r IH]; simpl in *; [done|].
  destruct (Z.eqb_spec i j) as [->|Hne].
  - injection Hget as ->. by rewrite !started_entries_cons, Hid, Hs.
  - rewrite !started_entries_cons. by rewrite IH.
Qed.

(** An entry that starts. *)
Lemma started_entries_set_start i t t' l :
  tracker_get i l = Some t → hasStarted t = false → hasStarted t' = true →
  started_entries (tracker_set i t' l) ≡ₚ tr_id t' :: started_entries l.
Proof.
  intros Hget Hs Hs'. induction l as [|[j u] r IH]; simpl in *; [done|].
  destruct (Z.eqb_spec i j) as [->|Hne].
  - injection Hget as ->. by rewrite !started_entries_cons, Hs, Hs'.
  - rewrite !started_entries_cons, IH by done.
    destruct (hasStarted u); simpl; [apply perm_swap | done].
Qed.

(** A new entry. *)
Lemma started_entries_set_new i t' l :
  tracker_get i l = None →
  started_entries (tracker_set i t' l)
  ≡ₚ (if hasStarted t' then [tr_id t'] else []) ++ started_entries l.
Proof.
  intros Hget. induction l as [|[j u] r IH]; simpl in *.
  - by rewrite started_entries_cons.
  - destruct (Z.eqb_spec i j) as [->|Hne]; [done|].
    rewrite !started_entries_cons, IH by done.
    destruct (hasStarted u), (hasStarted t'); simpl; try done. apply perm_swap.
Qed.

Lemma started_ids_deltas id fragments :
  started_ids (map (tool_call_delta id) fragments) = [].
Proof. by induction fragments. Qed.

Lemma ended_ids_deltas id fragments :
  ended_ids (map (tool_call_delta id) fragments) = [].
Proof. by induction fragments. Qed.

Lemma started_ids_app a b : started_ids (a ++ b) = started_ids a ++ started_ids b.
Proof. apply omap_app. Qed.

Lemma ended_ids_app a b : ended_ids (a ++ b) = ended_ids a ++ ended_ids b.
Proof. apply omap_app. Qed.

(** One step of [processTracked]: no end event; a start event exactly
    when the entry starts. *)
Lemma processTracked_started chunk t :
  let '(events, t') := processTracked chunk t in
  ended_ids events = []
  ∧ tr_id t' = tr_id t
  ∧ (hasStarted t = true → hasStarted t' = true ∧ started_ids events = [])
  ∧ (hasStarted t = false →
     started_ids events = if hasStarted t' then [tr_id t'] else []).
Proof.
  rewrite processTracked_eq. cbv zeta.
  destruct (hasStarted t) eqn:Hs; [| destruct (String.eqb _ "")];
    cbv beta iota; cbn [hasStarted tr_id].
  - rewrite started_ids_deltas, ended_ids_deltas. by split_and!.
  - by split_and!.
  - assert (∀ l, ended_ids (tool_call_start (tr_id t) l.1 :: map (tool_call_delta (tr_id t)) l.2)
                 = []) as He.
    { intros l. apply (ended_ids_deltas (tr_id t) l.2). }
    assert (∀ l, started_ids (tool_call_start (tr_id t) l.1 :: map (tool_call_delta (tr_id t)) l.2)
                 = [tr_id t]) as Hst.
    { intros l.
      change (tr_id t :: started_ids (map (tool_call_delta (tr_id t)) l.2) = [tr_id t]).
      by rewrite started_ids_deltas. }
    split_and!; [apply (He (_, _)) | done | done | intros _; apply (Hst (_, _))].
Qed.

Lemma processRawChunk_started chunk st :
  let '(events, st') := processRawChunk chunk st in
  ended_ids events = []
  ∧ started_entries (rawChunkTracker st')
    ≡ₚ started_ids events ++ started_entries (rawChunkTracker st).
Proof.
  unfold processRawChunk.
  destruct (tracker_get (index chunk) (rawChunkTracker st)) as [t|] eqn:Hget.
  - pose proof (processTracked_started chunk t) as H.
    destruct (processTracked chunk t) as [events t'].
    destruct H as (He & Hid & Hs1 & Hs0). split; [done|]. cbn [rawChunkTracker].
    destruct (hasStarted t) eqn:Hs.
    + destruct (Hs1 eq_refl) as [Hs' ->].
      by rewrite (started_entries_set_same _ t) by congruence.
    + rewrite (Hs0 eq_refl). destruct (hasStarted t') eqn:Hs'.
      * by rewrite (started_entries_set_start _ t) by done.
      * by rewrite (started_entries_set_same _ t) by congruence.
  - destruct (present (chunk_id chunk)); [| done].
    match goal with |- context [processTracked ?c ?t] =>
      pose proof (processTracked_started c t) as H;
      destruct (processTracked c t) as [events t'] end.
    destruct H as (He & Hid & _ & Hs0). split; [done|]. cbn [rawChunkTracker].
    rewrite started_entries_set_new by done. by rewrite (Hs0 eq_refl).
Qed.

(** X1: over any sequence of raw chunks [processRawChunk] emits no end
    event, and the started entries it leaves are the ones started
    before together with one for each start event it emitted.  So the
    end events of [finalizeRawChunks] pair off with the start events:
    from an empty tracker, every call that was started is ended exactly
    once and no other call is ended. *)
Theorem X1_start_events_paired_with_end_events (chunks : list RawChunk) (st : ParserState) :
  let '(events, st') := processRawChunks chunks st in
  ended_ids events = []
  ∧ ended_ids (finalizeRawChunks st').1
    ≡ₚ ended_ids (finalizeRawChunks st).1 ++ started_ids events
  ∧ (rawChunkTracker st = [] →
     ended_ids (finalizeRawChunks st').1 ≡ₚ started_ids events).
Proof.
  assert (∀ s, ended_ids (finalizeRawChunks s).1 = started_entries (rawChunkTracker s)) as Hfin.
  { intros s. rewrite finalizeRawChunks_events. unfold ended_ids, started_entries.
    induction (filter _ _) as [|it l IH]; [done|].
    change (tr_id it.2 :: omap (λ e, match e with tool_call_end id => Some id | _ => None end)
                            (map (λ it, tool_call_end (tr_id it.2)) l)
            = tr_id it.2 :: map (λ it, tr_id it.2) l).
    by rewrite IH. }
  assert (let '(events, st') := processRawChunks chunks st in
          ended_ids events = []
          ∧ started_entries (rawChunkTracker st')
            ≡ₚ started_entries (rawChunkTracker st) ++ started_ids events) as H.
  { revert st. induction chunks as [|chunk rest IH]; intros st; simpl.
    - by rewrite app_nil_r.
    - pose proof (processRawChunk_started chunk st) as H1.
      destruct (processRawChunk chunk st) as [events st1].
      specialize (IH st1). destruct (processRawChunks rest st1) as [later st2].
      destruct H1 as [He1 Hp1], IH as [He2 Hp2].
      rewrite ended_ids_app, started_ids_app, He1, He2. split; [done|].
      rewrite Hp2, Hp1. rewrite (assoc_L (++)).
      f_equiv. apply Permutation_app_comm. }
  destruct (processRawChunks chunks st) as [events st'].
  destruct H as [He Hp]. rewrite !Hfin. split_and!; [done | done |].
  intros Hnil. rewrite Hp, Hnil. done.
Qed.
(** A started entry after one chunk was started before, under the same
    id, or the chunk's events begin with its start event. *)
Lemma processRawChunk_started_entry chunk st i t' :
  (i, t') ∈ rawChunkTracker (processRawChunk chunk st).2 →
  hasStarted t' = true →
  (∃ j t, (j, t) ∈ rawChunkTracker st ∧ hasStarted t = true ∧ tr_id t = tr_id t')
  ∨ ∃ name rest, (processRawChunk chunk st).1 = tool_call_start (tr_id t') name :: rest.
Proof.
  unfold processRawChunk.
  assert (∀ t, (i, t') ∈ tracker_set (index chunk) (processTracked chunk t).2 (rawChunkTracker st) →
               hasStarted t' = true →
               (∃ j u, (j, u) ∈ rawChunkTracker st ∧ hasStarted u = true ∧ tr_id u = tr_id t')
               ∨ (hasStarted t = true ∧ tr_id t = tr_id t')
               ∨ ∃ name rest, (processTracked chunk t).1
                              = tool_call_start (tr_id t') name :: rest) as Hstep.
  { intros t Hin Hs. apply tracker_set_elem in Hin as [Hin|[-> ->]]; [left; eauto|].
    right. revert Hs. rewrite processTracked_eq. cbv zeta.
    destruct (hasStarted t) eqn:Ht; [| destruct (String.eqb _ "")];
      cbv beta iota; cbn [hasStarted tr_id fst snd]; intros Hs; [by left | done | right; eauto]. }
  destruct (tracker_get (index chunk) (rawChunkTracker st)) as [t|] eqn:Hget.
  - specialize (Hstep t). destruct (processTracked chunk t) as [events u]. cbn [fst snd] in *.
    cbn [rawChunkTracker]. intros Hin Hs.
    destruct (Hstep Hin Hs) as [?|[[Ht Hid]|?]]; [by left | | by right].
    left. exists (index chunk), t. split_and!; [by apply tracker_get_elem | done | done].
  - destruct (present (chunk_id chunk)).
    + match goal with |- context [processTracked ?c ?t] =>
        specialize (Hstep t); destruct (processTracked c t) as [events u] end.
      cbn [fst snd hasStarted] in *. cbn [rawChunkTracker]. intros Hin Hs.
      destruct (Hstep Hin Hs) as [?|[[Ht Hid]|?]]; [by left | done | by right].
    + cbn [fst snd]. intros Hin Hs. left. eauto.
Qed.

(** A delta event of one chunk follows the start event of the same
    chunk, or the entry had started before. *)
Lemma processRawChunk_delta chunk st before id delta later :
  (processRawChunk chunk st).1 = before ++ tool_call_delta id delta :: later →
  (∃ name, tool_call_start id name ∈ before)
  ∨ ∃ j t, (j, t) ∈ rawChunkTracker st ∧ hasStarted t = true ∧ tr_id t = id.
Proof.
  unfold processRawChunk.
  assert (∀ t, (processTracked chunk t).1 = before ++ tool_call_delta id delta :: later →
               (∃ name, tool_call_start id name ∈ before)
               ∨ (hasStarted t = true ∧ tr_id t = id)) as Hstep.
  { intros t. pose proof (processTracked_id chunk t) as [_ Hall].
    rewrite processTracked_eq in *. cbv zeta in *.
    destruct (hasStarted t) eqn:Ht; [| destruct (String.eqb _ "")];
      cbv beta iota in *; cbn [fst snd] in *; intros Heq.
    - right. split; [done|]. rewrite Heq in Hall.
      apply Forall_app in Hall as [_ Hall]. apply Forall_cons in Hall as [Hid _].
      by rewrite <- Hid.
    - by destruct before.
    - left. destruct before as [|e before]; [done|]. injection Heq as <- Heq.
      rewrite Heq in Hall. apply Forall_cons in Hall as [_ Hall].
      apply Forall_app in Hall as [_ Hall]. apply Forall_cons in Hall as [Hid _].
      cbn [event_id] in Hid. rewrite Hid. eexists. apply list_elem_of_here. }
  destruct (tracker_get (index chunk) (rawChunkTracker st)) as [t|] eqn:Hget.
  - specialize (Hstep t). destruct (processTracked chunk t) as [events u]. cbn [fst snd] in *.
    intros Heq. destruct (Hstep Heq) as [?|[Ht Hid]]; [by left|].
    right. exists (index chunk), t. split_and!; [by apply tracker_get_elem | done | done].
  - destruct (present (chunk_id chunk)).
    + match goal with |- context [processTracked ?c ?t] =>
        specialize (Hstep t); destruct (processTracked c t) as [events u] end.
      cbn [fst snd hasStarted] in *. intros Heq.
      destruct (Hstep Heq) as [?|[Ht Hid]]; [by left | done].
    + cbn [fst snd]. by destruct before.
Qed.

Lemma processRawChunks_delta chunks :
  ∀ st before id delta later,
    (processRawChunks chunks st).1 = before ++ tool_call_delta id delta :: later →
    (∃ name, tool_call_start id name ∈ before)
    ∨ ∃ j t, (j, t) ∈ rawChunkTracker st ∧ hasStarted t = true ∧ tr_id t = id.
Proof.
  induction chunks as [|chunk rest IH]; intros st before id delta later; simpl.
  - by destruct before.
  - pose proof (processRawChunk_delta chunk st) as Hone.
    pose proof (processRawChunk_started_entry chunk st) as Hent.
    destruct (processRawChunk chunk st) as [events st1]. cbn [fst snd] in *.
    specialize (IH st1). destruct (processRawChunks rest st1) as [more st2].
    cbn [fst snd] in *. intros Heq.
    assert (∀ j t, (j, t) ∈ rawChunkTracker st1 → hasStarted t = true → tr_id t = id →
                   events ⊆ before →
                   (∃ name, tool_call_start id name ∈ before)
                   ∨ ∃ j t, (j, t) ∈ rawChunkTracker st ∧ hasStarted t = true ∧ tr_id t = id)
      as Hback.
    { intros j t Hin Hs Hid Hsub.
      destruct (Hent j t Hin Hs) as [(j' & t0 & H0 & Hs0 & Hid0)|(name & tl & Hev)].
      - right. exists j', t0. split_and!; [done | done | congruence].
      - left. exists name. apply Hsub. rewrite Hev, Hid. apply list_elem_of_here. }
    apply app_eq_inv in Heq as [(k & Hev & Hk)|(k & Hb & Hk)].
    + destruct k as [|e k].
      * rewrite app_nil_r in Hev. simpl in Hk.
        destruct (IH [] id delta later) as [(name & Hin)|(j & t & Hin & Hs & Hid)]; [done| |].
        { by apply elem_of_nil in Hin. }
        apply (Hback j t Hin Hs Hid). by rewrite Hev.
      * injection Hk as <- Hk.
        destruct (Hone before id delta k) as [(name & Hin)|?]; [done | | by right].
        left. eauto.
    + destruct (IH k id delta later) as [(name & Hin)|(j & t & Hin & Hs & Hid)]; [done| |].
      * left. exists name. rewrite Hb. apply elem_of_app. by right.
      * apply (Hback j t Hin Hs Hid). rewrite Hb. intros x Hx. apply elem_of_app. by left.
Qed.

(** X2: from an empty tracker, every delta event is preceded by a start
    event of the same call id: a consumer never receives a fragment for
    a call it was not told to begin. *)
Theorem X2_delta_event_follows_start_event
    (chunks : list RawChunk) (st : ParserState)
    (before later : list ToolCallStreamEvent) (id delta : string) :
  rawChunkTracker st = [] →
  (processRawChunks chunks st).1 = before ++ tool_call_delta id delta :: later →
  ∃ name, tool_call_start id name ∈ before.
Proof.
  intros Hnil Heq.
  destruct (processRawChunks_delta _ _ _ _ _ _ Heq) as [?|(j & t & Hin & _)]; [done|].
  rewrite Hnil in Hin. by apply elem_of_nil in Hin.
Qed.

Lemma X2_witness :
  ∃ name, tool_call_start "a" name
          ∈ [tool_call_start "b" "list_files"; tool_call_delta "b" "[";
             tool_call_start "a" "canvas_list"].
Proof.
  refine (X2_delta_event_follows_start_event interleaved_chunks fresh _
            [tool_call_delta "a" "}"; tool_call_delta "b" "]"] "a" "{" _ _);
    by vm_compute.
Defined.
(** X3: chunks of a stream index that is not tracked and never bears
    an id are dropped whole: the events and the state are those of the
    sequence without them. *)
Theorem X3_chunks_without_id_are_dropped
    (chunks : list RawChunk) (st : ParserState) (i : Z) :
  tracker_get i (rawChunkTracker st) = None →
  Forall (λ c, index c = i → present (chunk_id c) = false) chunks →
  processRawChunks chunks st = processRawChunks (filter (λ c, index c ≠ i) chunks) st
  ∧ tracker_get i (rawChunkTracker (processRawChunks chunks st).2) = None.
Proof.
  revert st. induction chunks as [|chunk rest IH]; intros st Hget Hall; [done|].
  apply Forall_cons in Hall as [Hc Hall]. rewrite filter_cons.
  destruct (decide (index chunk ≠ i)) as [Hne|Heq].
  - cbn [processRawChunks].
    assert (tracker_get i (rawChunkTracker (processRawChunk chunk st).2) = None) as Hget'.
    { unfold processRawChunk.
      destruct (tracker_get (index chunk) (rawChunkTracker st)) as [t|].
      - destruct (processTracked chunk t) as [events t']. cbn [snd rawChunkTracker].
        by rewrite tracker_get_set_ne.
      - destruct (present (chunk_id chunk)); [| done].
        match goal with |- context [processTracked ?c ?t] =>
          destruct (processTracked c t) as [events t'] end.
        cbn [snd rawChunkTracker]. by rewrite tracker_get_set_ne. }
    destruct (processRawChunk chunk st) as [events st1]. cbn [snd] in Hget'.
    destruct (IH st1 Hget' Hall) as [-> Hnone].
    by destruct (processRawChunks (filter _ rest) st1).
  - apply dec_stable in Heq.
    assert (processRawChunk chunk st = ([], st)) as Hdrop.
    { unfold processRawChunk. by rewrite Heq, Hget, (Hc Heq). }
    cbn [processRawChunks]. rewrite Hdrop.
    destruct (IH st Hget Hall) as [<- Hnone].
    by destruct (processRawChunks rest st).
Qed.

Lemma X3_witness :
  processRawChunks
    [ {| index := 0; chunk_id := None; chunk_name := Some "list_files";
         chunk_arguments := Some "{" |};
      {| index := 1; chunk_id := Some "b"; chunk_name := Some "canvas_list";
         chunk_arguments := None |} ] fresh
  = ([tool_call_start "b" "canvas_list"],
     {| streamingToolCalls := ∅;
        rawChunkTracker := [(1%Z, {| tr_id := "b"; tr_name := "canvas_list";
                                     hasStarted := true; deltaBuffer := [] |})] |}).
Proof.
  refine (eq_trans (proj1 (X3_chunks_without_id_are_dropped _ fresh 0 _ _)) _).
  - reflexivity.
  - repeat constructor; vm_compute; congruence.
  - reflexivity.
Defined.

Lemma processRawChunk_entry_stable chunk st i t :
  tracker_get i (rawChunkTracker st) = Some t →
  ∃ t', tracker_get i (rawChunkTracker (processRawChunk chunk st).2) = Some t'
        ∧ tr_id t' = tr_id t ∧ (hasStarted t = true → hasStarted t' = true).
Proof.
  intros Hget. unfold processRawChunk.
  destruct (Z.eq_dec (index chunk) i) as [Heq|Hne].
  - rewrite Heq, Hget.
    pose proof (processTracked_started chunk t) as H.
    destruct (processTracked chunk t) as [events t']. cbn [snd rawChunkTracker].
    exists t'. rewrite tracker_get_set_eq. destruct H as (_ & Hid & Hs & _).
    split_and!; [done | done |]. intros Ht. by destruct (Hs Ht).
  - exists t. split_and!; [| done | done].
    destruct (tracker_get (index chunk) (rawChunkTracker st)) as [u|].
    + destruct (processTracked chunk u) as [events u']. cbn [snd rawChunkTracker].
      by rewrite tracker_get_set_ne.
    + destruct (present (chunk_id chunk)); [| done].
      match goal with |- context [processTracked ?c ?t] =>
        destruct (processTracked c t) as [events u'] end.
      cbn [snd rawChunkTracker]. by rewrite tracker_get_set_ne.
Qed.

(** X4: once a stream index is tracked its entry stays, under the id
    it was created with, whatever ids later chunks bear, and an entry
    that has started stays started; only [finalizeRawChunks] and
    [clearRawChunkState] remove it. *)
Theorem X4_tracked_entry_keeps_its_id
    (chunks : list RawChunk) (st : ParserState) (i : Z) (t : Tracked) :
  tracker_get i (rawChunkTracker st) = Some t →
  ∃ t', tracker_get i (rawChunkTracker (processRawChunks chunks st).2) = Some t'
        ∧ tr_id t' = tr_id t ∧ (hasStarted t = true → hasStarted t' = true).
Proof.
  revert st t. induction chunks as [|chunk rest IH]; intros st t Hget; [by exists t|].
  cbn [processRawChunks].
  destruct (processRawChunk_entry_stable chunk st i t Hget) as (t1 & Hget1 & Hid1 & Hs1).
  destruct (processRawChunk chunk st) as [events st1]. cbn [snd] in Hget1.
  destruct (IH st1 t1 Hget1) as (t2 & Hget2 & Hid2 & Hs2).
  destruct (processRawChunks rest st1) as [later st2]. cbn [snd] in *.
  exists t2. split_and!; [done | congruence | auto].
Qed.

Lemma X4_witness :
  ∃ t', tracker_get 0 (rawChunkTracker
                         (processRawChunks
                            [ {| index := 0; chunk_id := Some "other";
                                 chunk_name := Some "canvas_list";
                                 chunk_arguments := None |} ]
                            one_named_chunk).2) = Some t'
        ∧ tr_id t' = "call_1".
Proof.
  destruct (X4_tracked_entry_keeps_its_id
              [ {| index := 0; chunk_id := Some "other"; chunk_name := Some "canvas_list";
                   chunk_arguments := None |} ]
              one_named_chunk 0
              {| tr_id := "call_1"; tr_name := "list_files"; hasStarted := true;
                 deltaBuffer := [] |} eq_refl) as (t' & Hget & Hid & _).
  exists t'. split; assumption.
Defined.
(** ** The call registry *)

Lemma fragments_for_deltas_of id fragments :
  fragments_for id (deltas_of id fragments) = joined fragments.
Proof.
  induction fragments as [|f l IH]; [done|].
  cbn [deltas_of map fragments_for]. rewrite String.eqb_refl.
  change (f +:+ fragments_for id (deltas_of id l) = f +:+ joined l). by rewrite IH.
Qed.

(** X5: feeding the text of a call in fragments and finalizing gives
    what [parseToolCall] gives on the whole text at once, with the same
    console output, whatever the registry held before (also an earlier
    call under the same id, which beginning anew discards) and however
    the text is cut into fragments or interleaved with the deltas of
    other calls. *)
Theorem X5_streaming_agrees_with_one_shot
    (h : Host) (st : ParserState) (id name : string) (ds : list (string * string)) :
  let o := finalizeStreamingToolCall h id
             (appendDeltas h ds (startStreamingToolCall id name st)).2 in
  let whole := {| call_id := id; call_name := name;
                  call_arguments := fragments_for id ds |} in
  returned o = (parseToolCall h whole).2
  ∧ logged o = (parseToolCall h whole).1
  ∧ streamingToolCalls (state o) !! id = None
  ∧ ∀ fragments fragments',
      joined fragments = joined fragments' →
      returned (finalizeStreamingToolCall h id
                  (appendDeltas h (deltas_of id fragments)
                     (startStreamingToolCall id name st)).2)
      = returned (finalizeStreamingToolCall h id
                    (appendDeltas h (deltas_of id fragments')
                       (startStreamingToolCall id name st)).2).
Proof.
  assert (∀ ds',
            streamingToolCalls (appendDeltas h ds' (startStreamingToolCall id name st)).2 !! id
            = Some {| sc_id := id; sc_name := name;
                      argumentsAccumulator := fragments_for id ds' |}) as Hacc.
  { intros ds'. rewrite appendDeltas_accumulates. cbn [startStreamingToolCall streamingToolCalls].
    by rewrite lookup_insert_eq. }
  cbv zeta. split_and!.
  - by destruct (finalizeStreamingToolCall_returned h id _ _ (Hacc ds)) as [-> _].
  - by destruct (finalizeStreamingToolCall_returned h id _ _ (Hacc ds)) as [_ ->].
  - rewrite finalizeStreamingToolCall_calls. apply lookup_delete_eq.
  - intros fragments fragments' Heq.
    destruct (finalizeStreamingToolCall_returned h id _ _ (Hacc (deltas_of id fragments)))
      as [-> _].
    destruct (finalizeStreamingToolCall_returned h id _ _ (Hacc (deltas_of id fragments')))
      as [-> _].
    cbn [sc_id sc_name argumentsAccumulator]. by rewrite !fragments_for_deltas_of, Heq.
Qed.

Lemma after_keeps_ids h c st :
  (∀ id call, streamingToolCalls st !! id = Some call → sc_id call = id) →
  ∀ id call, streamingToolCalls (after h c st) !! id = Some call → sc_id call = id.
Proof.
  intros Hinv id call. destruct c; cbn [after]; try apply Hinv.
  - rewrite processRawChunk_calls. apply Hinv.
  - rewrite processFinishReason_state. apply Hinv.
  - rewrite finalizeRawChunks_state. apply Hinv.
  - cbn [startStreamingToolCall streamingToolCalls].
    destruct (decide (id = id0)) as [->|Hne].
    + rewrite lookup_insert_eq. by intros [= <-].
    + rewrite lookup_insert_ne by done. apply Hinv.
  - cbn [clearAllStreamingToolCalls streamingToolCalls]. by rewrite lookup_empty.
  - rewrite processStreamingChunk_accumulates.
    destruct (streamingToolCalls st !! id) as [c|] eqn:E; [|done].
    intros [= <-]. cbn [sc_id]. by apply Hinv.
  - rewrite finalizeStreamingToolCall_calls.
    destruct (decide (id = id0)) as [->|Hne].
    + by rewrite lookup_delete_eq.
    + rewrite lookup_delete_ne by done. apply Hinv.
Qed.

Lemma run_keeps_ids h calls id call :
  streamingToolCalls (run h calls fresh) !! id = Some call → sc_id call = id.
Proof.
  unfold run.
  assert (∀ id call, streamingToolCalls fresh !! id = Some call → sc_id call = id) as H.
  { intros id' call'. cbn. by rewrite lookup_empty. }
  revert id call. revert H. generalize fresh.
  induction calls as [|c calls IH]; intros st H; [exact H|].
  cbn [fold_left]. apply IH. by apply after_keeps_ids.
Qed.

Lemma parseToolCall_mcp_tool_use_inv h tc m :
  (parseToolCall h tc).2 = Some (mcp_tool_use m) →
  designates_mcp (call_name tc) = true
  ∧ mcp_id m = call_id tc
  ∧ mcp_name m = normalizeMcpToolName (call_name tc)
  ∧ mcp_partial m = false
  ∧ JSON_parse h (if String.eqb (call_arguments tc) "" then "{}" else call_arguments tc)
    = Some (mcp_arguments m)
  ∧ parseMcpToolName (normalizeMcpToolName (call_name tc))
    = Some (mcp_serverName m, mcp_toolName m).
Proof.
  destruct (designates_mcp (call_name tc)) eqn:Hd.
  - rewrite (parseToolCall_mcp h tc Hd).
    unfold parseDynamicMcpTool, parseDynamicMcpTool_try.
    cbn [call_id call_name call_arguments]. rewrite normalizeMcpToolName_idem.
    destruct (JSON_parse h _) as [args|]; unfold_M; [| done].
    destruct (parseMcpToolName _) as [[serverName toolName]|]; [| done].
    cbn. intros [= <-]. by cbn.
  - unfold parseToolCall. unfold designates_mcp in Hd. cbv zeta. rewrite Hd.
    repeat case_match; done.
Qed.

(** X6: in a registry reached from a new request by calls of the entry
    points, the record that finalizing a dynamic tool call returns bears
    the id it was finalized under and is never partial; its name is the
    normalized form of the emitted name, not the emitted name itself,
    and its arguments are what [JSON.parse] made of the accumulated
    text (of the text of the empty object when nothing was accumulated),
    unchecked. *)
Theorem X6_dynamic_record_bears_the_call_id
    (h : Host) (calls : list Call) (id : string) (m : McpToolUse) :
  returned (finalizeStreamingToolCall h id (run h calls fresh)) = Some (mcp_tool_use m) →
  mcp_id m = id
  ∧ mcp_partial m = false
  ∧ ∃ call, streamingToolCalls (run h calls fresh) !! id = Some call
      ∧ designates_mcp (sc_name call) = true
      ∧ mcp_name m = normalizeMcpToolName (sc_name call)
      ∧ JSON_parse h (if String.eqb (argumentsAccumulator call) "" then "{}"
                      else argumentsAccumulator call)
        = Some (mcp_arguments m).
Proof.
  intros Hret.
  destruct (streamingToolCalls (run h calls fresh) !! id) as [call|] eqn:E.
  - destruct (finalizeStreamingToolCall_returned h id _ _ E) as [Hr _].
    rewrite Hr in Hret.
    apply parseToolCall_mcp_tool_use_inv in Hret as (Hd & Hid & Hname & Hp & Hargs & _).
    cbn [call_id call_name call_arguments] in *.
    split_and!; [| done |].
    + rewrite Hid. by apply (run_keeps_ids h calls).
    + exists call. by split_and!.
  - by rewrite finalizeStreamingToolCall_unknown in Hret.
Qed.

Lemma X6_witness :
  let calls := [call_startStreamingToolCall "c1" "mcp__serverA__toolB";
                call_processStreamingChunk "c1" "[1]"] in
  let m := {| mcp_id := "c1"; mcp_name := "mcp--serverA--toolB";
              mcp_serverName := "serverA"; mcp_toolName := "toolB";
              mcp_arguments := VArr [VNum 1%float]; mcp_partial := false |} in
  returned (finalizeStreamingToolCall ReferenceHost.plain "c1"
              (run ReferenceHost.plain calls fresh)) = Some (mcp_tool_use m)
  ∧ mcp_id m = "c1".
Proof.
  cbv zeta.
  assert (returned (finalizeStreamingToolCall ReferenceHost.plain "c1"
                      (run ReferenceHost.plain
                         [call_startStreamingToolCall "c1" "mcp__serverA__toolB";
                          call_processStreamingChunk "c1" "[1]"] fresh))
          = Some (mcp_tool_use
                    {| mcp_id := "c1"; mcp_name := "mcp--serverA--toolB";
                       mcp_serverName := "serverA"; mcp_toolName := "toolB";
                       mcp_arguments := VArr [VNum 1%float]; mcp_partial := false |}))
    as H by (by vm_compute).
  split; [exact H|].
  exact (proj1 (X6_dynamic_record_bears_the_call_id ReferenceHost.plain _ "c1" _ H)).
Defined.

(** X7: [hasActiveStreamingToolCalls] answers false exactly when every
    id is unknown to the registry; it answers true once a call was
    begun, false after [clearAllStreamingToolCalls], and a delta never
    changes its answer. *)
Theorem X7_active_calls_are_the_known_ids (h : Host) (st : ParserState) :
  (hasActiveStreamingToolCalls st = false ↔ ∀ id, streamingToolCalls st !! id = None)
  ∧ (∀ id name, hasActiveStreamingToolCalls (startStreamingToolCall id name st) = true)
  ∧ hasActiveStreamingToolCalls (clearAllStreamingToolCalls st) = false
  ∧ (∀ id chunk,
       hasActiveStreamingToolCalls (state (processStreamingChunk h id chunk st))
       = hasActiveStreamingToolCalls st)
  ∧ (∀ id, (∀ other, other ≠ id → streamingToolCalls st !! other = None) →
       hasActiveStreamingToolCalls (state (finalizeStreamingToolCall h id st)) = false).
Proof.
  assert (∀ s, hasActiveStreamingToolCalls s = false
               ↔ ∀ id, streamingToolCalls s !! id = None) as Hiff.
  { intros s. unfold hasActiveStreamingToolCalls. rewrite Nat.ltb_ge.
    split.
    - intros Hle id. assert (size (streamingToolCalls s) = 0) as H0 by lia.
      apply map_size_empty_iff in H0. by rewrite H0, lookup_empty.
    - intros Hnone. assert (streamingToolCalls s = ∅) as -> by by apply map_empty.
      by rewrite map_size_empty. }
  split_and!.
  - apply Hiff.
  - intros id name. apply not_false_iff_true. rewrite Hiff. intros H.
    specialize (H id). cbn [startStreamingToolCall streamingToolCalls] in H.
    by rewrite lookup_insert_eq in H.
  - apply Hiff. intros id. cbn. by rewrite lookup_empty.
  - intros id chunk.
    destruct (hasActiveStreamingToolCalls st) eqn:Ha.
    + apply not_false_iff_true. rewrite Hiff. intros H.
      apply not_false_iff_true in Ha. apply Ha, (proj2 (Hiff st)). intros other.
      specialize (H other). rewrite processStreamingChunk_accumulates in H.
      by destruct (streamingToolCalls st !! other).
    + apply Hiff. intros other. rewrite processStreamingChunk_accumulates.
      by rewrite (proj1 (Hiff st) Ha other).
  - intros id Hother. apply Hiff. intros other.
    rewrite finalizeStreamingToolCall_calls.
    destruct (decide (id = other)) as [->|Hne].
    + apply lookup_delete_eq.
    + rewrite lookup_delete_ne by done. by apply Hother.
Qed.

(** X8: the raw chunk tracker and the call registry are independent:
    an entry point that works on raw chunks leaves the registry as it
    is, and every other entry point leaves the tracker as it is. *)
Theorem X8_tracker_and_registry_independent (h : Host) (c : Call) (st : ParserState) :
  if on_raw_chunks c
  then streamingToolCalls (after h c st) = streamingToolCalls st
  else rawChunkTracker (after h c st) = rawChunkTracker st.
Proof.
  destruct c; cbn [on_raw_chunks after]; try done.
  - apply processRawChunk_calls.
  - by rewrite processFinishReason_state.
  - by rewrite finalizeRawChunks_state.
  - apply processStreamingChunk_tracker.
  - apply finalizeStreamingToolCall_tracker.
Qed.
(** ** File entries of [read_file] *)

Lemma convertFileEntry_nullish h file :
  nullish file = true → convertFileEntry h file = ([], inl TypeError).
Proof. by destruct file. Qed.

Lemma convertFileEntry_returns h file :
  nullish file = false →
  ∃ entry, convertFileEntry h file = ([], inr entry)
    ∧ entry.["path"] = file.["path"]
    ∧ has_key "lineRanges" entry = isArray file.["line_ranges"]
    ∧ match file.["line_ranges"] with
      | VArr ranges =>
          ∃ converted, entry.["lineRanges"] = VArr converted
            ∧ converted = omap (convertRange h) ranges
      | _ => entry.["lineRanges"] = VUndefined
      end.
Proof.
  intros Hn.
  assert (convertFileEntry h file
          = match file.["line_ranges"] with
            | VArr ranges =>
                ([], inr (VObj [("path", file.["path"]);
                                ("lineRanges", VArr (omap (convertRange h) ranges))]))
            | _ => ([], inr (VObj [("path", file.["path"])]))
            end) as ->.
  { destruct file; try done; cbn [convertFileEntry]; by destruct (_.["line_ranges"]). }
  destruct (file.["line_ranges"]); eexists; split_and!; try done. by eexists.
Qed.

Lemma convertFileEntries_cons h file files :
  convertFileEntries h (file :: files)
  = (entry ← convertFileEntry h file;
     entries ← convertFileEntries h files;
     mret (entry :: entries)).
Proof. done. Qed.

Lemma convertFileEntries_log h files : (convertFileEntries h files).1 = [].
Proof.
  induction files as [|file files IH]; [done|].
  rewrite convertFileEntries_cons. unfold_M.
  destruct (nullish file) eqn:Hn.
  - by rewrite convertFileEntry_nullish.
  - destruct (convertFileEntry_returns h file Hn) as (entry & -> & _).
    destruct (convertFileEntries h files) as [w [e|entries]]; simpl in *; by subst.
Qed.

Lemma convertRange_shape h range v : convertRange h range = Some v → is_line_range v.
Proof.
  unfold convertRange, is_line_range.
  destruct range; try done.
  - destruct (match_range s) as [[a b]|]; [|done]. intros [= <-]. by eexists _, _.
  - case_match; [|done]. intros [= <-]. by eexists _, _.
  - case_match; [|done]. intros [= <-]. by eexists _, _.
Qed.

Lemma omap_length_le {A B} (f : A → option B) (l : list A) :
  length (omap f l) ≤ length l.
Proof.
  induction l as [|x l IH]; [done|].
  change (omap f (x :: l)) with (match f x with Some y => y :: omap f l | None => omap f l end).
  destruct (f x); simpl; lia.
Qed.

Lemma convertFileEntries_throws h files :
  Exists (λ file, nullish file = true) files →
  convertFileEntries h files = ([], inl TypeError).
Proof.
  induction files as [|file files IH]; intros Hex; [by apply Exists_nil in Hex|].
  rewrite convertFileEntries_cons. unfold_M.
  destruct (nullish file) eqn:Hn.
  - by rewrite convertFileEntry_nullish.
  - destruct (convertFileEntry_returns h file Hn) as (entry & -> & _).
    apply Exists_cons in Hex as [Hex|Hex]; [congruence|].
    by rewrite (IH Hex).
Qed.

Lemma convertFileEntries_returns h files :
  Forall (λ file, nullish file = false) files →
  ∃ entries, convertFileEntries h files = ([], inr entries)
    ∧ length entries = length files
    ∧ ∀ i file, files !! i = Some file →
        ∃ entry, entries !! i = Some entry
          ∧ entry.["path"] = file.["path"]
          ∧ has_key "lineRanges" entry = isArray file.["line_ranges"]
          ∧ ∀ ranges, file.["line_ranges"] = VArr ranges →
              ∃ converted, entry.["lineRanges"] = VArr converted
                ∧ length converted ≤ length ranges
                ∧ Forall is_line_range converted.
Proof.
  induction files as [|file files IH]; intros Hall.
  - exists []. split_and!; [done | done |]. intros i file Hi. by destruct i.
  - apply Forall_cons in Hall as [Hn Hall].
    destruct (IH Hall) as (entries & Heq & Hlen & Hentries).
    destruct (convertFileEntry_returns h file Hn) as (entry & He & Hpath & Hkey & Hranges).
    exists (entry :: entries). rewrite convertFileEntries_cons. unfold_M.
    rewrite He, Heq. split_and!; [done | by rewrite !length_cons, Hlen |].
    intros [|i] file' Hi.
    + injection Hi as <-. exists entry. split_and!; [done | done | done |].
      intros ranges Hr. rewrite Hr in Hranges.
      destruct Hranges as (converted & Hc & ->). exists (omap (convertRange h) ranges).
      split_and!; [done | apply omap_length_le |].
      apply Forall_forall. intros v Hv.
      apply list_elem_of_omap in Hv as (range & _ & Hv). by apply convertRange_shape in Hv.
    + by apply Hentries.
Qed.

Lemma nullish_cases files :
  Forall (λ file, nullish file = false) files ∨ Exists (λ file, nullish file = true) files.
Proof.
  induction files as [|file files [IH|IH]].
  - left. constructor.
  - destruct (nullish file) eqn:Hn; [right; by constructor | left; by constructor].
  - right. by apply Exists_cons_tl.
Qed.

Lemma split_dash_Some range a b :
  split_dash range = Some (a, b) → range = a +:+ "-" +:+ b.
Proof.
  revert a. induction range as [|c r IH]; intros a; [done|]. cbn [split_dash].
  destruct (Ascii.eqb_spec c "-"%char) as [->|Hne].
  - by intros [= <- <-].
  - destruct (split_dash r) as [[a' b']|] eqn:E; [|done].
    intros [= <- <-]. change (String c r = String c (a' +:+ "-" +:+ b')).
    f_equal. by apply IH.
Qed.

Lemma split_dash_digits a b :
  all_digits a = true → split_dash (a +:+ "-" +:+ b) = Some (a, b).
Proof.
  induction a as [|c a IH]; intros Hd; [done|].
  cbn [all_digits] in Hd. apply andb_prop in Hd as [Hc Hd].
  change (String c a +:+ "-" +:+ b) with (String c (a +:+ "-" +:+ b)).
  cbn [split_dash]. rewrite (IH Hd).
  destruct (Ascii.eqb_spec c "-"%char) as [->|Hne]; [done | done].
Qed.

(** X10: the legacy range text is accepted exactly when it is one or
    more decimal digits, a dash, and one or more decimal digits, as
    the expression [/^(\d+)-(\d+)$/] says; the two groups are then the
    two runs of digits. *)
Theorem X10_legacy_range_text (range a b : string) :
  match_range range = Some (a, b)
  ↔ range = a +:+ "-" +:+ b
    ∧ a ≠ "" ∧ b ≠ "" ∧ all_digits a = true ∧ all_digits b = true.
Proof.
  unfold match_range. split.
  - destruct (split_dash range) as [[a' b']|] eqn:Hs; [|done].
    destruct (negb (String.eqb a' "") && all_digits a'
              && negb (String.eqb b' "") && all_digits b') eqn:Hc; [|done].
    intros [= <- <-]. apply split_dash_Some in Hs.
    repeat (apply andb_prop in Hc as [Hc ?]).
    split_and!; try done.
    + intros ->. done.
    + intros ->. done.
  - intros (-> & Ha & Hb & Hda & Hdb). rewrite (split_dash_digits a b Hda), Hda, Hdb.
    destruct (String.eqb_spec a ""); [done|]. destruct (String.eqb_spec b ""); done.
Qed.
(** ** What the parser writes to the console *)

Lemma Object_entries_log v : (Object_entries v).1 = [].
Proof. by destruct v. Qed.

Lemma strict_nativeArgs_log h name args : (strict_nativeArgs h name args).1 = [].
Proof.
  unfold strict_nativeArgs.
  destruct (toolName_of_string name) as [t|]; [destruct t|]; try done.
  destruct (args.["files"]); try done. unfold_M.
  pose proof (convertFileEntries_log h l) as Hl.
  destruct (convertFileEntries h l) as [w [e|fs]]; simpl in *; by subst.
Qed.

Lemma partial_nativeArgs_log h name args : (partial_nativeArgs h name args).1 = [].
Proof.
  unfold partial_nativeArgs.
  destruct (toolName_of_string name) as [t|]; [destruct t|]; try done.
  destruct (args.["files"]); try done. unfold_M.
  pose proof (convertFileEntries_log h l) as Hl.
  destruct (convertFileEntries h l) as [w [e|fs]]; simpl in *; by subst.
Qed.

Lemma strict_params_warnings h name entries :
  Forall (λ c, is_error c = false) (strict_params h name entries).2.
Proof.
  unfold strict_params.
  assert (Forall (λ c, is_error c = false) (∅ : gmap string string, [] : list console).2) as H
    by apply Forall_nil_2.
  revert H. generalize (∅ : gmap string string, [] : list console).
  induction entries as [|kv entries IH]; intros acc Hacc; [done|].
  cbn [fold_left]. apply IH. repeat case_match; try done.
  cbn [snd]. apply Forall_app. split; [done|]. by repeat constructor.
Qed.

Lemma parseToolCall_try_log h tc name :
  Forall (λ c, is_error c = false) (parseToolCall_try h tc name).1.
Proof.
  unfold parseToolCall_try. rewrite decode_step.
  destruct (strict_decode h (call_arguments tc)) as [args|]; unfold_M; [|by constructor].
  pose proof (Object_entries_log args) as Ho.
  destruct (Object_entries args) as [w1 [e|entries]]; simpl in Ho; subst w1; [by constructor|].
  pose proof (strict_params_warnings h name entries) as Hw.
  destruct (strict_params h name entries) as [params warnings]. cbn [snd] in Hw.
  pose proof (strict_nativeArgs_log h name args) as Hn.
  destruct (strict_nativeArgs h name args) as [w2 [e|v]]; simpl in Hn; subst w2;
    cbn [app fst]; [by rewrite app_nil_r|].
  destruct (negb (truthy v) && negb _); cbn [fst]; by rewrite !app_nil_r.
Qed.

Lemma parseToolCall_null_iff_error h toolCall :
  (parseToolCall h toolCall).2 = None
  ↔ Exists (λ c, is_error c = true) (parseToolCall h toolCall).1.
Proof.
  unfold parseToolCall. cbv zeta.
  destruct (String.prefix _ (normalizeMcpToolName (call_name toolCall))).
  - unfold parseDynamicMcpTool, parseDynamicMcpTool_try. cbn [call_arguments call_name call_id].
    destruct (JSON_parse h _) as [args|]; unfold_M.
    + destruct (parseMcpToolName _) as [[serverName toolName]|]; cbn.
      * split; [done|]. intros H. by apply Exists_nil in H.
      * split; [|done]. intros _. by apply Exists_cons_hd.
    + cbn. split; [|done]. intros _. by apply Exists_cons_hd.
  - destruct (negb (bool_decide _) && negb _).
    + cbn. split; [|done]. intros _. by apply Exists_cons_hd.
    + pose proof (parseToolCall_try_log h toolCall (resolveToolAlias (call_name toolCall)))
        as Hlog.
      destruct (parseToolCall_try h toolCall _) as [w [e|r]]; cbn [fst snd] in *.
      * split; [|done]. intros _. apply Exists_app. right. by apply Exists_cons_hd.
      * split; [done|]. intros Hex. apply Exists_exists in Hex as (c & Hin & Hc).
        rewrite Forall_forall in Hlog. specialize (Hlog c Hin). congruence.
Qed.

(** X11: [parseToolCall] returns [null] exactly when it has written an
    error to the console: it never fails silently, and a record it
    returns comes with warnings at most.  [finalizeStreamingToolCall]
    on a known id inherits this. *)
Theorem X11_null_exactly_when_error_logged (h : Host) :
  (∀ toolCall,
     (parseToolCall h toolCall).2 = None
     ↔ Exists (λ c, is_error c = true) (parseToolCall h toolCall).1)
  ∧ (∀ st id,
       is_Some (streamingToolCalls st !! id) →
       returned (finalizeStreamingToolCall h id st) = None
       ↔ Exists (λ c, is_error c = true) (logged (finalizeStreamingToolCall h id st))).
Proof.
  split; [apply parseToolCall_null_iff_error|].
  intros st id [call Hcall].
  destruct (finalizeStreamingToolCall_returned h id st call Hcall) as [-> ->].
  apply parseToolCall_null_iff_error.
Qed.
(** ** The partial path *)

Lemma files_switch_cases h (args : value) :
  let switch : M value :=
    match args.["files"] with
    | VArr files => fs ← convertFileEntries h files; mret (VObj [("files", VArr fs)])
    | _ => mret VUndefined
    end in
  (switch = ([], inl TypeError)
   ∧ ∃ files, args.["files"] = VArr files ∧ Exists (λ file, nullish file = true) files)
  ∨ ((∃ v, switch = ([], inr v))
     ∧ ¬ ∃ files, args.["files"] = VArr files ∧ Exists (λ file, nullish file = true) files).
Proof.
  cbv zeta. destruct (args.["files"]) as [| | | | |files|] eqn:Hf;
    try (right; split; [by eexists | by intros (? & ? & ?)]).
  unfold_M. destruct (nullish_cases files) as [Hall|Hex].
  - right. destruct (convertFileEntries_returns h files Hall) as (entries & -> & _).
    split; [by eexists|]. intros (files' & [= <-] & Hex).
    apply Exists_exists in Hex as (file & Hin & Hn).
    rewrite Forall_forall in Hall. specialize (Hall file Hin). congruence.
  - left. rewrite (convertFileEntries_throws h files Hex). split; [done|]. by exists files.
Qed.


Lemma strict_nativeArgs_cases h name args :
  (strict_nativeArgs h name args = ([], inl TypeError) ∧ unreadable_files name args)
  ∨ ((∃ v, strict_nativeArgs h name args = ([], inr v)) ∧ ¬ unreadable_files name args).
Proof.
  unfold unreadable_files, strict_nativeArgs.
  destruct (toolName_of_string name) as [t|];
    [destruct t|];
    try (right; split; [by eexists | by intros [? _]]).
  destruct (files_switch_cases h args) as [[-> Hbad]|[Hv Hgood]].
  - by left.
  - right. split; [done|]. by intros [_ ?].
Qed.



(** X13: a [read_file] call whose [files] array holds an element that
    is [null] or [undefined] fails when it is finalized: [parseToolCall]
    returns [null] and logs the [TypeError], also when the name is
    registered as a custom tool. *)
Theorem X13_unreadable_files_fail_the_call (h : Host) (toolCall : ToolCall) (args : value) :
  strict_decode h (call_arguments toolCall) = Some args →
  unreadable_files (resolveToolAlias (call_name toolCall)) args →
  (parseToolCall h toolCall).2 = None
  ∧ error_failed_to_parse TypeError ∈ (parseToolCall h toolCall).1.
Proof.
  intros Hd Hbad. pose proof Hbad as (Ht & files & Hfiles & Hex).
  rewrite (parseToolCall_known h toolCall);
    [| by apply (static_not_mcp _ read_file) | left; by rewrite Ht].
  unfold parseToolCall_try. rewrite decode_step, Hd. unfold_M.
  assert (∃ fs, args = VObj fs) as [fs ->] by (destruct args; try done; by eexists).
  cbn [Object_entries]. unfold_M.
  destruct (strict_params h _ fs) as [params warnings]. cbn [app].
  destruct (strict_nativeArgs_cases h (resolveToolAlias (call_name toolCall)) (VObj fs))
    as [[-> _]|[_ Hgood]]; [|done].
  cbn [fst snd]. split; [done|]. rewrite app_nil_r. apply elem_of_app. right.
  apply list_elem_of_here.
Qed.

Lemma X13_witness :
  (parseToolCall ReferenceHost.plain
     {| call_id := "c1"; call_name := "read_file";
        call_arguments := "{" +:+ ReferenceHost.quoted "files" +:+ ":[null]}" |}).2 = None.
Proof.
  refine (proj1 (X13_unreadable_files_fail_the_call ReferenceHost.plain _
                   (VObj [("files", VArr [VNull])]) _ _)).
  - by vm_compute.
  - split; [by vm_compute|]. exists [VNull]. split; [reflexivity|]. by constructor.
Defined.

(** ** The string parameters *)

Lemma fold_insert_lookup (keep : string → bool) (f : value → string)
    (entries : list (string * value)) :
  NoDup entries.*1 →
  ∀ k s,
    fold_left (λ (params : gmap string string) kv,
                 if keep kv.1 then <[kv.1 := f kv.2]> params else params) entries ∅ !! k
    = Some s
    ↔ keep k = true ∧ ∃ v, (k, v) ∈ entries ∧ s = f v.
Proof.
  induction entries as [|[k0 v0] l IH] using rev_ind; intros Hnd k s.
  - cbn. rewrite lookup_empty. split; [done|]. intros (_ & v & Hin & _).
    by apply elem_of_nil in Hin.
  - rewrite fmap_app in Hnd. apply NoDup_app in Hnd as (Hl & Hfresh & _).
    assert (k0 ∉ l.*1) as Hk0.
    { intros Hin. apply (Hfresh k0 Hin). cbn. apply list_elem_of_here. }
    rewrite fold_left_app. cbn [fold_left fst snd].
    destruct (keep k0) eqn:Hkeep.
    + destruct (decide (k = k0)) as [->|Hne].
      * rewrite lookup_insert_eq. split.
        -- intros [= <-]. split; [done|]. exists v0. split; [|done].
           apply elem_of_app. right. apply list_elem_of_here.
        -- intros (_ & v & Hin & ->). apply elem_of_app in Hin as [Hin|Hin].
           ++ exfalso. apply Hk0. apply list_elem_of_fmap. by exists (k0, v).
           ++ apply list_elem_of_singleton in Hin. by injection Hin as ->.
      * rewrite lookup_insert_ne by done. rewrite (IH Hl). split.
        -- intros (Hk & v & Hin & ->). split; [done|]. exists v. split; [|done].
           apply elem_of_app. by left.
        -- intros (Hk & v & Hin & ->). split; [done|]. exists v. split; [|done].
           apply elem_of_app in Hin as [Hin|Hin]; [done|].
           apply list_elem_of_singleton in Hin. congruence.
    + rewrite (IH Hl). split.
      * intros (Hk & v & Hin & ->). split; [done|]. exists v. split; [|done].
        apply elem_of_app. by left.
      * intros (Hk & v & Hin & ->). split; [done|]. exists v. split; [|done].
        apply elem_of_app in Hin as [Hin|Hin]; [done|].
        apply list_elem_of_singleton in Hin. injection Hin as -> ->. congruence.
Qed.

(** X14: the [params] of a partial record hold, under its own name,
    the string form of each argument of the decoded object whose name is
    a member of [toolParamNames], and nothing else: a string as it is,
    any other value through [JSON.stringify]. *)
Theorem X14_partial_params_are_the_known_arguments
    (h : Host) (st : ParserState) (id chunk : string) (call : StreamingCall)
    (fs : list (string * value)) (r : ToolUse) :
  streamingToolCalls st !! id = Some call →
  parseJSON h (argumentsAccumulator call +:+ chunk) = Some (VObj fs) →
  NoDup fs.*1 →
  returned (processStreamingChunk h id chunk st) = Some r →
  ∀ k s, tu_params r !! k = Some s
         ↔ is_toolParamName k = true ∧ ∃ v, (k, v) ∈ fs ∧ s = stringValue h v.
Proof.
  intros Hcall Hj Hnd Hr.
  destruct (processStreamingChunk_returned h id chunk st call r Hcall Hr)
    as (_ & partialArgs & w & Hj' & Hc).
  rewrite Hj in Hj'. injection Hj' as <-. cbn [truthy] in Hc.
  unfold createPartialToolUse in Hc. unfold_M. cbn [Object_entries] in Hc. unfold_M.
  destruct (partial_nativeArgs h _ (VObj fs)) as [w2 [e|v]]; [done|].
  injection Hc as _ <-. cbn [tu_params]. apply fold_insert_lookup, Hnd.
Qed.

Lemma X14_witness :
  let text := "{" +:+ ReferenceHost.quoted "url" +:+ ":" +:+ ReferenceHost.quoted "http://x"
              +:+ "," +:+ ReferenceHost.quoted "extra" +:+ ":null}" in
  let r := {| tu_name := "browser_navigate"; tu_originalName := None;
              tu_params := <["url" := "http://x"]> ∅; tu_partial := true;
              tu_nativeArgs := VObj [("url", VStr "http://x")] |} in
  returned (processStreamingChunk ReferenceHost.plain "c1" text
              (startStreamingToolCall "c1" "browser_navigate" fresh)) = Some r
  ∧ (tu_params r !! "extra" = Some "null"
     ↔ is_toolParamName "extra" = true
       ∧ ∃ v, ("extra", v) ∈ [("url", VStr "http://x"); ("extra", VNull)]
              ∧ "null" = stringValue ReferenceHost.plain v).
Proof.
  cbv zeta.
  assert (returned (processStreamingChunk ReferenceHost.plain "c1"
                      ("{" +:+ ReferenceHost.quoted "url" +:+ ":"
                       +:+ ReferenceHost.quoted "http://x"
                       +:+ "," +:+ ReferenceHost.quoted "extra" +:+ ":null}")
                      (startStreamingToolCall "c1" "browser_navigate" fresh))
          = Some {| tu_name := "browser_navigate"; tu_originalName := None;
                    tu_params := <["url" := "http://x"]> ∅; tu_partial := true;
                    tu_nativeArgs := VObj [("url", VStr "http://x")] |}) as H
    by (by vm_compute).
  split; [exact H|].
  refine (X14_partial_params_are_the_known_arguments ReferenceHost.plain
            _ "c1" _
            {| sc_id := "c1"; sc_name := "browser_navigate"; argumentsAccumulator := "" |}
            [("url", VStr "http://x"); ("extra", VNull)] _ _ _ _ H "extra" "null").
  - by vm_compute.
  - by vm_compute.
  - apply (bool_decide_unpack _). by vm_compute.
Defined.
(** [__proto__] is no member of [toolParamNames]. *)
Lemma toolParamName_not_proto k :
  is_toolParamName k = true → String.eqb k "__proto__" = false.
Proof.
  intros Hk. destruct (String.eqb_spec k "__proto__") as [->|_]; [|done].
  by vm_compute in Hk.
Qed.

Lemma strict_params_fst h name entries :
  (strict_params h name entries).1
  = fold_left (λ (params : gmap string string) kv,
                 if negb (String.eqb name "read_file" && String.eqb kv.1 "files")
                    && (is_toolParamName kv.1 || customToolRegistry_has h name)
                    && negb (String.eqb kv.1 "__proto__")
                 then <[kv.1 := stringValue h kv.2]> params else params)
              entries ∅.
Proof.
  unfold strict_params.
  change (∅ : gmap string string) with ((∅ : gmap string string, [] : list console).1) at 2.
  generalize (∅ : gmap string string, [] : list console).
  induction entries as [|kv entries IH]; intros acc; [done|].
  cbn [fold_left]. rewrite IH. f_equal.
  destruct (String.eqb name "read_file" && String.eqb kv.1 "files"); [done|].
  cbn [negb andb].
  by destruct (is_toolParamName kv.1), (customToolRegistry_has h name),
       (String.eqb kv.1 "__proto__").
Qed.

Lemma strict_params_snd h name entries :
  (strict_params h name entries).2 = unknown_parameter_warnings h name entries.
Proof.
  unfold strict_params, unknown_parameter_warnings.
  change (flat_map ?f entries)
    with ((∅ : gmap string string, [] : list console).2 ++ flat_map f entries).
  generalize (∅ : gmap string string, [] : list console).
  induction entries as [|kv entries IH]; intros acc.
  - cbn. by rewrite app_nil_r.
  - cbn [fold_left flat_map]. rewrite IH, (assoc_L (++)). f_equal.
    destruct (String.eqb name "read_file" && String.eqb kv.1 "files") eqn:Hskip.
    + apply andb_prop in Hskip as [_ Hk]. apply String.eqb_eq in Hk. rewrite Hk.
      by rewrite app_nil_r.
    + destruct (negb (is_toolParamName kv.1) && negb (customToolRegistry_has h name));
        [done|]. destruct (String.eqb kv.1 "__proto__"); by rewrite app_nil_r.
Qed.

(** X15: the [params] of a final record hold the string form of each
    argument of the decoded object whose name is a member of
    [toolParamNames], every argument when the tool is a custom one,
    except [files] of [read_file] and except an argument named
    [__proto__], which the assignment to the plain object [params] does
    not store; and the console output of a successful [parseToolCall]
    is exactly the two warnings for each argument that is neither a
    member of [toolParamNames] nor an argument of a custom tool, in the
    order of the arguments. *)
Theorem X15_final_params_and_warnings
    (h : Host) (toolCall : ToolCall) (fs : list (string * value)) (r : ToolUse) :
  strict_decode h (call_arguments toolCall) = Some (VObj fs) →
  NoDup fs.*1 →
  (parseToolCall h toolCall).2 = Some (tool_use r) →
  (∀ k s, tu_params r !! k = Some s
          ↔ (is_toolParamName k = true ∨ customToolRegistry_has h (tu_name r) = true)
            ∧ ¬ (tu_name r = "read_file" ∧ k = "files")
            ∧ k ≠ "__proto__"
            ∧ ∃ v, (k, v) ∈ fs ∧ s = stringValue h v)
  ∧ (parseToolCall h toolCall).1 = unknown_parameter_warnings h (tu_name r) fs.
Proof.
  intros Hd Hnd Hr.
  destruct (parseToolCall_tool_use_inv h toolCall r Hr) as (Hmcp & Hknown & w & Htry).
  rewrite (parseToolCall_known h toolCall Hmcp Hknown), Htry. cbn [fst].
  unfold parseToolCall_try in Htry. rewrite decode_step, Hd in Htry. unfold_M.
  cbn [Object_entries] in Htry. unfold_M.
  pose proof (strict_params_fst h (resolveToolAlias (call_name toolCall)) fs) as Hfst.
  pose proof (strict_params_snd h (resolveToolAlias (call_name toolCall)) fs) as Hsnd.
  destruct (strict_params h _ fs) as [params warnings]. cbn [fst snd app] in *.
  pose proof (strict_nativeArgs_log h (resolveToolAlias (call_name toolCall)) (VObj fs)) as Hlog.
  destruct (strict_nativeArgs h _ (VObj fs)) as [w2 [e|v]]; [done|].
  cbn [fst] in Hlog. subst w2.
  destruct (negb (truthy v) && negb _); [done|].
  injection Htry as <- <-. cbn [tu_name tu_params]. rewrite !app_nil_r.
  split; [|done]. intros k s. rewrite Hfst.
  pose proof (fold_insert_lookup
                (λ k, negb (String.eqb (resolveToolAlias (call_name toolCall)) "read_file"
                            && String.eqb k "files")
                      && (is_toolParamName k
                          || customToolRegistry_has h (resolveToolAlias (call_name toolCall)))
                      && negb (String.eqb k "__proto__"))
                (stringValue h) fs Hnd k s) as Hl.
  cbv beta in Hl. rewrite Hl. clear Hl.
  rewrite !andb_true_iff, !negb_true_iff, andb_false_iff, orb_true_iff, !String.eqb_neq.
  split.
  - intros ([[Hskip Hkeep] Hproto] & Hv). split_and!; [done | | done | done].
    intros [Hn Hk]. by destruct Hskip.
  - intros (Hkeep & Hskip & Hproto & Hv). split_and!; [| done | done | done].
    destruct (decide (resolveToolAlias (call_name toolCall) = "read_file")) as [Hn|Hn];
      [| by left].
    right. intros Hk. by apply Hskip.
Qed.

Lemma X15_witness :
  (let toolCall := {| call_id := "c1"; call_name := "browser_navigate";
                      call_arguments :=
                        "{" +:+ ReferenceHost.quoted "url" +:+ ":"
                        +:+ ReferenceHost.quoted "http://x"
                        +:+ "," +:+ ReferenceHost.quoted "extra" +:+ ":null}" |} in
   (parseToolCall ReferenceHost.plain toolCall).1
   = [warn_unknown_parameter "extra" "browser_navigate"; warn_valid_param_names])
  ∧ (let h := ReferenceHost.host (String.eqb "my_tool") in
     let toolCall := {| call_id := "c2"; call_name := "my_tool";
                        call_arguments :=
                          "{" +:+ ReferenceHost.quoted "__proto__" +:+ ":"
                          +:+ ReferenceHost.quoted "p"
                          +:+ "," +:+ ReferenceHost.quoted "a" +:+ ":"
                          +:+ ReferenceHost.quoted "1" +:+ "}" |} in
     ∃ r, (parseToolCall h toolCall).2 = Some (tool_use r)
          ∧ tu_params r !! "a" = Some "1"
          ∧ tu_params r !! "__proto__" = None
          ∧ (parseToolCall h toolCall).1 = []).
Proof.
  cbv zeta. split.
  - refine (proj2 (X15_final_params_and_warnings ReferenceHost.plain _
                     [("url", VStr "http://x"); ("extra", VNull)]
                     {| tu_name := "browser_navigate"; tu_originalName := None;
                        tu_params := <["url" := "http://x"]> ∅; tu_partial := false;
                        tu_nativeArgs := VObj [("url", VStr "http://x")] |} _ _ _)).
    + by vm_compute.
    + apply (bool_decide_unpack _). by vm_compute.
    + by vm_compute.
  - pose (h := ReferenceHost.host (String.eqb "my_tool")).
    pose (toolCall := {| call_id := "c2"; call_name := "my_tool";
                         call_arguments :=
                           "{" +:+ ReferenceHost.quoted "__proto__" +:+ ":"
                           +:+ ReferenceHost.quoted "p"
                           +:+ "," +:+ ReferenceHost.quoted "a" +:+ ":"
                           +:+ ReferenceHost.quoted "1" +:+ "}" |}).
    pose (fs := [("__proto__", VStr "p"); ("a", VStr "1")]).
    pose (r := {| tu_name := "my_tool"; tu_originalName := None;
                  tu_params := <["a" := "1"]> ∅; tu_partial := false;
                  tu_nativeArgs := VObj fs |}).
    assert (strict_decode h (call_arguments toolCall) = Some (VObj fs)) as Hd
      by (by vm_compute).
    assert (NoDup fs.*1) as Hnd by (apply (bool_decide_unpack _); by vm_compute).
    assert ((parseToolCall h toolCall).2 = Some (tool_use r)) as Hr by (by vm_compute).
    destruct (X15_final_params_and_warnings h toolCall fs r Hd Hnd Hr) as [Hparams Hlog].
    exists r. split_and!; [exact Hr | | | exact Hlog].
    + apply (proj2 (Hparams "a" "1")).
      split_and!; [by right | by intros [[=] _] | by intros [=] |].
      exists (VStr "1"). split; [|reflexivity].
      apply elem_of_cons. right. apply list_elem_of_here.
    + destruct (tu_params r !! "__proto__") as [s|] eqn:Hs; [|reflexivity].
      apply (proj1 (Hparams "__proto__" s)) in Hs as (_ & _ & Hne & _). by destruct Hne.
Defined.

(** ** Which calls are accepted *)

(** X16: for a name that is no member of [toolNames] but is registered
    as a custom tool, [parseToolCall] hands the decoded arguments on as
    they are, whatever they are, without a warning; only a text that
    decodes to [null] fails, with the [TypeError] of [Object.entries]. *)
Theorem X16_custom_tool_arguments_unchecked
    (h : Host) (toolCall : ToolCall) (args : value) :
  designates_mcp (call_name toolCall) = false →
  toolName_of_string (resolveToolAlias (call_name toolCall)) = None →
  customToolRegistry_has h (resolveToolAlias (call_name toolCall)) = true →
  strict_decode h (call_arguments toolCall) = Some args →
  if nullish args
  then parseToolCall h toolCall
       = ([error_failed_to_parse TypeError; error_tool_call toolCall], None)
  else ∃ r, parseToolCall h toolCall = ([], Some (tool_use r))
         ∧ tu_name r = resolveToolAlias (call_name toolCall)
         ∧ tu_nativeArgs r = args
         ∧ tu_partial r = false.
Proof.
  intros Hmcp Hname Hcustom Hd.
  rewrite (parseToolCall_known h toolCall Hmcp) by by right.
  unfold parseToolCall_try. rewrite decode_step, Hd. unfold_M.
  destruct (nullish args) eqn:Hn.
  { by destruct args. }
  assert (∃ entries, Object_entries args = ([], inr entries)) as [entries ->].
  { destruct args; try done; by eexists. }
  pose proof (strict_params_snd h (resolveToolAlias (call_name toolCall)) entries) as Hsnd.
  assert (unknown_parameter_warnings h (resolveToolAlias (call_name toolCall)) entries = [])
    as Hw.
  { unfold unknown_parameter_warnings. rewrite Hcustom.
    clear. induction entries as [|kv l IH]; [done|]. cbn [flat_map]. rewrite IH.
    cbn [negb]. by rewrite andb_false_r. }
  rewrite Hw in Hsnd.
  destruct (strict_params h _ entries) as [params warnings]. cbn [snd] in Hsnd. subst warnings.
  unfold strict_nativeArgs. rewrite Hname, Hcustom. unfold_M. cbn [app].
  rewrite andb_false_r. by eexists.
Qed.

Lemma X16_witness :
  ∃ r, parseToolCall (ReferenceHost.host (String.eqb "my_tool"))
         {| call_id := "c1"; call_name := "my_tool"; call_arguments := "[1]" |}
       = ([], Some (tool_use r))
     ∧ tu_nativeArgs r = VArr [VNum 1%float].
Proof.
  destruct (X16_custom_tool_arguments_unchecked (ReferenceHost.host (String.eqb "my_tool"))
              {| call_id := "c1"; call_name := "my_tool"; call_arguments := "[1]" |}
              (VArr [VNum 1%float]) eq_refl eq_refl eq_refl eq_refl)
    as (r & Hr & _ & Hargs & _).
  exists r. split; assumption.
Defined.






(** ** Aliases on both paths *)





(** ** Optional booleans *)

Lemma rev_app_acc (s acc : string) : String.rev_app s acc = String.rev s +:+ acc.
Proof.
  unfold String.rev. revert acc. induction s as [|c s IH]; intros acc; [done|].
  cbn [String.rev_app]. rewrite (IH (String c acc)), (IH (String c "")).
  by rewrite string_app_assoc.
Qed.

Lemma rev_cons c (s : string) : String.rev (String c s) = String.rev s +:+ String c "".
Proof. unfold String.rev at 1. cbn [String.rev_app]. apply rev_app_acc. Qed.

Lemma rev_app (a b : string) : String.rev (a +:+ b) = String.rev b +:+ String.rev a.
Proof.
  induction a as [|c a IH].
  - cbn. by rewrite string_app_nil_r.
  - change (String c a +:+ b) with (String c (a +:+ b)).
    by rewrite !rev_cons, IH, string_app_assoc.
Qed.

Lemma all_space_app a b : all_space (a +:+ b) = all_space a && all_space b.
Proof.
  induction a as [|c a IH]; [done|].
  change (is_space c && all_space (a +:+ b) = is_space c && all_space a && all_space b).
  by rewrite IH, andb_assoc.
Qed.

Lemma all_space_rev s : all_space (String.rev s) = all_space s.
Proof.
  induction s as [|c s IH]; [done|].
  rewrite rev_cons, all_space_app, IH. cbn [all_space]. rewrite andb_true_r. apply andb_comm.
Qed.

Lemma trim_start_space ws s : all_space ws = true → trim_start (ws +:+ s) = trim_start s.
Proof.
  induction ws as [|c ws IH]; [done|]. cbn [all_space]. intros H.
  apply andb_prop in H as [Hc Hws].
  change (trim_start (String c (ws +:+ s)) = trim_start s). cbn [trim_start].
  rewrite Hc. by apply IH.
Qed.

Lemma trim_start_all_space s : all_space s = true → trim_start s = "".
Proof.
  intros H. rewrite <- (string_app_nil_r s). by rewrite trim_start_space.
Qed.

Lemma trim_start_not_all_space s ws :
  all_space s = false → trim_start (s +:+ ws) = trim_start s +:+ ws.
Proof.
  induction s as [|c s IH]; [done|]. cbn [all_space].
  change (String c s +:+ ws) with (String c (s +:+ ws)). cbn [trim_start].
  destruct (is_space c); [| done]. cbn [andb]. apply IH.
Qed.

Lemma trim_surrounded ws1 s ws2 :
  all_space ws1 = true → all_space ws2 = true → trim (ws1 +:+ s +:+ ws2) = trim s.
Proof.
  intros H1 H2. unfold trim. rewrite trim_start_space by done.
  destruct (all_space s) eqn:Hs.
  - rewrite (trim_start_all_space s Hs), (trim_start_all_space (s +:+ ws2)); [done|].
    by rewrite all_space_app, Hs, H2.
  - rewrite trim_start_not_all_space by done. rewrite rev_app.
    rewrite trim_start_space; [done|]. by rewrite all_space_rev.
Qed.

Lemma is_space_lower c : is_space (lower_ascii c) = is_space c.
Proof. by destruct c as [[] [] [] [] [] [] [] []]. Qed.

Lemma lower_ascii_idem c : lower_ascii (lower_ascii c) = lower_ascii c.
Proof. by destruct c as [[] [] [] [] [] [] [] []]. Qed.

Lemma toLowerCase_app a b : toLowerCase (a +:+ b) = toLowerCase a +:+ toLowerCase b.
Proof.
  induction a as [|c a IH]; [done|].
  change (String (lower_ascii c) (toLowerCase (a +:+ b))
          = String (lower_ascii c) (toLowerCase a +:+ toLowerCase b)).
  by rewrite IH.
Qed.

Lemma toLowerCase_rev s : toLowerCase (String.rev s) = String.rev (toLowerCase s).
Proof.
  induction s as [|c s IH]; [done|].
  cbn [toLowerCase]. by rewrite !rev_cons, toLowerCase_app, IH.
Qed.

Lemma toLowerCase_trim_start s : toLowerCase (trim_start s) = trim_start (toLowerCase s).
Proof.
  induction s as [|c s IH]; [done|]. cbn [trim_start toLowerCase].
  rewrite is_space_lower. by destruct (is_space c).
Qed.

Lemma toLowerCase_trim s : toLowerCase (trim s) = trim (toLowerCase s).
Proof.
  unfold trim.
  by rewrite toLowerCase_rev, toLowerCase_trim_start, toLowerCase_rev, toLowerCase_trim_start.
Qed.

Lemma toLowerCase_idem s : toLowerCase (toLowerCase s) = toLowerCase s.
Proof.
  induction s as [|c s IH]; [done|]. cbn [toLowerCase]. by rewrite lower_ascii_idem, IH.
Qed.

(** X18: [coerceOptionalBoolean] answers a boolean or [undefined] and
    never anything else; coercing its answer again changes nothing; and
    on a string neither the case of the letters nor white space around
    the text matters. *)
Theorem X18_optional_boolean_ignores_case_and_padding (v : value) (s ws1 ws2 : string) :
  (coerceOptionalBoolean v = VUndefined ∨ ∃ b, coerceOptionalBoolean v = VBool b)
  ∧ coerceOptionalBoolean (coerceOptionalBoolean v) = coerceOptionalBoolean v
  ∧ coerceOptionalBoolean (VStr (toLowerCase s)) = coerceOptionalBoolean (VStr s)
  ∧ (all_space ws1 = true → all_space ws2 = true →
     coerceOptionalBoolean (VStr (ws1 +:+ s +:+ ws2)) = coerceOptionalBoolean (VStr s)).
Proof.
  split_and!.
  - destruct v; cbn [coerceOptionalBoolean]; eauto.
    repeat case_match; eauto.
  - destruct v; cbn [coerceOptionalBoolean]; try done.
    repeat case_match; done.
  - cbn [coerceOptionalBoolean]. by rewrite <- toLowerCase_trim, toLowerCase_idem.
  - intros H1 H2. cbn [coerceOptionalBoolean]. by rewrite trim_surrounded.
Qed.
(** ** Roopik tools through the parser *)

Lemma isRoopikTool_static name :
  isRoopikTool name = true →
  ∃ t, toolName_of_string name = Some t ∧ resolveToolAlias name = name ∧ t ≠ custom_tool.
Proof.
  unfold isRoopikTool. intros H. apply existsb_exists in H as (x & Hin & Heq).
  apply String.eqb_eq in Heq. subst x. apply list_elem_of_In in Hin.
  unfold ROOPIK_TOOL_NAMES in Hin. elem_cases Hin;
    (eexists; split_and!; [by vm_compute | by vm_compute | done]).
Qed.

(** X19: every Roopik tool name is a static tool name that is no alias
    and no dynamic name.  So [parseToolCall] never rejects a Roopik tool
    call as an invalid tool name, and a record it returns for one bears
    the emitted name, without [originalName]: routing by [isRoopikTool]
    on the record agrees with routing on the emitted name. *)
Theorem X19_roopik_tools_are_static_tools (h : Host) (toolCall : ToolCall) :
  isRoopikTool (call_name toolCall) = true →
  is_Some (toolName_of_string (call_name toolCall))
  ∧ resolveToolAlias (call_name toolCall) = call_name toolCall
  ∧ designates_mcp (call_name toolCall) = false
  ∧ (∀ name resolved, error_invalid_tool_name name resolved ∉ (parseToolCall h toolCall).1)
  ∧ (∀ p, (parseToolCall h toolCall).2 = Some p →
       ∃ r, p = tool_use r ∧ tu_name r = call_name toolCall ∧ tu_originalName r = None
            ∧ tu_partial r = false ∧ isRoopikTool (tu_name r) = true).
Proof.
  intros Hr. destruct (isRoopikTool_static _ Hr) as (t & Ht & Halias & Hc).
  assert (designates_mcp (call_name toolCall) = false) as Hmcp.
  { apply (static_not_mcp _ t). by rewrite Halias. }
  split_and!; [by rewrite Ht | done | done | |].
  - intros name resolved Hin.
    rewrite (parseToolCall_known h toolCall Hmcp) in Hin by (left; by rewrite Halias, Ht).
    pose proof (parseToolCall_try_log h toolCall (resolveToolAlias (call_name toolCall)))
      as Hlog.
    destruct (parseToolCall_try h toolCall _) as [w [e|r]]; cbn [fst] in *.
    + apply elem_of_app in Hin as [Hin|Hin].
      * rewrite Forall_forall in Hlog. by specialize (Hlog _ Hin).
      * apply elem_of_cons in Hin as [Hin|Hin]; [done|].
        apply elem_of_cons in Hin as [Hin|Hin]; [done|]. by apply elem_of_nil in Hin.
    + rewrite Forall_forall in Hlog. by specialize (Hlog _ Hin).
  - intros [r|m] Hp.
    + destruct (parseToolCall_tool_use_inv h toolCall r Hp) as (_ & _ & w & Htry).
      apply parseToolCall_try_inv in Htry as (Hname & Horig & Hpartial & _).
      exists r. rewrite Halias in *. rewrite String.eqb_refl in Horig.
      split_and!; try done. by rewrite Hname.
    + apply parseToolCall_mcp_tool_use_inv in Hp as (Hm & _). congruence.
Qed.

Lemma X19_witness :
  is_Some (toolName_of_string "canvas_create")
  ∧ designates_mcp "canvas_create" = false.
Proof.
  pose proof (X19_roopik_tools_are_static_tools ReferenceHost.plain
                {| call_id := "c1"; call_name := "canvas_create"; call_arguments := "{}" |}
                eq_refl) as (Hs & _ & Hm & _).
  split; assumption.
Defined.

(** ** The Roopik tool handler *)

Lemma failure_inj a b : failure a = failure b → a = b.
Proof. by intros [= ->]. Qed.

Lemma isRoopikTool_str t :
  isRoopikTool (ToolName_str t) = true
  ∨ ∀ h rt block,
      dispatch h rt (ToolName_str t) block
      = Return (failure ("Unknown Roopik tool: " +:+ ToolName_str t)).
Proof.
  destruct t; first [ by left | right; intros h rt block; unfold dispatch;
                                 by rewrite toolName_of_string_str ].
Qed.

(** Each handler but the batch one either answers a failure at once
    or runs one command of the IDE and answers with its result. *)
Lemma dispatch_one_command h rt name t block :
  toolName_of_string name = Some t →
  t ≠ component_add_batch →
  (∃ error, dispatch h rt name block = Return (failure error))
  ∨ ∃ command args,
      dispatch h rt name block = executeCommand command args
      ∧ String.prefix "roopik.tools." command = true.
Proof.
  intros Ht Hb. unfold dispatch. rewrite Ht.
  destruct t; try done; try (left; by eexists);
    cbv [handleBrowserOpen handleBrowserClose handleBrowserActionInput handleNavigate
         handleReload handleScreenshot handleExecuteScript handleInspectElement
         handleGetErrors handleGetConsoleLogs handleBrowserGetPerformance
         handleBrowserGetState handleBrowserSetViewport handleBrowserGetNetworkRequests
         handleGetActiveProject handleStartProject handleStopProject handleListCanvases
         handleGetActiveCanvas handleCreateCanvas handleOpenCanvas handleAddComponent
         handleRemoveComponent handleGetComponentInfo handleListComponents
         handleRebuildComponent handleValidateComponents
         browserOpen browserClose browserAction navigate reload screenshot executeScript
         inspectElement getErrors getConsoleLogs browserGetPerformance browserGetState
         browserSetViewport browserGetNetworkRequests getActiveProject startProject
         stopProject listCanvases getActiveCanvas createCanvas openCanvas addComponent
         removeComponent getComponentInfo listComponents rebuildComponent
         validateComponents];
    try (right; by eexists _, _);
    match goal with
    | |- context [if ?c then Return _ else _] =>
        destruct c; [left; by eexists | right; by eexists _, _]
    end.
Qed.

(** X20: the [switch] of [handleRoopikTool] has a case for every name
    in [ROOPIK_TOOL_NAMES] and for no other name: the failure
    "Unknown Roopik tool" is the answer exactly for the names that
    [isRoopikTool] rejects. *)
Theorem X20_switch_covers_the_roopik_tools
    (h : Host) (rt : Runtime) (toolName : string) (block : ToolUse) :
  isRoopikTool toolName = false
  ↔ dispatch h rt toolName block = Return (failure ("Unknown Roopik tool: " +:+ toolName)).
Proof.
  split.
  - intros Hr. destruct (toolName_of_string toolName) as [t|] eqn:Ht.
    + apply toolName_of_string_Some in Ht. subst toolName.
      destruct (isRoopikTool_str t) as [?|Hd]; [congruence | apply Hd].
    + unfold dispatch. by rewrite Ht.
  - intros Hd. destruct (isRoopikTool toolName) eqn:Hr; [exfalso | done].
    destruct (isRoopikTool_static _ Hr) as (t & Ht & _ & _).
    apply toolName_of_string_Some in Ht. subst toolName.
    revert Hd. unfold dispatch. rewrite toolName_of_string_str.
    destruct t; try (by vm_compute in Hr); cbv iota; cbn [String.append ToolName_str];
      cbv [handleBrowserOpen handleBrowserClose handleBrowserActionInput handleNavigate
           handleReload handleScreenshot handleExecuteScript handleInspectElement
           handleGetErrors handleGetConsoleLogs handleBrowserGetPerformance
           handleBrowserGetState handleBrowserSetViewport handleBrowserGetNetworkRequests
           handleGetActiveProject handleStartProject handleStopProject handleListCanvases
           handleGetActiveCanvas handleCreateCanvas handleOpenCanvas handleAddComponent
           handleRemoveComponent handleGetComponentInfo handleListComponents
           handleRebuildComponent handleValidateComponents];
      try (by intros [=]);
      try (destruct (negb _ && negb _); by intros [=]);
      try (destruct (negb _); by intros [=]).
    unfold handleAddComponents.
    destruct (negb _); [by intros [=]|].
    destruct (JSON_parse h _) as [[| | | | |components|]|]; try by intros [=].
    destruct components as [|component rest]; [by intros [=]|].
    cbn [addEach]. destruct (nullish component); by intros [=].
Qed.
Lemma parseToolCall_tool_use_params h toolCall fs r :
  strict_decode h (call_arguments toolCall) = Some (VObj fs) →
  (parseToolCall h toolCall).2 = Some (tool_use r) →
  tu_name r = resolveToolAlias (call_name toolCall)
  ∧ tu_params r = (strict_params h (tu_name r) fs).1.
Proof.
  intros Hd Hr.
  destruct (parseToolCall_tool_use_inv h toolCall r Hr) as (Hmcp & Hknown & w & Htry).
  unfold parseToolCall_try in Htry. rewrite decode_step, Hd in Htry. unfold_M.
  cbn [Object_entries] in Htry. unfold_M.
  destruct (strict_params h _ fs) as [params warnings] eqn:Hsp. cbn [fst snd app] in *.
  destruct (strict_nativeArgs h _ (VObj fs)) as [w2 [e|v]]; [done|].
  destruct (negb (truthy v) && negb _); [done|].
  injection Htry as <- <-. cbn [tu_name tu_params]. by rewrite Hsp.
Qed.

Lemma parseToolCall_param h toolCall fs r k v :
  strict_decode h (call_arguments toolCall) = Some (VObj fs) →
  NoDup fs.*1 →
  (parseToolCall h toolCall).2 = Some (tool_use r) →
  (k, v) ∈ fs →
  is_toolParamName k = true →
  k ≠ "files" →
  tu_params r !! k = Some (stringValue h v).
Proof.
  intros Hd Hnd Hr Hin Hk Hfiles.
  destruct (parseToolCall_tool_use_params h toolCall fs r Hd Hr) as [_ ->].
  rewrite strict_params_fst.
  pose proof (fold_insert_lookup
                (λ k, negb (String.eqb (tu_name r) "read_file" && String.eqb k "files")
                      && (is_toolParamName k || customToolRegistry_has h (tu_name r))
                      && negb (String.eqb k "__proto__"))
                (stringValue h) fs Hnd k (stringValue h v)) as Hl.
  cbv beta in Hl. apply Hl. split; [|by exists v].
  rewrite (toolParamName_not_proto k Hk), Hk.
  apply String.eqb_neq in Hfiles. by rewrite Hfiles, andb_false_r.
Qed.

(** X21: a required argument of a Roopik tool reaches the IDE.  When
    [parseToolCall] accepts the call, the handler finds the argument in
    [params], in its string form, and, unless that string is empty, it
    runs the command of the tool with the argument under its own name;
    the batch tool, whose argument is decoded again, is set apart. *)
Theorem X21_required_argument_reaches_the_command
    (h : Host) (rt : Runtime) (toolCall : ToolCall) (fs : list (string * value))
    (block : ToolUse) (t : ToolName) (r : string) (v : value) :
  isRoopikTool (call_name toolCall) = true →
  toolName_of_string (call_name toolCall) = Some t →
  t ≠ component_add_batch →
  r ∈ requiredFields t →
  strict_decode h (call_arguments toolCall) = Some (VObj fs) →
  NoDup fs.*1 →
  (r, v) ∈ fs →
  (parseToolCall h toolCall).2 = Some (tool_use block) →
  stringValue h v ≠ "" →
  param block r = Some (stringValue h v)
  ∧ ∃ command args,
      dispatch h rt (tu_name block) block = executeCommand command args
      ∧ args.[r] = VStr (stringValue h v).
Proof.
  intros Hroopik Ht Hb Hr Hd Hnd Hin Hp Hs.
  destruct (isRoopikTool_static _ Hroopik) as (t' & Ht' & Halias & _).
  destruct (parseToolCall_tool_use_params h toolCall fs block Hd Hp) as [Hname _].
  rewrite Halias in Hname.
  assert (present (Some (stringValue h v)) = true) as Hpres.
  { cbn [present]. by destruct (String.eqb_spec (stringValue h v) ""). }
  assert (∀ k, k = r → is_toolParamName k = true → k ≠ "files" →
               tu_params block !! k = Some (stringValue h v)) as Hparam.
  { intros k -> Hk Hf. by apply (parseToolCall_param h toolCall fs). }
  unfold dispatch, param. rewrite Hname, Ht.
  rewrite (toolName_of_string_Some _ _ Ht) in Hroopik.
  destruct t; try done; cbn [requiredFields NativeToolArgs_required default] in Hr;
    elem_cases Hr; try (by vm_compute in Hroopik);
    match type of Hparam with
    | ∀ k, k = ?x → _ =>
        assert (tu_params block !! x = Some (stringValue h v)) as Hp'
          by (apply Hparam; [reflexivity | by vm_compute | by intros [=]])
    end;
    (split; [exact Hp'|]);
    cbv [handleBrowserActionInput handleNavigate handleExecuteScript handleInspectElement
         handleStartProject handleCreateCanvas handleAddComponent handleRemoveComponent
         handleGetComponentInfo handleListComponents handleRebuildComponent
         browserAction navigate executeScript inspectElement startProject createCanvas
         addComponent removeComponent getComponentInfo listComponents rebuildComponent
         or_else param];
    rewrite !Hp', ?Hpres; cbn [negb];
    eexists _, _; (split; [reflexivity|]);
    cbn [get assoc of_optional]; by rewrite String.eqb_refl.
Qed.

Lemma X21_witness :
  ∃ command args,
    dispatch ReferenceHost.plain
      {| parseInt10 := ReferenceHost.float_of_digits;
         parseFloat := ReferenceHost.float_of_digits;
         String_ := ReferenceHost.encode;
         JSON_stringify_indented := λ v, VStr (ReferenceHost.encode v);
         String_of_exn := λ _, "error" |}
      "browser_navigate"
      {| tu_name := "browser_navigate"; tu_originalName := None;
         tu_params := <["url" := "http://x"]> ∅; tu_partial := false;
         tu_nativeArgs := VObj [("url", VStr "http://x")] |}
    = executeCommand command args
    ∧ args.["url"] = VStr "http://x".
Proof.
  refine (proj2 (X21_required_argument_reaches_the_command ReferenceHost.plain _
                   {| call_id := "c1"; call_name := "browser_navigate";
                      call_arguments :=
                        "{" +:+ ReferenceHost.quoted "url" +:+ ":"
                        +:+ ReferenceHost.quoted "http://x" +:+ "}" |}
                   [("url", VStr "http://x")]
                   {| tu_name := "browser_navigate"; tu_originalName := None;
                      tu_params := <["url" := "http://x"]> ∅; tu_partial := false;
                      tu_nativeArgs := VObj [("url", VStr "http://x")] |}
                   browser_navigate "url" (VStr "http://x") _ _ _ _ _ _ _ _ _)).
  - by vm_compute.
  - by vm_compute.
  - discriminate.
  - apply (bool_decide_unpack _). by vm_compute.
  - by vm_compute.
  - apply (bool_decide_unpack _). by vm_compute.
  - apply list_elem_of_here.
  - by vm_compute.
  - discriminate.
Defined.
Lemma trace_executeCommand command args outcome rest :
  trace (executeCommand command args) (command_gives outcome :: rest)
  = ([executed command args], Some (command_result outcome)).
Proof. done. Qed.

(** X22: every handler but the batch one answers a failure at once,
    running no command, or runs exactly one command of the IDE and
    answers with what the command returned, as it is; a command that
    throws, or returns nothing, makes the answer a failure with the
    message of the error.  No handler throws. *)
Theorem X22_one_command_per_call
    (h : Host) (rt : Runtime) (toolName : string) (t : ToolName) (block : ToolUse) :
  toolName_of_string toolName = Some t →
  t ≠ component_add_batch →
  (∃ error, ∀ answers,
     trace (dispatch h rt toolName block) answers = ([], Some (failure error)))
  ∨ ∃ command args,
      String.prefix "roopik.tools." command = true
      ∧ ∀ outcome rest,
          trace (dispatch h rt toolName block) (command_gives outcome :: rest)
          = ([executed command args],
             Some match outcome with
                  | inr result =>
                      if truthy result then result else failure "No result from command"
                  | inl message => failure message
                  end).
Proof.
  intros Ht Hb.
  destruct (dispatch_one_command h rt toolName t block Ht Hb)
    as [[error ->]|(command & args & -> & Hp)].
  - left. by exists error.
  - right. exists command, args. split; [done|]. intros outcome rest.
    apply trace_executeCommand.
Qed.

Lemma X22_witness :
  (∃ error, ∀ answers,
     trace (dispatch ReferenceHost.plain plain_runtime "canvas_open" navigate_block) answers
     = ([], Some (failure error)))
  ∨ ∃ command args,
      String.prefix "roopik.tools." command = true
      ∧ ∀ outcome rest,
          trace (dispatch ReferenceHost.plain plain_runtime "canvas_open" navigate_block)
            (command_gives outcome :: rest)
          = ([executed command args],
             Some match outcome with
                  | inr result =>
                      if truthy result then result else failure "No result from command"
                  | inl message => failure message
                  end).
Proof.
  refine (X22_one_command_per_call ReferenceHost.plain plain_runtime "canvas_open"
            canvas_open navigate_block _ _).
  - by vm_compute.
  - discriminate.
Defined.

(** ** The batch of components *)

Lemma trace_bind {A B} (s : Step A) (f : A → Step B) answers :
  ∃ rest,
    trace (s ≫= f) answers
    = match trace s answers with
      | (events, Some a) => let '(more, b) := trace (f a) rest in (events ++ more, b)
      | (events, None) => (events, None)
      end.
Proof.
  revert answers. induction s as [a|command args k IH|k IH|message k IH|message partial k IH
                                 |response k IH|toolName k IH|action k IH|entry k IH];
    intros answers.
  - exists answers. cbn. by destruct (trace (f a) answers).
  - destruct answers as [|[| |outcome] rest]; try (by exists []).
    destruct (IH outcome rest) as [rest' Hr]. exists rest'.
    change (trace (Vscode_executeCommand command args k ≫= f) (command_gives outcome :: rest))
      with (let '(events, a) := trace (k outcome ≫= f) rest in
            (executed command args :: events, a)).
    rewrite Hr. cbn [trace]. destruct (trace (k outcome) rest) as [events [a|]]; [|done].
    by destruct (trace (f a) rest').
  - destruct answers as [|[commands| |] rest]; try (by exists []).
    destruct (IH commands rest) as [rest' Hr]. exists rest'.
    change (trace (Vscode_getCommands k ≫= f) (commands_are commands :: rest))
      with (let '(events, a) := trace (k commands ≫= f) rest in (got_commands :: events, a)).
    rewrite Hr. cbn [trace]. destruct (trace (k commands) rest) as [events [a|]]; [|done].
    by destruct (trace (f a) rest').
  - destruct answers as [|[|didApprove|] rest]; try (by exists []).
    destruct (IH didApprove rest) as [rest' Hr]. exists rest'.
    change (trace (AskApproval message k ≫= f) (approval_is didApprove :: rest))
      with (let '(events, a) := trace (k didApprove ≫= f) rest in
            (asked_approval message :: events, a)).
    rewrite Hr. cbn [trace]. destruct (trace (k didApprove) rest) as [events [a|]]; [|done].
    by destruct (trace (f a) rest').
  - destruct (IH answers) as [rest' Hr]. exists rest'.
    change (trace (TaskAsk message partial k ≫= f) answers)
      with (let '(events, a) := trace (k ≫= f) answers in (asked message partial :: events, a)).
    rewrite Hr. cbn [trace]. destruct (trace k answers) as [events [a|]]; [|done].
    by destruct (trace (f a) rest').
  - destruct (IH answers) as [rest' Hr]. exists rest'.
    change (trace (PushToolResult response k ≫= f) answers)
      with (let '(events, a) := trace (k ≫= f) answers in (pushed response :: events, a)).
    rewrite Hr. cbn [trace]. destruct (trace k answers) as [events [a|]]; [|done].
    by destruct (trace (f a) rest').
  - destruct (IH answers) as [rest' Hr]. exists rest'.
    change (trace (RecordToolError toolName k ≫= f) answers)
      with (let '(events, a) := trace (k ≫= f) answers in
            (recorded_tool_error toolName :: events, a)).
    rewrite Hr. cbn [trace]. destruct (trace k answers) as [events [a|]]; [|done].
    by destruct (trace (f a) rest').
  - destruct (IH answers) as [rest' Hr]. exists rest'.
    change (trace (HandleError action k ≫= f) answers)
      with (let '(events, a) := trace (k ≫= f) answers in (handled_error action :: events, a)).
    rewrite Hr. cbn [trace]. destruct (trace k answers) as [events [a|]]; [|done].
    by destruct (trace (f a) rest').
  - destruct (IH answers) as [rest' Hr]. exists rest'.
    change (trace (ConsoleError entry k ≫= f) answers)
      with (let '(events, a) := trace (k ≫= f) answers in (console_error entry :: events, a)).
    rewrite Hr. cbn [trace]. destruct (trace k answers) as [events [a|]]; [|done].
    by destruct (trace (f a) rest').
Qed.
Lemma executed_commands_cons_other e events :
  match e with executed _ _ => False | _ => True end →
  executed_commands (e :: events) = executed_commands events.
Proof. by destruct e. Qed.




(** ** Approval *)

(** X24: [handleRoopikTool] runs no command of the IDE for a partial
    record, nor before the IDE was found available and the user has
    approved: whenever a command runs, the record is final, the command
    "roopik.executeTool" is among the registered ones, and the approval
    was asked, for the tool and its [params], and given. *)
Theorem X24_no_command_without_approval
    (h : Host) (rt : Runtime) (block : ToolUse) (answers : list Answer) :
  executed_commands (trace (handleRoopikTool h rt block) answers).1 ≠ [] →
  tu_partial block = false
  ∧ ∃ commands rest events,
      answers = commands_are (Some commands) :: approval_is (Some true) :: rest
      ∧ "roopik.executeTool" ∈ commands
      ∧ (trace (handleRoopikTool h rt block) answers).1
        = got_commands :: asked_approval (tool_message block) :: events.
Proof.
  unfold handleRoopikTool, handleRoopikToolPartial.
  destruct (tu_partial block); [done|]. intros Hex. split; [done|].
  revert Hex. unfold isAvailable.
  destruct answers as [|[[commands|]| |] rest]; try done.
  cbn [trace mbind Step_mbind Step_bind fmap option_fmap option_map].
  case_bool_decide as Hin; [|done].
  destruct rest as [|[|[[]|]|] rest]; try done.
  intros _. cbn [trace mbind Step_mbind Step_bind].
  destruct (trace _ rest) as [events a]. by exists commands, rest, events.
Qed.

Lemma X24_witness :
  ∃ commands rest events,
    [commands_are (Some ["roopik.executeTool"]); approval_is (Some true);
     command_gives (inl "closed")]
    = commands_are (Some commands) :: approval_is (Some true) :: rest
    ∧ "roopik.executeTool" ∈ commands
    ∧ (trace (handleRoopikTool ReferenceHost.plain plain_runtime navigate_block)
         [commands_are (Some ["roopik.executeTool"]); approval_is (Some true);
          command_gives (inl "closed")]).1
      = got_commands :: asked_approval (tool_message navigate_block) :: events.
Proof.
  refine (proj2 (X24_no_command_without_approval ReferenceHost.plain plain_runtime
                   navigate_block
                   [commands_are (Some ["roopik.executeTool"]); approval_is (Some true);
                    command_gives (inl "closed")] _)).
  by vm_compute.
Defined.
(** ** One answer for each call *)

Lemma only_commands_bind {A B} (s : Step A) (f : A → Step B) :
  only_commands s → (∀ a, only_commands (f a)) → only_commands (s ≫= f).
Proof.
  intros Hs Hf. induction s as [a|command args k IH|k IH|message k IH|message partial k IH
                               |response k IH|toolName k IH|action k IH|entry k IH];
    try done.
  - apply Hf.
  - intros outcome. apply IH, Hs.
  - apply IH, Hs.
Qed.

Lemma only_commands_executeCommand command args : only_commands (executeCommand command args).
Proof. by intros outcome. Qed.

Lemma only_commands_addEach components :
  ∀ addedComponents, only_commands (addEach components addedComponents).
Proof.
  induction components as [|component rest IH]; intros added; [done|].
  cbn [addEach]. destruct (nullish component); [done|].
  apply only_commands_bind; [apply only_commands_executeCommand|].
  intros result. destruct (_ && _); [apply IH|]. cbn [only_commands]. apply IH.
Qed.

Lemma only_commands_dispatch h rt toolName block :
  only_commands (dispatch h rt toolName block).
Proof.
  unfold dispatch.
  destruct (toolName_of_string toolName) as [t|] eqn:Ht; [|done].
  destruct t; try done;
    cbv [handleBrowserOpen handleBrowserClose handleBrowserActionInput handleNavigate
         handleReload handleScreenshot handleExecuteScript handleInspectElement
         handleGetErrors handleGetConsoleLogs handleBrowserGetPerformance
         handleBrowserGetState handleBrowserSetViewport handleBrowserGetNetworkRequests
         handleGetActiveProject handleStartProject handleStopProject handleListCanvases
         handleGetActiveCanvas handleCreateCanvas handleOpenCanvas handleAddComponent
         handleRemoveComponent handleGetComponentInfo handleListComponents
         handleRebuildComponent handleValidateComponents
         browserOpen browserClose browserAction navigate reload screenshot executeScript
         inspectElement getErrors getConsoleLogs browserGetPerformance browserGetState
         browserSetViewport browserGetNetworkRequests getActiveProject startProject
         stopProject listCanvases getActiveCanvas createCanvas openCanvas addComponent
         removeComponent getComponentInfo listComponents rebuildComponent
         validateComponents];
    try apply only_commands_executeCommand;
    try (match goal with
         | |- context [if ?c then Return _ else _] =>
             destruct c; [done | apply only_commands_executeCommand]
         end).
  unfold handleAddComponents. destruct (negb _); [done|].
  destruct (JSON_parse h _) as [[| | | | |components|]|]; try done.
  apply only_commands_bind; [apply only_commands_addEach|]. by intros [e|added].
Qed.

Lemma only_commands_trace {A} (s : Step A) :
  only_commands s → ∀ answers, Forall (λ e, is_final e = false) (trace s answers).1.
Proof.
  induction s as [a|command args k IH|k IH|message k IH|message partial k IH
                 |response k IH|toolName k IH|action k IH|entry k IH];
    try done; intros Hs answers; cbn [trace].
  - destruct answers as [|[| |outcome] rest]; try (by repeat constructor).
    specialize (IH outcome (Hs outcome) rest).
    destruct (trace (k outcome) rest) as [events a]. by constructor.
  - specialize (IH Hs answers). destruct (trace k answers) as [events a]. by constructor.
Qed.

(** X25: a call of [handleRoopikTool] on a final record that runs to
    its end pushes one tool result or hands one error to [handleError],
    as the last thing it does, and never both or twice; the handlers
    themselves push nothing.  A partial record only asks, with the
    tool and its [params], and pushes nothing. *)
Theorem X25_one_answer_for_each_call
    (h : Host) (rt : Runtime) (block : ToolUse) (answers : list Answer) :
  if tu_partial block
  then trace (handleRoopikTool h rt block) answers
       = ([asked (tool_message block) true], Some tt)
  else (trace (handleRoopikTool h rt block) answers).2 = Some tt →
       ∃ events final,
         (trace (handleRoopikTool h rt block) answers).1 = events ++ [final]
         ∧ is_final final = true
         ∧ Forall (λ e, is_final e = false) events.
Proof.
  unfold handleRoopikTool, handleRoopikToolPartial.
  destruct (tu_partial block) eqn:Hp; [done|].
  unfold isAvailable.
  destruct answers as [|[[commands|]| |] rest]; try done;
    cbn [trace mbind Step_mbind Step_bind fmap option_fmap option_map].
  2: { intros _. exists [got_commands], (handled_error ("executing " +:+ tu_name block)).
       split_and!; [done | done | by repeat constructor]. }
  case_bool_decide as Hin.
  2: { intros _. eexists [got_commands], _. split_and!; [done | done | by repeat constructor]. }
  destruct rest as [|[|[[]|]|] rest]; try done; cbn [trace mbind Step_mbind Step_bind].
  2: { intros _. eexists [got_commands; asked_approval _], _.
       split_and!; [done | done | by repeat constructor]. }
  2: { intros _. eexists [got_commands; asked_approval _], _.
       split_and!; [done | done | by repeat constructor]. }
  match goal with
  | |- context [trace (?s ≫= ?f) rest] =>
      destruct (trace_bind s f rest) as [rest' Hb]; rewrite Hb
  end.
  pose proof (only_commands_trace _ (only_commands_dispatch h rt (tu_name block) block) rest)
    as Hquiet.
  destruct (trace (dispatch h rt (tu_name block) block) rest) as [events [result|]];
    [|done]. cbn [fst] in Hquiet.
  destruct (truthy result.["success"]).
  - destruct (formatToolResult rt (tu_name block) result) as [e|response]; cbn [trace];
      intros _; eexists (got_commands :: asked_approval _ :: events), _;
      (split_and!; [by rewrite !app_comm_cons | done | by repeat constructor]).
  - cbn [trace]. intros _.
    eexists (got_commands :: asked_approval _ :: events ++ [recorded_tool_error _]), _.
    split_and!; [by rewrite !app_comm_cons, <- app_assoc | done |].
    repeat constructor. apply Forall_app. split; [done | by repeat constructor].
Qed.
(** ** The result of a screenshot *)

Lemma length_append (a b : string) :
  String.length (a +:+ b) = String.length a + String.length b.
Proof.
  induction a as [|c a IH]; [done|].
  change (S (String.length (a +:+ b)) = S (String.length a + String.length b)).
  by rewrite IH.
Qed.

Lemma substring_all (s : string) : String.substring 0 (String.length s) s = s.
Proof.
  induction s as [|c s IH]; [done|].
  change (String c (String.substring 0 (String.length s) s) = String c s).
  by rewrite IH.
Qed.

Lemma slice_from_append (p r : string) : slice_from (String.length p) (p +:+ r) = r.
Proof.
  unfold slice_from. rewrite length_append.
  replace (String.length p + String.length r - String.length p) with (String.length r) by lia.
  induction p as [|c p IH]; [apply substring_all | exact IH].
Qed.

Lemma prefix_slice (p s : string) :
  String.prefix p s = true → s = p +:+ slice_from (String.length p) s.
Proof.
  intros H. apply prefix_inv in H as [r ->]. by rewrite slice_from_append.
Qed.

Lemma span_word_Some s w rest :
  span_word s = (w, rest) → s = w +:+ rest ∧ all_word w = true.
Proof.
  revert w. induction s as [|c s IH]; intros w; cbn [span_word].
  - by intros [= <- <-].
  - destruct (is_word c) eqn:Hc.
    + destruct (span_word s) as [w' rest'] eqn:Hs. intros [= <- <-].
      destruct (IH w' eq_refl) as [-> Hw]. split; [done|]. cbn [all_word]. by rewrite Hc.
    + by intros [= <- <-].
Qed.

Lemma span_word_stop w c rest :
  all_word w = true → is_word c = false →
  span_word (w +:+ String c rest) = (w, String c rest).
Proof.
  intros Hw Hc. induction w as [|a w IH].
  - change (span_word (String c rest) = ("", String c rest)).
    cbn [span_word]. by rewrite Hc.
  - cbn [all_word] in Hw. apply andb_prop in Hw as [Ha Hw].
    change (String a w +:+ String c rest) with (String a (w +:+ String c rest)).
    cbn [span_word]. by rewrite Ha, (IH Hw).
Qed.

Lemma match_data_url_Some image subtype data :
  match_data_url image = Some (subtype, data) →
  image = "data:image/" +:+ subtype +:+ ";base64," +:+ data
  ∧ subtype ≠ "" ∧ all_word subtype = true
  ∧ data ≠ "" ∧ no_line_terminator data = true.
Proof.
  unfold match_data_url.
  destruct (String.prefix "data:image/" image) eqn:Hp; [|done].
  apply prefix_slice in Hp. change (String.length "data:image/") with 11 in Hp.
  destruct (span_word (slice_from 11 image)) as [w rest] eqn:Hs.
  apply span_word_Some in Hs as [Hs Hw].
  destruct (negb (String.eqb w "") && String.prefix ";base64," rest) eqn:Hc; [|done].
  apply andb_prop in Hc as [Hne Hb]. apply prefix_slice in Hb.
  change (String.length ";base64,") with 8 in Hb.
  destruct (negb (String.eqb (slice_from 8 rest) "") && no_line_terminator (slice_from 8 rest))
    eqn:Hd; [|done].
  apply andb_prop in Hd as [Hdne Hnl]. intros [= <- <-].
  split_and!; try done.
  - by rewrite Hp, Hs, Hb at 1.
  - intros Heq. by rewrite Heq in Hne.
  - intros Heq. by rewrite Heq in Hdne.
Qed.

(** X26: an image text is taken for a data URL exactly when it is
    "data:image/", one or more word characters, ";base64," and one or
    more characters none of which ends a line, as the expression
    [/^data:image\/(\w+);base64,(.+)$/] says; the two groups are then
    the subtype and the data. *)
Theorem X26_data_url_of_an_image (image subtype data : string) :
  match_data_url image = Some (subtype, data)
  ↔ image = "data:image/" +:+ subtype +:+ ";base64," +:+ data
    ∧ subtype ≠ "" ∧ all_word subtype = true
    ∧ data ≠ "" ∧ no_line_terminator data = true.
Proof.
  split; [apply match_data_url_Some|]. unfold match_data_url.
  intros (-> & Hne & Hw & Hdne & Hnl).
    change (String.prefix "data:image/" ("data:image/" +:+ subtype +:+ ";base64," +:+ data))
      with (String.prefix "" (subtype +:+ ";base64," +:+ data)).
    assert (String.prefix "" (subtype +:+ ";base64," +:+ data) = true) as ->
      by by destruct (subtype +:+ ";base64," +:+ data).
    change 11 with (String.length "data:image/"). rewrite slice_from_append.
    change (";base64," +:+ data) with (String ";" ("base64," +:+ data)).
    rewrite span_word_stop by done.
    destruct (String.eqb_spec subtype ""); [done|]. cbn [negb andb].
    change (String.prefix ";base64," (String ";" ("base64," +:+ data)))
      with (String.prefix "" data).
    assert (String.prefix "" data = true) as -> by by destruct data.
    change (String ";" ("base64," +:+ data)) with (";base64," +:+ data).
    change 8 with (String.length ";base64,"). rewrite slice_from_append, Hnl.
    by destruct (String.eqb_spec data "").
Qed.

(** X28: what the IDE command did is what the user gets.  For a tool
    other than the screenshot whose handler runs a command, an approved
    call pushes the indented JSON text of the data the command returned
    when the command reports success; otherwise it records a tool error
    and pushes the error of the command, or "Tool execution failed" when
    there is none.  An error the command throws is pushed with its
    message in the same way: it is not handed to [handleError]. *)
Theorem X28_command_outcome_is_relayed
    (h : Host) (rt : Runtime) (block : ToolUse) (command : string) (args : value)
    (commands : list string) (outcome : string + value) :
  tu_partial block = false →
  "roopik.executeTool" ∈ commands →
  tu_name block ≠ "browser_screenshot" →
  dispatch h rt (tu_name block) block = executeCommand command args →
  trace (handleRoopikTool h rt block)
    [commands_are (Some commands); approval_is (Some true); command_gives outcome]
  = (got_commands :: asked_approval (tool_message block) :: executed command args
       :: (if truthy (command_result outcome).["success"]
           then [pushed (response_text
                           (JSON_stringify_indented rt (command_result outcome).["data"]))]
           else [recorded_tool_error (tu_name block);
                 pushed (toolError (if truthy (command_result outcome).["error"]
                                    then (command_result outcome).["error"]
                                    else VStr "Tool execution failed"))]),
     Some tt)
  ∧ (∀ message, outcome = inl message → message ≠ "" →
     (trace (handleRoopikTool h rt block)
        [commands_are (Some commands); approval_is (Some true); command_gives outcome]).1
     = [got_commands; asked_approval (tool_message block); executed command args;
        recorded_tool_error (tu_name block); pushed (toolError (VStr message))]).
Proof.
  intros Hp Hin Hn Hd.
  assert (trace (handleRoopikTool h rt block)
            [commands_are (Some commands); approval_is (Some true); command_gives outcome]
          = (got_commands :: asked_approval (tool_message block) :: executed command args
               :: (if truthy (command_result outcome).["success"]
                   then [pushed (response_text
                                   (JSON_stringify_indented rt
                                      (command_result outcome).["data"]))]
                   else [recorded_tool_error (tu_name block);
                         pushed (toolError (if truthy (command_result outcome).["error"]
                                            then (command_result outcome).["error"]
                                            else VStr "Tool execution failed"))]),
             Some tt)) as Hmain.
  { unfold handleRoopikTool, isAvailable. rewrite Hp, Hd.
    cbn [trace mbind Step_mbind Step_bind fmap option_fmap option_map executeCommand].
    rewrite bool_decide_eq_true_2 by done.
    cbn [trace mbind Step_mbind Step_bind].
    fold (command_result outcome).
    destruct (truthy (command_result outcome).["success"]); [|done].
    unfold formatToolResult. apply String.eqb_neq in Hn. by rewrite Hn. }
  split; [exact Hmain|].
  intros message -> Hne. rewrite Hmain. cbn [command_result failure get assoc fst].
  rewrite String.eqb_refl. cbn [truthy].
  assert (String.eqb "error" "success" = false) as -> by done.
  rewrite String.eqb_refl. cbn [truthy].
  by destruct (String.eqb_spec message "").
Qed.

Lemma X28_witness :
  (trace (handleRoopikTool ReferenceHost.plain plain_runtime navigate_block)
     [commands_are (Some ["roopik.executeTool"]); approval_is (Some true);
      command_gives (inl "closed")]).1
  = [got_commands; asked_approval (tool_message navigate_block);
     executed "roopik.tools.navigate" (VObj [("url", VStr "http://x")]);
     recorded_tool_error "browser_navigate"; pushed (toolError (VStr "closed"))].
Proof.
  refine (proj2 (X28_command_outcome_is_relayed ReferenceHost.plain plain_runtime
                   navigate_block "roopik.tools.navigate" (VObj [("url", VStr "http://x")])
                   ["roopik.executeTool"] (inl "closed") _ _ _ _) "closed" eq_refl _).
  - reflexivity.
  - apply list_elem_of_here.
  - discriminate.
  - by vm_compute.
  - discriminate.
Defined.

(** ** The string parameters of the partial and of the final record *)

Lemma processStreamingChunk_params h id chunk st call fs p :
  streamingToolCalls st !! id = Some call →
  parseJSON h (argumentsAccumulator call +:+ chunk) = Some (VObj fs) →
  returned (processStreamingChunk h id chunk st) = Some p →
  tu_params p = partial_params h fs.
Proof.
  intros Hcall Hj Hr.
  destruct (processStreamingChunk_returned h id chunk st call p Hcall Hr)
    as (_ & partialArgs & w & Hj' & Hc).
  rewrite Hj in Hj'. injection Hj' as <-. cbn [truthy] in Hc.
  unfold createPartialToolUse in Hc. unfold_M. cbn [Object_entries] in Hc. unfold_M.
  destruct (partial_nativeArgs h _ (VObj fs)) as [w2 [e|v]]; [done|].
  by injection Hc as _ <-.
Qed.

(** X29: when the lenient decoder and [JSON.parse] return the same
    object for the accumulated text of a call of a tool that is not a
    custom one, the string [params] of the final record are those of
    the partial record made from that text, but for [files] of
    [read_file], which the final record leaves out: what was shown
    while the call was streamed is what the call ends with. *)
Theorem X29_final_params_are_the_partial_params
    (h : Host) (st : ParserState) (id chunk : string) (call : StreamingCall)
    (fs : list (string * value)) (p f : ToolUse) :
  HostLaws h →
  streamingToolCalls st !! id = Some call →
  customToolRegistry_has h (resolveToolAlias (sc_name call)) = false →
  JSON_parse h (argumentsAccumulator call +:+ chunk) = Some (VObj fs) →
  parseJSON h (argumentsAccumulator call +:+ chunk) = Some (VObj fs) →
  NoDup fs.*1 →
  returned (processStreamingChunk h id chunk st) = Some p →
  returned (finalizeStreamingToolCall h id (state (processStreamingChunk h id chunk st)))
  = Some (tool_use f) →
  tu_params f
  = if String.eqb (tu_name f) "read_file" then delete "files" (tu_params p) else tu_params p.
Proof.
  intros Hlaws Hcall Hcustom Hparse Hlenient Hnd Hp Hf.
  rewrite (processStreamingChunk_params h id chunk st call fs p Hcall Hlenient Hp).
  pose proof (processStreamingChunk_accumulates h id chunk st id) as Hacc.
  rewrite Hcall, String.eqb_refl in Hacc. cbn [fmap option_fmap option_map] in Hacc.
  destruct (finalizeStreamingToolCall_returned h id _ _ Hacc) as [Hret _].
  rewrite Hret in Hf. cbn [sc_id sc_name argumentsAccumulator] in Hf.
  assert (strict_decode h (argumentsAccumulator call +:+ chunk) = Some (VObj fs)) as Hd.
  { unfold strict_decode. destruct (String.eqb_spec (argumentsAccumulator call +:+ chunk) "")
      as [Heq|_]; [|done].
    rewrite Heq, (parse_empty h Hlaws) in Hparse. done. }
  destruct (parseToolCall_tool_use_params h
              {| call_id := sc_id call; call_name := sc_name call;
                 call_arguments := argumentsAccumulator call +:+ chunk |} fs f Hd Hf)
    as [Hname Hparams].
  rewrite Hparams.
  cbn [call_name] in Hname. rewrite strict_params_fst, Hname, Hcustom.
  apply map_eq. intros k. apply option_eq. intros s.
  pose proof (fold_insert_lookup
                (λ k, negb (String.eqb (resolveToolAlias (sc_name call)) "read_file"
                            && String.eqb k "files")
                      && (is_toolParamName k || false)
                      && negb (String.eqb k "__proto__"))
                (stringValue h) fs Hnd k s) as Hl.
  cbv beta in Hl. rewrite Hl. clear Hl. rewrite orb_false_r.
  pose proof (fold_insert_lookup is_toolParamName (stringValue h) fs Hnd k s) as Hpartial.
  fold (partial_params h fs) in Hpartial.
  assert (is_toolParamName k && negb (String.eqb k "__proto__") = is_toolParamName k)
    as Hproto.
  { destruct (is_toolParamName k) eqn:Hk; [|done].
    by rewrite (toolParamName_not_proto k Hk). }
  destruct (String.eqb (resolveToolAlias (sc_name call)) "read_file"); cbn [andb negb].
  - destruct (String.eqb_spec k "files") as [->|Hne]; cbn [negb andb].
    + rewrite lookup_delete_eq. split; [by intros [? _] | done].
    + by rewrite lookup_delete_ne, Hpartial, Hproto.
  - by rewrite Hpartial, Hproto.
Qed.

Lemma X29_witness :
  let text := "{" +:+ ReferenceHost.quoted "url" +:+ ":" +:+ ReferenceHost.quoted "http://x"
              +:+ "}" in
  let st := startStreamingToolCall "c1" "browser_navigate" fresh in
  ∃ p f,
    returned (processStreamingChunk ReferenceHost.plain "c1" text st) = Some p
    ∧ returned (finalizeStreamingToolCall ReferenceHost.plain "c1"
                  (state (processStreamingChunk ReferenceHost.plain "c1" text st)))
      = Some (tool_use f)
    ∧ tu_params f = tu_params p.
Proof.
  cbv zeta.
  exists {| tu_name := "browser_navigate"; tu_originalName := None;
            tu_params := <["url" := "http://x"]> ∅; tu_partial := true;
            tu_nativeArgs := VObj [("url", VStr "http://x")] |},
         navigate_block.
  assert (returned (processStreamingChunk ReferenceHost.plain "c1"
                      ("{" +:+ ReferenceHost.quoted "url" +:+ ":"
                       +:+ ReferenceHost.quoted "http://x" +:+ "}")
                      (startStreamingToolCall "c1" "browser_navigate" fresh))
          = Some {| tu_name := "browser_navigate"; tu_originalName := None;
                    tu_params := <["url" := "http://x"]> ∅; tu_partial := true;
                    tu_nativeArgs := VObj [("url", VStr "http://x")] |}) as Hp
    by (by vm_compute).
  assert (returned (finalizeStreamingToolCall ReferenceHost.plain "c1"
                      (state (processStreamingChunk ReferenceHost.plain "c1"
                                ("{" +:+ ReferenceHost.quoted "url" +:+ ":"
                                 +:+ ReferenceHost.quoted "http://x" +:+ "}")
                                (startStreamingToolCall "c1" "browser_navigate" fresh))))
          = Some (tool_use navigate_block)) as Hf
    by (by vm_compute).
  split_and!; [exact Hp | exact Hf |].
  refine (X29_final_params_are_the_partial_params ReferenceHost.plain _ "c1" _
            {| sc_id := "c1"; sc_name := "browser_navigate"; argumentsAccumulator := "" |}
            [("url", VStr "http://x")] _ _ (reference_host_laws _) _ _ _ _ _ Hp Hf).
  - by vm_compute.
  - reflexivity.
  - by vm_compute.
  - by vm_compute.
  - apply (bool_decide_unpack _). by vm_compute.
Defined.
